(** * HealthShare chaincode: access decisions and audit trail

    A shallow embedding of [chaincodes/chaincode-kv-node/index.js]: the ABAC
    helpers, the base contract ([_readState], [_writeState], [_logAudit],
    [_checkAccessPolicy]) and the admin, patient, doctor, nurse, insurance
    and audit contracts.

    Modelling conventions.
    - The ledger is a finite map from composite keys to JSON documents.  The
      ledger stub encodes a composite key as one string, the object type and
      each attribute followed by U+0000, refuses an empty object type or
      attribute, and serves a partial key by the range of keys that extend
      its string.  Here a key is kept structured (object type and attribute
      list), [createCompositeKey] is total, and a partial key matches by
      attribute prefix.  The two readings agree on keys whose parts are
      non-empty and free of U+0000 ([plainKey], lemmas [encodeKey_inj] and
      [encodeKey_prefix]); a statement that needs this says so in its
      hypotheses, either by naming what the scan of the stub meets
      ([inScanOf], which reads the keys as strings) or by asking for plain
      identifiers.  A range scan yields the matching entries in the order of
      the map; no statement below depends on that order.
    - [JSON.stringify] followed by [JSON.parse] is the identity on documents;
      a text argument that carries JSON is given by its parse ([None] when
      [JSON.parse] raises).  Numbers are integers, which is exact up to
      [2^53]; strings are sequences of bytes, and white space is ASCII white
      space, which is exact for ASCII text ([isAscii]).  Statements about
      [trim] and [parseInt] carry these bounds where they matter.
    - JavaScript's implicit conversions of a value that is not a number to a
      number, or of a value that is not a string to a string, are not
      modelled: the step raises [NotModelled].  No document the contract
      writes leads there.
    - A contract method is a computation over the transaction state that
      either returns a value or raises; the state also counts the range
      iterators that were opened and not yet closed.  No method reads a key
      after writing it, so threading the writes through the reads agrees with
      reads served from the committed ledger.
    - [Date.now()] is the [clock] field of the transaction context. *)

From Stdlib Require Import ZArith String Ascii List Bool.
From stdpp Require Import gmap strings list fin_maps pretty.

Open Scope string_scope.
Open Scope Z_scope.

(** ** JSON documents *)

#[local] Set Warnings "-register-all".

Inductive json : Type :=
| JNull
| JBool (b : bool)
| JNum (n : Z)
| JStr (s : string)
| JArr (items : list json)
| JObj (fields : list (string * json)).

(** A JavaScript value read from a document: [None] is [undefined]. *)
Definition jsval := option json.

(** ** Strings *)

Module Str.

Fixpoint startsWith (s t : string) {struct t} : bool :=
  match t, s with
  | EmptyString, _ => true
  | String c t', String d s' => if Ascii.eqb c d then startsWith s' t' else false
  | String _ _, EmptyString => false
  end.

(** [s.includes(t)]: [t] occurs in [s] as a contiguous substring. *)
Fixpoint includes (s t : string) : bool :=
  startsWith s t ||
  match s with
  | EmptyString => false
  | String _ s' => includes s' t
  end.

Definition isSpace (c : ascii) : bool :=
  let n := N_of_ascii c in
  ((9 <=? n) && (n <=? 13))%N || (n =? 32)%N.

Fixpoint trimStart (s : string) : string :=
  match s with
  | String c s' => if isSpace c then trimStart s' else s
  | EmptyString => EmptyString
  end.

Fixpoint trimEnd (s : string) : string :=
  match s with
  | EmptyString => EmptyString
  | String c s' =>
      match trimEnd s' with
      | EmptyString => if isSpace c then EmptyString else String c EmptyString
      | r => String c r
      end
  end.

Definition trim (s : string) : string := trimEnd (trimStart s).

(** [s.split(',')], with the piece being read in [cur] (reversed). *)
Fixpoint splitOn (sep : ascii) (s : string) (cur : string) : list string :=
  match s with
  | EmptyString => [String.rev cur]
  | String c s' =>
      if Ascii.eqb c sep then String.rev cur :: splitOn sep s' EmptyString
      else splitOn sep s' (String c cur)
  end.

Definition split (sep : ascii) (s : string) : list string := splitOn sep s EmptyString.

Definition digit (c : ascii) : option Z :=
  let n := Z.of_N (N_of_ascii c) in
  if (48 <=? n) && (n <=? 57) then Some (n - 48) else None.

Definition hexDigit (c : ascii) : option Z :=
  let n := Z.of_N (N_of_ascii c) in
  if (48 <=? n) && (n <=? 57) then Some (n - 48)
  else if (97 <=? n) && (n <=? 102) then Some (n - 87)
  else if (65 <=? n) && (n <=? 70) then Some (n - 55)
  else None.

(** Longest run of digits in the given radix, read left to right; [None]
    when there is no digit at all. *)
Fixpoint digits (dig : ascii -> option Z) (radix : Z) (s : string) (acc : option Z) : option Z :=
  match s with
  | EmptyString => acc
  | String c s' =>
      match dig c with
      | Some d => digits dig radix s' (Some (radix * default 0 acc + d))
      | None => acc
      end
  end.

Definition unsignedInt (s : string) : option Z :=
  match s with
  | String "0" (String "x" r) | String "0" (String "X" r) => digits hexDigit 16 r None
  | _ => digits digit 10 s None
  end.

(** [parseInt(s)] without a radix argument; [None] is [NaN]. *)
Definition parseInt (s : string) : option Z :=
  match trimStart s with
  | String "-" r => Z.opp <$> unsignedInt r
  | String "+" r => unsignedInt r
  | r => unsignedInt r
  end.

End Str.

(** ** Property access on documents *)

Fixpoint assoc (k : string) (fields : list (string * json)) : jsval :=
  match fields with
  | [] => None
  | (k', v) :: rest => if String.eqb k k' then Some v else assoc k rest
  end.

Fixpoint assocSet (k : string) (v : json) (fields : list (string * json)) : list (string * json) :=
  match fields with
  | [] => [(k, v)]
  | (k', v') :: rest =>
      if String.eqb k k' then (k, v) :: rest else (k', v') :: assocSet k v rest
  end.

Fixpoint assocDel (k : string) (fields : list (string * json)) : list (string * json) :=
  match fields with
  | [] => []
  | (k', v') :: rest =>
      if String.eqb k k' then assocDel k rest else (k', v') :: assocDel k rest
  end.

(** Truthiness of a value, as [!], [||] and [&&] see it. *)
Definition truthy (v : jsval) : bool :=
  match v with
  | None | Some JNull => false
  | Some (JBool b) => b
  | Some (JNum n) => negb (n =? 0)
  | Some (JStr s) => negb (String.eqb s "")
  | Some (JArr _) | Some (JObj _) => true
  end.

(** [a || b] on values. *)
Definition jsOr (a b : jsval) : jsval := if truthy a then a else b.

(** [obj.name] for the property names the contract reads (none of them is a
    built-in property of arrays or strings); reading from [null] raises. *)
Definition prop (name : string) (j : json) : jsval :=
  match j with
  | JObj fields => assoc name fields
  | _ => None
  end.

(** [v === s] for a string [s]. *)
Definition strictEqStr (v : jsval) (s : string) : bool :=
  match v with
  | Some (JStr s') => String.eqb s' s
  | _ => false
  end.

(** ** Errors *)

(** The [Access denied: ...] messages. *)
Inductive denial : Type :=
| RoleRequired (expectedRoles : list string) (found : option string)
| AdminOtherHospital
| PatientOtherHospital
| RecordOtherHospital
| ClearanceRequired
| NotOwnRecord (verb : string)
| NoPolicyAccess (permission callerRole callerId dataType patientId : string)
| InsuranceChannelOnly
| AuditChannelOnly.

Inductive error : Type :=
| AccessDenied (why : denial)
| MissingAttribute (attr : string)
| StateNotFound (key : string * list string)
| AlreadyExists (what : string) (ids : list string)
| InvalidPermissions
| NoTimestamp
| TypeError
| SyntaxError
| NotModelled.

Inductive result (A : Type) : Type :=
| Ok (a : A)
| Err (e : error).
Arguments Ok {A} a.
Arguments Err {A} e.

(** ** Transaction context and state *)

Record Context : Type := {
  attributes : gmap string string;  (* what clientIdentity.getAttributeValue gives *)
  callerID : string;                (* clientIdentity.getID() *)
  channelID : string;               (* stub.getChannelID() *)
  txID : string;                    (* stub.getTxID() *)
  txSeconds : option Z;             (* stub.getTxTimestamp().seconds, when there *)
  clock : Z                         (* Date.now() *)
}.

Abbreviation Key := (string * list string)%type.

Record TxState : Type := {
  world : gmap Key json;
  openIterators : nat
}.

Definition M (A : Type) : Type := TxState -> result A * TxState.

#[export] Instance M_ret : MRet M := fun A a s => (Ok a, s).

#[export] Instance M_bind : MBind M := fun A B f m s =>
  match m s with
  | (Ok a, s') => f a s'
  | (Err e, s') => (Err e, s')
  end.

Definition throw {A} (e : error) : M A := fun s => (Err e, s).

(** Code that raises but neither reads nor writes the state is a [result];
    [lift] runs it inside a contract method. *)
#[export] Instance result_ret : MRet result := fun A a => Ok a.

#[export] Instance result_bind : MBind result := fun A B f r =>
  match r with
  | Ok a => f a
  | Err e => Err e
  end.

Definition lift {A} (r : result A) : M A := fun s => (r, s).
Coercion lift : result >-> M.

(** An invocation commits its writes when it returns and discards them when
    it raises. *)
Definition invoke {A} (op : M A) (w : gmap Key json) : result A * gmap Key json :=
  match op {| world := w; openIterators := 0 |} with
  | (Ok a, s) => (Ok a, world s)
  | (Err e, _) => (Err e, w)
  end.

(** ** The ledger stub *)

Definition createCompositeKey (objectType : string) (attrs : list string) : Key :=
  (objectType, attrs).

Definition getState (key : Key) : M (option json) :=
  fun s => (Ok (world s !! key), s).

Definition putState (key : Key) (doc : json) : M unit :=
  fun s => (Ok tt, {| world := <[key := doc]> (world s); openIterators := openIterators s |}).

Definition deleteState (key : Key) : M unit :=
  fun s => (Ok tt, {| world := delete key (world s); openIterators := openIterators s |}).

Definition matchesPartialKey (objectType : string) (attrs : list string) (k : Key) : Prop :=
  k.1 = objectType /\ attrs `prefix_of` k.2.

#[export] Instance matchesPartialKey_dec objectType attrs k :
  Decision (matchesPartialKey objectType attrs k).
Proof. unfold matchesPartialKey. apply _. Defined.

Definition rangeOf (objectType : string) (attrs : list string) (w : gmap Key json)
  : list (Key * json) :=
  map_to_list (filter (fun kv => matchesPartialKey objectType attrs kv.1) w).

(** Opens an iterator over the entries under a partial composite key. *)
Definition getStateByPartialCompositeKey (objectType : string) (attrs : list string)
  : M (list (Key * json)) :=
  fun s => (Ok (rangeOf objectType attrs (world s)),
            {| world := world s; openIterators := S (openIterators s) |}).

(** [iterator.close()]. *)
Definition closeIterator : M unit :=
  fun s => (Ok tt, {| world := world s; openIterators := Nat.pred (openIterators s) |}).

(** ** Ledger keys as the stub stores them *)

(** U+0000, the separator of the stub's key encoding. *)
Definition nul : ascii := Ascii.zero.

Fixpoint nulFree (s : string) : bool :=
  match s with
  | EmptyString => true
  | String c s' => negb (Ascii.eqb c nul) && nulFree s'
  end.

(** An identifier the stub accepts as a part of a composite key and that is
    read back from the key as it was: not empty and free of U+0000. *)
Definition plain (s : string) : bool := negb (String.eqb s "") && nulFree s.

Definition plainKey (k : Key) : bool := plain k.1 && forallb plain k.2.

Fixpoint encodeAttrs (attrs : list string) : string :=
  match attrs with
  | [] => EmptyString
  | a :: rest => a ++ String nul (encodeAttrs rest)
  end.

(** The ledger key of the stub: U+0000, the object type, U+0000, and each
    attribute followed by U+0000. *)
Definition encodeKey (k : Key) : string :=
  String nul (k.1 ++ String nul (encodeAttrs k.2)).

(** The keys a scan under a partial composite key returns: the stub serves
    the range of the stored keys whose string starts with the string of the
    partial key. *)
Definition inScanOf (objectType : string) (attrs : list string) (k : Key) : bool :=
  Str.startsWith (encodeKey k) (encodeKey (createCompositeKey objectType attrs)).

(** ** ABAC utility class *)

Definition getAttributeValue (ctx : Context) (attr : string) : option string :=
  attributes ctx !! attr.

Definition includesStr (l : list string) (x : string) : bool :=
  existsb (String.eqb x) l.

Definition requireRole (ctx : Context) (expectedRoles : list string) : result string :=
  match getAttributeValue ctx "role" with
  | Some role =>
      if negb (String.eqb role "") && includesStr expectedRoles role then Ok role
      else Err (AccessDenied (RoleRequired expectedRoles (Some role)))
  | None => Err (AccessDenied (RoleRequired expectedRoles None))
  end.

Definition getAttr (ctx : Context) (attr : string) (defaultValue : option string)
  : result string :=
  match getAttributeValue ctx attr, defaultValue with
  | None, None => Err (MissingAttribute attr)
  | Some val, _ => Ok val
  | None, Some d => Ok d
  end.

(** A string as a JavaScript value. *)
Definition str (s : string) : jsval := Some (JStr s).

Definition assertEquals (actual : jsval) (expected : string) (message : denial)
  : result unit :=
  if strictEqStr actual expected then Ok tt else Err (AccessDenied message).

(** ** JavaScript steps that may raise *)

(** [JSON.parse] of a text argument. *)
Definition JSON_parse (text : option json) : result json :=
  match text with
  | Some doc => Ok doc
  | None => Err SyntaxError
  end.

(** [obj.name], which raises on [null]. *)
Definition propOf (name : string) (j : json) : result jsval :=
  match j with
  | JNull => Err TypeError
  | _ => Ok (prop name j)
  end.

(** [obj.name = v] in strict mode, as [JSON.stringify] will see the object:
    a property set to [undefined] is not serialised, a named property of an
    array is not serialised either, and assigning to a property of [null] or
    of a primitive raises. *)
Definition setProp (name : string) (v : jsval) (j : json) : result json :=
  match j with
  | JObj fields =>
      Ok (JObj (match v with
                | Some x => assocSet name x fields
                | None => assocDel name fields
                end))
  | JArr items => Ok (JArr items)
  | _ => Err TypeError
  end.

(** The own enumerable properties copied by [{...obj}]. *)
Definition spread (j : json) : list (string * json) :=
  match j with
  | JObj fields => fields
  | JArr items => imap (fun i x => (pretty i, x)) items
  | JStr s => imap (fun i c => (pretty i, JStr (String c EmptyString))) (list_ascii_of_string s)
  | _ => []
  end.

(** [{ success: msg }]. *)
Definition success (msg : string) : json := JObj [("success", JStr msg)].

(** The low 32 bits of a 64-bit [Long], as a signed integer. *)
Definition low32 (n : Z) : Z := (n + 2 ^ 31) mod 2 ^ 32 - 2 ^ 31.

(** ** BaseContract *)

Definition _readState (ctx : Context) (key : Key) : M json :=
  data ← getState key;
  match data with
  | Some doc => mret doc
  | None => throw (StateNotFound key)
  end.

Definition _writeState (ctx : Context) (key : Key) (jsonData : json) : M unit :=
  putState key jsonData.

Definition auditData (ctx : Context) (seconds : Z) (action : string) (details : json) : json :=
  JObj [("timestamp", JNum (low32 seconds));
        ("user", JStr (callerID ctx));
        ("channel", JStr (channelID ctx));
        ("action", JStr action);
        ("details", details)].

Definition _logAudit (ctx : Context) (action : string) (details : json) : M unit :=
  if String.eqb (channelID ctx) "audit-channel" then
    match txSeconds ctx with
    | None => throw NoTimestamp
    | Some seconds =>
        let auditKey := createCompositeKey "audit" [txID ctx] in
        putState auditKey (auditData ctx seconds action details)
    end
  else mret tt.

(** [policy.permissions.includes(permission)]. *)
Definition permissionsInclude (policy : json) (permission : string) : result bool :=
  permissions ← propOf "permissions" policy;
  match permissions with
  | Some (JArr items) => Ok (existsb (fun x => strictEqStr (Some x) permission) items)
  | Some (JStr s) => Ok (Str.includes s permission)
  | _ => Err TypeError
  end.

(** [!policy.expiry || policy.expiry > Date.now()].  The comparison of a
    value that is not a number goes through JavaScript's number conversion,
    which is not modelled: [grantAccess] stores a number or [null]. *)
Definition expiryLive (policy : json) (now : Z) : result bool :=
  let expiry := prop "expiry" policy in
  if negb (truthy expiry) then Ok true
  else match expiry with
       | Some (JNum n) => Ok (now <? n)
       | _ => Err NotModelled
       end.

(** The [while (true)] loop of [_checkAccessPolicy] over the entries the
    iterator still holds.  [None] is [hasAccess = false]; [Some record] is
    [hasAccess = true] with the record that was read. *)
Fixpoint _checkAccessPolicy_loop (ctx : Context) (patientId dataType permission : string)
    (callerHospitalID : string) (iterator : list (Key * json)) : M (option json) :=
  match iterator with
  | (_, policy) :: rest =>
      (* res.value is set, res.done is false *)
      included ← permissionsInclude policy permission;
      live ← (if included then expiryLive policy (clock ctx) else Ok false);
      if included && live then
        let recordKey := createCompositeKey dataType [patientId] in
        record ← _readState ctx recordKey;
        recordHospital ← propOf "hospitalID" record;
        assertEquals recordHospital callerHospitalID RecordOtherHospital;;
        clearance ← getAttr ctx "clearance" (Some "low");
        if strictEqStr (prop "sensitivity" record) "high" && negb (String.eqb clearance "high")
        then throw (AccessDenied ClearanceRequired)
        else mret (Some record)   (* break *)
      else _checkAccessPolicy_loop ctx patientId dataType permission callerHospitalID rest
  | [] =>
      (* res.value is unset, res.done is true *)
      closeIterator;;
      mret None
  end.

Definition _checkAccessPolicy (ctx : Context) (patientId dataType permission : string) : M json :=
  callerRole ← getAttr ctx "role" None;
  let callerId := callerID ctx in
  callerHospitalID ← getAttr ctx "hospitalID" None;
  iterator ← getStateByPartialCompositeKey "policy" [patientId; callerRole; dataType];
  found ← _checkAccessPolicy_loop ctx patientId dataType permission callerHospitalID iterator;
  match found with
  | None => throw (AccessDenied (NoPolicyAccess permission callerRole callerId dataType patientId))
  | Some record => mret record
  end.

(** ** AdminContract *)

Module AdminContract.

Definition createPatient (ctx : Context) (patientId hospitalID : string)
    (patientDataJson : option json) : M json :=
  requireRole ctx ["admin"];;
  adminHospitalID ← getAttr ctx "hospitalID" None;
  assertEquals (str adminHospitalID) hospitalID AdminOtherHospital;;
  let ehrKey := createCompositeKey "ehr" [patientId] in
  exists_ ← getState ehrKey;
  match exists_ with
  | Some _ => throw (AlreadyExists "Patient" [patientId])
  | None =>
      patientData ← JSON_parse patientDataJson;
      patientData ← setProp "hospitalID" (str hospitalID) patientData;
      patientData ← setProp "sensitivity"
                      (jsOr (prop "sensitivity" patientData) (str "low")) patientData;
      _writeState ctx ehrKey patientData;;
      _logAudit ctx "createPatient"
        (JObj [("patientId", JStr patientId); ("hospitalID", JStr hospitalID)]);;
      mret (success ("Patient " ++ patientId ++ " created"))
  end.

Definition deletePatient (ctx : Context) (patientId : string) : M json :=
  requireRole ctx ["admin"];;
  adminHospitalID ← getAttr ctx "hospitalID" None;
  let ehrKey := createCompositeKey "ehr" [patientId] in
  record ← _readState ctx ehrKey;
  recordHospital ← propOf "hospitalID" record;
  assertEquals recordHospital adminHospitalID PatientOtherHospital;;
  deleteState ehrKey;;
  _logAudit ctx "deletePatient" (JObj [("patientId", JStr patientId)]);;
  mret (success ("Patient " ++ patientId ++ " deleted")).

Fixpoint getAllPatients_loop (adminHospitalID : string) (iterator : list (Key * json))
    : M (list json) :=
  match iterator with
  | (_, record) :: rest =>
      recordHospital ← propOf "hospitalID" record;
      results ← getAllPatients_loop adminHospitalID rest;
      mret (if strictEqStr recordHospital adminHospitalID then record :: results else results)
  | [] =>
      closeIterator;;
      mret []
  end.

Definition getAllPatients (ctx : Context) : M json :=
  requireRole ctx ["admin"];;
  adminHospitalID ← getAttr ctx "hospitalID" None;
  iterator ← getStateByPartialCompositeKey "ehr" [];
  results ← getAllPatients_loop adminHospitalID iterator;
  _logAudit ctx "getAllPatients" (JObj [("count", JNum (Z.of_nat (length results)))]);;
  mret (JArr results).

End AdminContract.

(** ** PatientContract *)

Module PatientContract.

Definition readMyRecord (ctx : Context) (patientId dataType : string) : M json :=
  requireRole ctx ["patient"];;
  let callerId := callerID ctx in
  if negb (Str.includes callerId patientId)
  then throw (AccessDenied (NotOwnRecord "read"))
  else
    let recordKey := createCompositeKey dataType [patientId] in
    recordJson ← _readState ctx recordKey;
    _logAudit ctx "readMyRecord"
      (JObj [("patientId", JStr patientId); ("dataType", JStr dataType)]);;
    mret recordJson.

Definition updateMyRecord (ctx : Context) (patientId dataType : string)
    (updatedDataJson : option json) : M json :=
  requireRole ctx ["patient"];;
  let callerId := callerID ctx in
  if negb (Str.includes callerId patientId)
  then throw (AccessDenied (NotOwnRecord "update"))
  else
    let recordKey := createCompositeKey dataType [patientId] in
    existingRecord ← _readState ctx recordKey;
    updatedData ← JSON_parse updatedDataJson;
    existingHospital ← propOf "hospitalID" existingRecord;
    updatedData ← setProp "hospitalID" existingHospital updatedData;
    updatedData ← setProp "sensitivity"
                    (jsOr (prop "sensitivity" updatedData) (prop "sensitivity" existingRecord))
                    updatedData;
    _writeState ctx recordKey updatedData;;
    _logAudit ctx "updateMyRecord"
      (JObj [("patientId", JStr patientId); ("dataType", JStr dataType)]);;
    mret (success (dataType ++ " for patient " ++ patientId ++ " updated")).

Definition validPermissions : list string := ["read"; "write"].

(** [expiry ? parseInt(expiry) : null], as serialised ([NaN] becomes [null]). *)
Definition expiryField (expiry : option string) : json :=
  match expiry with
  | Some e =>
      if String.eqb e "" then JNull
      else match Str.parseInt e with
           | Some n => JNum n
           | None => JNull
           end
  | None => JNull
  end.

Definition grantAccess (ctx : Context) (patientId role dataType permissions : string)
    (expiry : option string) : M json :=
  requireRole ctx ["patient"];;
  let callerId := callerID ctx in
  if negb (Str.includes callerId patientId)
  then throw (AccessDenied (NotOwnRecord "grant access for"))
  else
    let permissionArray := map Str.trim (Str.split "," permissions) in
    if negb (forallb (includesStr validPermissions) permissionArray)
    then throw InvalidPermissions
    else
      let policy := JObj [("patientId", JStr patientId);
                          ("role", JStr role);
                          ("dataType", JStr dataType);
                          ("permissions", JArr (map JStr permissionArray));
                          ("expiry", expiryField expiry)] in
      let policyKey := createCompositeKey "policy" [patientId; role; dataType] in
      _writeState ctx policyKey policy;;
      _logAudit ctx "grantAccess"
        (JObj ([("patientId", JStr patientId); ("role", JStr role);
                ("dataType", JStr dataType); ("permissions", JStr permissions)]
               ++ match expiry with Some e => [("expiry", JStr e)] | None => [] end));;
      mret (success ("Access policy created for " ++ role ++ " on " ++ dataType)).

Definition revokeAccess (ctx : Context) (patientId role dataType : string) : M json :=
  requireRole ctx ["patient"];;
  let callerId := callerID ctx in
  if negb (Str.includes callerId patientId)
  then throw (AccessDenied (NotOwnRecord "revoke access for"))
  else
    let policyKey := createCompositeKey "policy" [patientId; role; dataType] in
    policyJson ← _readState ctx policyKey;
    deleteState policyKey;;
    _logAudit ctx "revokeAccess"
      (JObj [("patientId", JStr patientId); ("role", JStr role); ("dataType", JStr dataType)]);;
    mret (success ("Access policy for " ++ role ++ " on " ++ dataType ++ " revoked")).

End PatientContract.

(** ** DoctorContract *)

Module DoctorContract.

Definition readPatientRecord (ctx : Context) (patientId dataType : string) : M json :=
  requireRole ctx ["doctor"];;
  record ← _checkAccessPolicy ctx patientId dataType "read";
  _logAudit ctx "readPatientRecord"
    (JObj [("patientId", JStr patientId); ("dataType", JStr dataType);
           ("doctorId", JStr (callerID ctx))]);;
  mret record.

Definition updatePatientRecord (ctx : Context) (patientId dataType : string)
    (updatedDataJson : option json) : M json :=
  requireRole ctx ["doctor"];;
  let recordKey := createCompositeKey dataType [patientId] in
  existingRecord ← _checkAccessPolicy ctx patientId dataType "write";
  updatedData ← JSON_parse updatedDataJson;
  updatedMedical ← propOf "medical" updatedData;
  mergedRecord ← setProp "medical" (jsOr updatedMedical (prop "medical" existingRecord))
                   (JObj (spread existingRecord));
  mergedRecord ← setProp "hospitalID" (prop "hospitalID" existingRecord) mergedRecord;
  mergedRecord ← setProp "sensitivity"
                   (jsOr (prop "sensitivity" mergedRecord) (prop "sensitivity" existingRecord))
                   mergedRecord;
  _writeState ctx recordKey mergedRecord;;
  _logAudit ctx "updatePatientRecord"
    (JObj [("patientId", JStr patientId); ("dataType", JStr dataType);
           ("doctorId", JStr (callerID ctx))]);;
  mret (success (dataType ++ " for patient " ++ patientId ++ " updated")).

Definition createLabReport (ctx : Context) (patientId labId : string)
    (labDataJson : option json) : M json :=
  requireRole ctx ["doctor"];;
  _checkAccessPolicy ctx patientId "ehr" "write";;
  hospitalID ← getAttr ctx "hospitalID" None;
  let labKey := createCompositeKey "lab" [patientId; labId] in
  exists_ ← getState labKey;
  match exists_ with
  | Some _ => throw (AlreadyExists "Lab report" [labId; patientId])
  | None =>
      labData ← JSON_parse labDataJson;
      labData ← setProp "hospitalID" (str hospitalID) labData;
      labData ← setProp "sensitivity"
                  (jsOr (prop "sensitivity" labData) (str "medium")) labData;
      _writeState ctx labKey labData;;
      _logAudit ctx "createLabReport"
        (JObj [("patientId", JStr patientId); ("labId", JStr labId);
               ("doctorId", JStr (callerID ctx))]);;
      mret (success ("Lab report " ++ labId ++ " created for patient " ++ patientId))
  end.

Definition createPrescription (ctx : Context) (patientId prescriptionId : string)
    (prescriptionDataJson : option json) : M json :=
  requireRole ctx ["doctor"];;
  _checkAccessPolicy ctx patientId "ehr" "write";;
  hospitalID ← getAttr ctx "hospitalID" None;
  let prescriptionKey := createCompositeKey "prescription" [patientId; prescriptionId] in
  exists_ ← getState prescriptionKey;
  match exists_ with
  | Some _ => throw (AlreadyExists "Prescription" [prescriptionId; patientId])
  | None =>
      prescriptionData ← JSON_parse prescriptionDataJson;
      prescriptionData ← setProp "hospitalID" (str hospitalID) prescriptionData;
      prescriptionData ← setProp "sensitivity"
                           (jsOr (prop "sensitivity" prescriptionData) (str "low"))
                           prescriptionData;
      _writeState ctx prescriptionKey prescriptionData;;
      _logAudit ctx "createPrescription"
        (JObj [("patientId", JStr patientId); ("prescriptionId", JStr prescriptionId);
               ("doctorId", JStr (callerID ctx))]);;
      mret (success ("Prescription " ++ prescriptionId ++ " created for patient " ++ patientId))
  end.

End DoctorContract.

(** ** NurseContract *)

Module NurseContract.

Definition readPatientRecord (ctx : Context) (patientId dataType : string) : M json :=
  requireRole ctx ["nurse"];;
  let recordKey := createCompositeKey dataType [patientId] in
  record ← _readState ctx recordKey;
  callerHospitalID ← getAttr ctx "hospitalID" None;
  recordHospital ← propOf "hospitalID" record;
  assertEquals recordHospital callerHospitalID RecordOtherHospital;;
  clearance ← getAttr ctx "clearance" (Some "low");
  if strictEqStr (prop "sensitivity" record) "high" && negb (String.eqb clearance "high")
  then throw (AccessDenied ClearanceRequired)
  else
    _logAudit ctx "readPatientRecord"
      (JObj [("patientId", JStr patientId); ("dataType", JStr dataType);
             ("nurseId", JStr (callerID ctx))]);;
    mret record.

End NurseContract.

(** ** InsuranceContract *)

Module InsuranceContract.

Definition readInsuranceData (ctx : Context) (patientId : string) : M json :=
  requireRole ctx ["insurance"];;
  if negb (String.eqb (channelID ctx) "insurance-channel")
  then throw (AccessDenied InsuranceChannelOnly)
  else
    record ← _checkAccessPolicy ctx patientId "insurance" "read";
    _logAudit ctx "readInsuranceData"
      (JObj [("patientId", JStr patientId); ("insuranceId", JStr (callerID ctx))]);;
    mret record.

Definition updateInsuranceData (ctx : Context) (patientId : string)
    (insuranceDataJson : option json) : M json :=
  requireRole ctx ["insurance"];;
  if negb (String.eqb (channelID ctx) "insurance-channel")
  then throw (AccessDenied InsuranceChannelOnly)
  else
    let recordKey := createCompositeKey "insurance" [patientId] in
    existingRecord ← _checkAccessPolicy ctx patientId "insurance" "write";
    updatedData ← JSON_parse insuranceDataJson;
    updatedPolicy ← propOf "policy" updatedData;
    mergedRecord ← setProp "policy" (jsOr updatedPolicy (prop "policy" existingRecord))
                     (JObj (spread existingRecord));
    mergedRecord ← setProp "hospitalID" (prop "hospitalID" existingRecord) mergedRecord;
    mergedRecord ← setProp "sensitivity"
                     (jsOr (prop "sensitivity" mergedRecord) (prop "sensitivity" existingRecord))
                     mergedRecord;
    _writeState ctx recordKey mergedRecord;;
    _logAudit ctx "updateInsuranceData"
      (JObj [("patientId", JStr patientId); ("insuranceId", JStr (callerID ctx))]);;
    mret (success ("Insurance data for patient " ++ patientId ++ " updated")).

End InsuranceContract.

(** ** AuditContract *)

Module AuditContract.

(** [parseInt(startTime) || 0]. *)
Definition startOf (startTime : string) : Z :=
  match Str.parseInt startTime with
  | Some n => n
  | None => 0
  end.

(** [parseInt(endTime) || Date.now()]. *)
Definition endOf (ctx : Context) (endTime : string) : Z :=
  match Str.parseInt endTime with
  | Some n => if n =? 0 then clock ctx else n
  | None => clock ctx
  end.

(** [log.timestamp >= start && log.timestamp <= end]; comparing [undefined]
    is false, comparing a value that is not a number is not modelled. *)
Definition inRange (log : json) (start end_ : Z) : result bool :=
  timestamp ← propOf "timestamp" log;
  match timestamp with
  | Some (JNum t) => Ok ((start <=? t) && (t <=? end_))
  | None => Ok false
  | Some _ => Err NotModelled
  end.

(** [log.details.patientId && ctx.clientIdentity.getID().includes(log.details.patientId)];
    a search value that is not a string goes through string conversion, which
    is not modelled. *)
Definition ownEntry (ctx : Context) (log : json) : result bool :=
  match prop "details" log with
  | None | Some JNull => Err TypeError
  | Some details =>
      let patientId := prop "patientId" details in
      if negb (truthy patientId) then Ok false
      else match patientId with
           | Some (JStr p) => Ok (Str.includes (callerID ctx) p)
           | _ => Err NotModelled
           end
  end.

(** [role === 'admin' || (...)] with the caller's role read again. *)
Definition visibleTo (ctx : Context) (log : json) : result bool :=
  role ← getAttr ctx "role" None;
  if String.eqb role "admin" then Ok true else ownEntry ctx log.

(** The two nested tests that guard [results.push(log)]. *)
Definition selected (ctx : Context) (start end_ : Z) (log : json) : result bool :=
  inside ← inRange log start end_;
  if (inside : bool) then visibleTo ctx log else Ok false.

Fixpoint getAuditLogs_loop (ctx : Context) (start end_ : Z) (iterator : list (Key * json))
    : M (list json) :=
  match iterator with
  | (_, log) :: rest =>
      shown ← selected ctx start end_ log;
      results ← getAuditLogs_loop ctx start end_ rest;
      mret (if (shown : bool) then log :: results else results)
  | [] =>
      closeIterator;;
      mret []
  end.

Definition getAuditLogs (ctx : Context) (startTime endTime : string) : M json :=
  requireRole ctx ["admin"; "patient"];;
  if negb (String.eqb (channelID ctx) "audit-channel")
  then throw (AccessDenied AuditChannelOnly)
  else
    iterator ← getStateByPartialCompositeKey "audit" [];
    let start := startOf startTime in
    let end_ := endOf ctx endTime in
    results ← getAuditLogs_loop ctx start end_ iterator;
    mret (JArr results).

End AuditContract.

(** ** Outcomes *)

(** The invocation raised an [Access denied: ...] error. *)
Definition denied {A} (r : result A * TxState) : Prop :=
  exists why s, r = (Err (AccessDenied why), s).

(** The invocation raised (whatever the error). *)
Definition failed {A} (r : result A * TxState) : Prop :=
  exists e s, r = (Err e, s).

(** The invocation was refused by the ownership test of the patient contract. *)
Definition refusedAsNotOwner {A} (verb : string) (r : result A * TxState) : Prop :=
  exists s, r = (Err (AccessDenied (NotOwnRecord verb)), s).

(** ** A sample ledger and its callers *)

Definition caller (attrs : list (string * string)) (id channel tx : string) : Context :=
  {| attributes := list_to_map attrs;
     callerID := id;
     channelID := channel;
     txID := tx;
     txSeconds := Some 1700000000;
     clock := 1700000000000 |}.

Definition adminH1 : Context :=
  caller [("role", "admin"); ("hospitalID", "H1")] "x509::/CN=admin1" "ehr-channel" "tx-a".

Definition patientP1 : Context :=
  caller [("role", "patient"); ("hospitalID", "H2")] "x509::/CN=p1" "ehr-channel" "tx-b".

Definition patientP10 : Context :=
  caller [("role", "patient")] "x509::/CN=p10" "ehr-channel" "tx-c".

Definition doctorH1 : Context :=
  caller [("role", "doctor"); ("hospitalID", "H1")] "x509::/CN=dr1" "ehr-channel" "tx-d".

Definition doctorH1cleared : Context :=
  caller [("role", "doctor"); ("hospitalID", "H1"); ("clearance", "high")]
    "x509::/CN=dr2" "ehr-channel" "tx-e".

Definition auditorNoClock : Context :=
  {| attributes := list_to_map [("role", "admin"); ("hospitalID", "H1")];
     callerID := "x509::/CN=admin1";
     channelID := "audit-channel";
     txID := "tx-f";
     txSeconds := None;
     clock := 1700000000000 |}.

Definition adminOnAudit : Context :=
  caller [("role", "admin"); ("hospitalID", "H1")] "x509::/CN=admin1" "audit-channel" "tx-g".

(** Patient p1's record, of high sensitivity, and patient p10's. *)
Definition ehrP1 : json :=
  JObj [("name", JStr "Ann"); ("hospitalID", JStr "H1"); ("sensitivity", JStr "high")].

Definition ehrP10 : json :=
  JObj [("name", JStr "Bob"); ("hospitalID", JStr "H1"); ("sensitivity", JStr "low")].

Definition ward : gmap Key json :=
  <[("ehr", ["p10"]) := ehrP10]> {[ ("ehr", ["p1"]) := ehrP1 ]}.

Definition atStart (w : gmap Key json) : TxState :=
  {| world := w; openIterators := 0 |}.

(** The ward after patient p1 granted doctors read access to the ehr record,
    without expiry. *)
Definition policyDoctorsReadP1 : json :=
  JObj [("patientId", JStr "p1"); ("role", JStr "doctor"); ("dataType", JStr "ehr");
        ("permissions", JArr [JStr "read"]); ("expiry", JNull)].

Definition wardGranted : gmap Key json :=
  <[("policy", ["p1"; "doctor"; "ehr"]) := policyDoctorsReadP1]> ward.

Definition doctorH2cleared : Context :=
  caller [("role", "doctor"); ("hospitalID", "H2"); ("clearance", "high")]
    "x509::/CN=dr3" "ehr-channel" "tx-h".

(** The same grant with the expiry argument ["0"]: the policy document
    carries the expiry 0, the epoch. *)
Definition policyDoctorsReadP1Epoch : json :=
  JObj [("patientId", JStr "p1"); ("role", JStr "doctor"); ("dataType", JStr "ehr");
        ("permissions", JArr [JStr "read"]); ("expiry", JNum 0)].

Definition wardGrantedEpoch : gmap Key json :=
  <[("policy", ["p1"; "doctor"; "ehr"]) := policyDoctorsReadP1Epoch]> ward.

Definition adminH2 : Context :=
  caller [("role", "admin"); ("hospitalID", "H2")] "x509::/CN=admin2" "ehr-channel" "tx-i".

(** ** State changes named in the statements *)

(** The key under which [_logAudit] files the entry of this transaction. *)
Definition auditKey (ctx : Context) : Key := createCompositeKey "audit" [txID ctx].

(** The state after one [putState]. *)
Definition withEntry (key : Key) (doc : json) (st : TxState) : TxState :=
  {| world := <[key := doc]> (world st); openIterators := openIterators st |}.

(** ** Policy documents *)

(** The shape of the documents [grantAccess] writes: a permissions array and
    an expiry that is a number or [null]. *)
Definition isPolicyDoc (doc : json) : bool :=
  match prop "permissions" doc, prop "expiry" doc with
  | Some (JArr _), (None | Some JNull | Some (JNum _)) => true
  | _, _ => false
  end.

(** The expiry a policy document sets, if it sets one. *)
Definition policyExpiry (doc : json) : option Z :=
  match prop "expiry" doc with
  | Some (JNum n) => Some n
  | _ => None
  end.

(** [permission] is listed in the permissions array of the document. *)
Definition policyAllows (doc : json) (permission : string) : bool :=
  match prop "permissions" doc with
  | Some (JArr items) => existsb (fun x => strictEqStr (Some x) permission) items
  | _ => false
  end.

(** Every entry of the policy index (object type [policy], patient, role and
    data type) is a policy document. *)
Definition policiesWellFormed (w : gmap Key json) : Prop :=
  forall k doc, w !! k = Some doc -> k.1 = "policy" -> (3 <= length k.2)%nat ->
    isPolicyDoc doc = true.

(** The policy index holds no key longer than (patient, role, data type);
    [grantAccess] is the only writer of such keys and writes exactly three
    attributes. *)
Definition policyKeysExact (w : gmap Key json) : Prop :=
  forall k, is_Some (w !! k) -> k.1 = "policy" -> (length k.2 <= 3)%nat.

(** Every document the policy scan of this caller meets, for the patient and
    the data type, is a policy document.  The scan is read as the stub
    serves it, by the strings of the keys. *)
Definition scanWellFormed (ctx : Context) (patientId dataType : string) (w : gmap Key json)
    : Prop :=
  forall role, getAttributeValue ctx "role" = Some role ->
    forall k doc, w !! k = Some doc ->
      inScanOf "policy" [patientId; role; dataType] k = true ->
      isPolicyDoc doc = true.

(** ** What stops a delegated read *)

(** The clearance gate is closed for this caller on this record. *)
Definition gateClosed (ctx : Context) (record : json) : Prop :=
  prop "sensitivity" record = Some (JStr "high")
  /\ getAttributeValue ctx "clearance" <> Some "high".

(** The record is stored with a hospital that is not [hospitalID]. *)
Definition otherHospital (hospitalID : string) (record : json) : Prop :=
  exists stored, prop "hospitalID" record = Some (JStr stored) /\ stored <> hospitalID.

(** The errors that can be raised from inside the policy scan. *)
Definition raisedByScan (e : error) : bool :=
  match e with
  | TypeError | NotModelled | StateNotFound _
  | AccessDenied RecordOtherHospital | AccessDenied ClearanceRequired => true
  | _ => false
  end.

(** The policy document [grantAccess] stores for its arguments. *)
Definition grantedPolicy (patientId role dataType permissions : string)
    (expiry : option string) : json :=
  JObj [("patientId", JStr patientId);
        ("role", JStr role);
        ("dataType", JStr dataType);
        ("permissions", JArr (map JStr (map Str.trim (Str.split "," permissions))));
        ("expiry", PatientContract.expiryField expiry)].

(** A policy document that cannot grant [permission] at time [now]: it does
    not list the permission, or it sets an expiry other than 0 that is not
    after [now]. *)
Definition lapsed (now : Z) (permission : string) (doc : json) : Prop :=
  isPolicyDoc doc = true
  /\ (policyAllows doc permission = false
      \/ exists e, policyExpiry doc = Some e /\ e <> 0 /\ e <= now).

(** The state after an iterator was opened and closed again. *)
Definition closed (st : TxState) : TxState :=
  {| world := world st; openIterators := Nat.pred (S (openIterators st)) |}.

(** The state with one more iterator open. *)
Definition opened (st : TxState) : TxState :=
  {| world := world st; openIterators := S (openIterators st) |}.

(** ** Audit entries *)



(** The timestamp of the entry lies in [[start, end_]]. *)
Definition withinTime (start end_ : Z) (log : json) : bool :=
  match prop "timestamp" log with
  | Some (JNum t) => (start <=? t) && (t <=? end_)
  | _ => false
  end.

(** The entry names a patient id that the caller's identifier contains. *)
Definition concerns (ctx : Context) (log : json) : bool :=
  match prop "details" log with
  | Some details =>
      match prop "patientId" details with
      | Some (JStr p) => negb (String.eqb p "") && Str.includes (callerID ctx) p
      | _ => false
      end
  | None => false
  end.

(** The audit trail with one entry, filed at second 1700000000. *)
Definition trail : gmap Key json :=
  {[ createCompositeKey "audit" ["tx-0"] :=
       auditData adminOnAudit 1700000000 "createPatient"
         (JObj [("patientId", JStr "p1"); ("hospitalID", JStr "H1")]) ]}.

(** ** The contract as a whole *)

(** A call to one of the public methods. *)
Inductive call : Type :=
| CreatePatient (patientId hospitalID : string) (patientDataJson : option json)
| DeletePatient (patientId : string)
| GetAllPatients
| ReadMyRecord (patientId dataType : string)
| UpdateMyRecord (patientId dataType : string) (updatedDataJson : option json)
| GrantAccess (patientId role dataType permissions : string) (expiry : option string)
| RevokeAccess (patientId role dataType : string)
| DoctorReadPatientRecord (patientId dataType : string)
| UpdatePatientRecord (patientId dataType : string) (updatedDataJson : option json)
| CreateLabReport (patientId labId : string) (labDataJson : option json)
| CreatePrescription (patientId prescriptionId : string) (prescriptionDataJson : option json)
| NurseReadPatientRecord (patientId dataType : string)
| ReadInsuranceData (patientId : string)
| UpdateInsuranceData (patientId : string) (insuranceDataJson : option json)
| GetAuditLogs (startTime endTime : string).

Definition run (c : call) (ctx : Context) : M json :=
  match c with
  | CreatePatient p h d => AdminContract.createPatient ctx p h d
  | DeletePatient p => AdminContract.deletePatient ctx p
  | GetAllPatients => AdminContract.getAllPatients ctx
  | ReadMyRecord p t => PatientContract.readMyRecord ctx p t
  | UpdateMyRecord p t d => PatientContract.updateMyRecord ctx p t d
  | GrantAccess p r t ps e => PatientContract.grantAccess ctx p r t ps e
  | RevokeAccess p r t => PatientContract.revokeAccess ctx p r t
  | DoctorReadPatientRecord p t => DoctorContract.readPatientRecord ctx p t
  | UpdatePatientRecord p t d => DoctorContract.updatePatientRecord ctx p t d
  | CreateLabReport p l d => DoctorContract.createLabReport ctx p l d
  | CreatePrescription p i d => DoctorContract.createPrescription ctx p i d
  | NurseReadPatientRecord p t => NurseContract.readPatientRecord ctx p t
  | ReadInsuranceData p => InsuranceContract.readInsuranceData ctx p
  | UpdateInsuranceData p d => InsuranceContract.updateInsuranceData ctx p d
  | GetAuditLogs s e => AuditContract.getAuditLogs ctx s e
  end.

(** The ledgers the contract builds from the empty one, invocation by
    invocation. *)
Inductive reachable : gmap Key json -> Prop :=
| reachable_empty : reachable ∅
| reachable_invoke w ctx c : reachable w -> reachable (snd (invoke (run c ctx) w)).



(** The calls that end with [_logAudit]: all but the audit query. *)
Definition audited (c : call) : bool :=
  match c with
  | GetAuditLogs _ _ => false
  | _ => true
  end.

(** The object type under which a call writes its own document, when the
    call names it. *)
Definition writesUnder (c : call) : option string :=
  match c with
  | UpdateMyRecord _ dataType _ | UpdatePatientRecord _ dataType _ => Some dataType
  | _ => None
  end.

(** On the audit channel, a computation that returns has filed the entry of
    this transaction. *)
Definition filesEntry {A} (ctx : Context) (m : M A) : Prop :=
  forall st r st', m st = (Ok r, st') -> channelID ctx = "audit-channel" ->
    exists seconds action details,
      txSeconds ctx = Some seconds
      /\ world st' !! auditKey ctx = Some (auditData ctx seconds action details).

(** The computation leaves every entry filed under [audit] as it was. *)
Definition keepsTrail {A} (m : M A) : Prop :=
  forall st r st', m st = (r, st') ->
    forall k : Key, k.1 = "audit" -> world st' !! k = world st !! k.

(** One committed invocation after another, starting from a ledger. *)
Definition thenInvoke (w : gmap Key json) (c : call) (ctx : Context) : gmap Key json :=
  snd (invoke (run c ctx) w).

(** ** What a call may change *)

(** The key of the document a call creates, replaces or deletes, when the
    call has one. *)
Definition targetKey (c : call) : option Key :=
  match c with
  | CreatePatient p _ _ | DeletePatient p => Some (createCompositeKey "ehr" [p])
  | UpdateMyRecord p t _ | UpdatePatientRecord p t _ => Some (createCompositeKey t [p])
  | GrantAccess p r t _ _ | RevokeAccess p r t => Some (createCompositeKey "policy" [p; r; t])
  | CreateLabReport p l _ => Some (createCompositeKey "lab" [p; l])
  | CreatePrescription p i _ => Some (createCompositeKey "prescription" [p; i])
  | UpdateInsuranceData p _ => Some (createCompositeKey "insurance" [p])
  | GetAllPatients | ReadMyRecord _ _ | DoctorReadPatientRecord _ _
  | NurseReadPatientRecord _ _ | ReadInsuranceData _ | GetAuditLogs _ _ => None
  end.

(** The calls that write their document under a key that must be free. *)
Definition creates (c : call) : bool :=
  match c with
  | CreatePatient _ _ _ | GrantAccess _ _ _ _ _
  | CreateLabReport _ _ _ | CreatePrescription _ _ _ => true
  | _ => false
  end.

(** The roles a method names in its [requireRole] test. *)
Definition rolesOf (c : call) : list string :=
  match c with
  | CreatePatient _ _ _ | DeletePatient _ | GetAllPatients => ["admin"]
  | ReadMyRecord _ _ | UpdateMyRecord _ _ _
  | GrantAccess _ _ _ _ _ | RevokeAccess _ _ _ => ["patient"]
  | DoctorReadPatientRecord _ _ | UpdatePatientRecord _ _ _
  | CreateLabReport _ _ _ | CreatePrescription _ _ _ => ["doctor"]
  | NurseReadPatientRecord _ _ => ["nurse"]
  | ReadInsuranceData _ | UpdateInsuranceData _ _ => ["insurance"]
  | GetAuditLogs _ _ => ["admin"; "patient"]
  end.

(** The computation relates the ledger it leaves to the one it found. *)
Definition changes {A : Type} (R : relation (gmap Key json)) (m : M A) : Prop :=
  forall st r st', m st = (r, st') -> R (world st) (world st').

(** The two ledgers agree on every key outside [keys]. *)
Definition agreeOutside (keys : Key -> Prop) : relation (gmap Key json) :=
  fun w w' => forall k, ~ keys k -> w' !! k = w !! k.

(** An object or an array: what a property can be assigned on. *)
Definition isContainer (doc : json) : bool :=
  match doc with
  | JObj _ | JArr _ => true
  | _ => false
  end.

(** Every document of the second ledger is one of the first or a container. *)
Definition addsContainers : relation (gmap Key json) :=
  fun w w' => forall k doc, w' !! k = Some doc -> w !! k = Some doc \/ isContainer doc = true.

(** The keys the contract writes: a record or an audit entry under one
    attribute, a lab report or a prescription under two, a policy under
    three. *)
Definition keyShape (k : Key) : bool :=
  match k.2 with
  | [_] => String.eqb k.1 "ehr" || String.eqb k.1 "audit"
  | [_; _] => String.eqb k.1 "lab" || String.eqb k.1 "prescription"
  | [_; _; _] => String.eqb k.1 "policy"
  | _ => false
  end.

(** The state [_logAudit] leaves when it returns. *)
Definition logged (ctx : Context) (action : string) (details : json) (st : TxState) : TxState :=
  if String.eqb (channelID ctx) "audit-channel" then
    match txSeconds ctx with
    | Some seconds => withEntry (auditKey ctx) (auditData ctx seconds action details) st
    | None => st
    end
  else st.

(** [_logAudit] can return: off the audit channel, or with a timestamp. *)
Definition canLog (ctx : Context) : Prop :=
  channelID ctx = "audit-channel" -> is_Some (txSeconds ctx).

(** [permissions.split(',').map(p => p.trim())]. *)
Definition permissionArray (permissions : string) : list string :=
  map Str.trim (Str.split "," permissions).

(** The records a hospital's admin is shown: the documents under [ehr] whose
    hospitalID is the admin's. *)
Definition ofHospital (h : string) (w : gmap Key json) (record : json) : Prop :=
  exists k, k.1 = "ehr" /\ w !! k = Some record /\ prop "hospitalID" record = Some (JStr h).

(** The key of the record a call reads before it does anything else to the
    ledger, when it reads one. *)
Definition recordKey (c : call) : option Key :=
  match c with
  | DeletePatient p | CreateLabReport p _ _ | CreatePrescription p _ _ =>
      Some (createCompositeKey "ehr" [p])
  | ReadMyRecord p t | UpdateMyRecord p t _ | DoctorReadPatientRecord p t
  | UpdatePatientRecord p t _ | NurseReadPatientRecord p t => Some (createCompositeKey t [p])
  | ReadInsuranceData p | UpdateInsuranceData p _ => Some (createCompositeKey "insurance" [p])
  | CreatePatient _ _ _ | GetAllPatients | GrantAccess _ _ _ _ _ | RevokeAccess _ _ _
  | GetAuditLogs _ _ => None
  end.

(** ** More sample ledgers *)

(** The ward after patient p10 granted doctors read and write access to the
    ehr record, without expiry. *)
Definition policyDoctorsWriteP10 : json :=
  JObj [("patientId", JStr "p10"); ("role", JStr "doctor"); ("dataType", JStr "ehr");
        ("permissions", JArr [JStr "read"; JStr "write"]); ("expiry", JNull)].

Definition wardWritable : gmap Key json :=
  <[("policy", ["p10"; "doctor"; "ehr"]) := policyDoctorsWriteP10]> ward.

(** A lab report and a prescription for patient p10, as the doctor of
    hospital H1 sends them and as they are stored. *)
Definition labPayload : json := JObj [("test", JStr "CBC"); ("hospitalID", JStr "H9")].

Definition labStored : json :=
  JObj [("test", JStr "CBC"); ("hospitalID", JStr "H1"); ("sensitivity", JStr "medium")].

Definition prescriptionPayload : json := JObj [("drug", JStr "aspirin")].

Definition prescriptionStored : json :=
  JObj [("drug", JStr "aspirin"); ("hospitalID", JStr "H1"); ("sensitivity", JStr "low")].

(** The state a doctor's call leaves on the sample ledger: the document
    under its key, and the iterator of the policy scan still open. *)
Definition afterDoctorWrote (key : Key) (doc : json) : TxState :=
  {| world := <[key := doc]> wardWritable; openIterators := 1 |}.

Definition nurseH1 : Context :=
  caller [("role", "nurse"); ("hospitalID", "H1")] "x509::/CN=n1" "ehr-channel" "tx-j".

Definition insurerOnInsurance : Context :=
  caller [("role", "insurance"); ("hospitalID", "H1")] "x509::/CN=i1" "insurance-channel" "tx-k".

(** ** Documents of the policy index *)

(** The document is one [grantAccess] writes under the key: its patientId,
    role and dataType are the attributes of the key, its permissions are
    among ["read"] and ["write"], and its expiry is a number or [null]. *)
Definition writtenByGrant (k : Key) (doc : json) : Prop :=
  exists patientId role dataType items,
    k = createCompositeKey "policy" [patientId; role; dataType]
    /\ prop "patientId" doc = Some (JStr patientId)
    /\ prop "role" doc = Some (JStr role)
    /\ prop "dataType" doc = Some (JStr dataType)
    /\ prop "permissions" doc = Some (JArr (map JStr items))
    /\ Forall (fun p => p = "read" \/ p = "write") items
    /\ (prop "expiry" doc = Some JNull \/ exists n, prop "expiry" doc = Some (JNum n)).

(** Every document of the second ledger under a key of three attributes is
    one of the first or was written by [grantAccess]. *)
Definition addsGrants : relation (gmap Key json) :=
  fun w w' => forall k doc, w' !! k = Some doc -> length k.2 = 3%nat ->
                w !! k = Some doc \/ writtenByGrant k doc.

(** ** Plain text and plain calls *)

(** Text of the ASCII range, on which [trim] and [parseInt] see the white
    space of the model. *)
Fixpoint isAscii (s : string) : bool :=
  match s with
  | EmptyString => true
  | String c s' => (N_of_ascii c <? 128)%N && isAscii s'
  end.

(** The identifiers a call builds its keys from are plain. *)
Definition plainCall (c : call) : bool :=
  match c with
  | CreatePatient p _ _ | DeletePatient p | ReadInsuranceData p | UpdateInsuranceData p _ =>
      plain p
  | ReadMyRecord p t | UpdateMyRecord p t _ | DoctorReadPatientRecord p t
  | UpdatePatientRecord p t _ | NurseReadPatientRecord p t => plain p && plain t
  | GrantAccess p r t _ _ | RevokeAccess p r t => plain p && plain r && plain t
  | CreateLabReport p l _ | CreatePrescription p l _ => plain p && plain l
  | GetAllPatients | GetAuditLogs _ _ => true
  end.

(** The ledgers the contract builds from the empty one by invocations whose
    identifiers and transaction ids are plain. *)
Inductive builtPlainly : gmap Key json -> Prop :=
| builtPlainly_empty : builtPlainly ∅
| builtPlainly_invoke w ctx c :
    plainCall c = true -> plain (txID ctx) = true -> builtPlainly w ->
    builtPlainly (snd (invoke (run c ctx) w)).

(** The policy scan for the patient, role and data type, as the stub serves
    it, meets no key but the key of that triple. *)
Definition scansOnly (patientId role dataType : string) (w : gmap Key json) : Prop :=
  forall k, is_Some (w !! k) -> inScanOf "policy" [patientId; role; dataType] k = true ->
    k = createCompositeKey "policy" [patientId; role; dataType].

(** The same invocation on another channel. *)
Definition onChannel (channel : string) (ctx : Context) : Context :=
  {| attributes := attributes ctx;
     callerID := callerID ctx;
     channelID := channel;
     txID := txID ctx;
     txSeconds := txSeconds ctx;
     clock := clock ctx |}.

(** Run on the other channel, a computation that returned returns the same,
    and the ledger it leaves is the one left here without the audit entry of
    the transaction. *)
Definition stillSucceeds {A : Type} (ctx : Context) (m m' : M A) : Prop :=
  forall st r st', m st = (Ok r, st') ->
    exists st'', m' st = (Ok r, st'')
                 /\ exists entry, world st' = <[auditKey ctx := entry]> (world st'').

(** ** Sample ledgers with an insurance record and an audit entry *)

Definition insuranceP1 : json :=
  JObj [("policy", JStr "gold"); ("hospitalID", JStr "H1"); ("sensitivity", JStr "high")].

Definition policyInsurersReadP1 : json :=
  JObj [("patientId", JStr "p1"); ("role", JStr "insurance"); ("dataType", JStr "insurance");
        ("permissions", JArr [JStr "read"]); ("expiry", JNull)].

(** A ledger that holds an insurance record for patient p1 and a policy that
    lets insurers read it. *)
Definition insured : gmap Key json :=
  <[("policy", ["p1"; "insurance"; "insurance"]) := policyInsurersReadP1]>
    (<[("insurance", ["p1"]) := insuranceP1]> ward).

Definition insurerH2cleared : Context :=
  caller [("role", "insurance"); ("hospitalID", "H2"); ("clearance", "high")]
    "x509::/CN=i2" "insurance-channel" "tx-l".

(** The doctor of hospital H1 at a later time. *)
Definition doctorH1Late : Context :=
  {| attributes := list_to_map [("role", "doctor"); ("hospitalID", "H1")];
     callerID := "x509::/CN=dr1";
     channelID := "ehr-channel";
     txID := "tx-n";
     txSeconds := Some 1900000000;
     clock := 1900000000000 |}.

(** A patient whose identifier contains the transaction id of the entry in
    the sample trail, on the audit channel and on another one. *)
Definition patientTx0 : Context :=
  caller [("role", "patient")] "x509::/CN=tx-0" "audit-channel" "tx-m".

Definition patientTx0Elsewhere : Context :=
  caller [("role", "patient")] "x509::/CN=tx-0" "ehr-channel" "tx-m".

Definition nurseH2 : Context :=
  caller [("role", "nurse"); ("hospitalID", "H2"); ("clearance", "high")]
    "x509::/CN=n2" "ehr-channel" "tx-p".

Definition patientP1OnAudit : Context :=
  caller [("role", "patient"); ("hospitalID", "H2")] "x509::/CN=p1" "audit-channel" "tx-o".

(** * Verification *)

(** ** Proof automation for contract code *)

Ltac munfold :=
  unfold mbind, M_bind, result_bind, mret, M_ret, result_ret, throw, lift,
    getState, putState, deleteState,
    closeIterator, getStateByPartialCompositeKey, _readState, _writeState, _logAudit,
    requireRole, getAttr, assertEquals, JSON_parse, propOf, setProp,
    createCompositeKey in *.

(** Case analysis on a test whose scrutinee contains no other test. *)
Ltac inner_case :=
  match goal with
  | |- context [match ?x with _ => _ end] =>
      lazymatch x with
      | context [match _ with _ => _ end] => fail
      | _ => destruct x eqn:?
      end
  end.

Ltac answer :=
  repeat split; try intros _;
  solve [left; reflexivity | right; eexists; reflexivity | eexists; reflexivity
        | eexists _, _; reflexivity | reflexivity].

Ltac mrun := repeat (munfold; cbn).

Ltac mcases := repeat (munfold; cbn in *; simplify_eq; try inner_case).

(** ** Property lists *)

Lemma assoc_assocSet_eq k v fields : assoc k (assocSet k v fields) = Some v.
Proof.
  induction fields as [|[k' v'] rest IH]; cbn.
  - rewrite String.eqb_refl. reflexivity.
  - destruct (String.eqb_spec k k') as [->|Hne]; cbn.
    + rewrite String.eqb_refl. reflexivity.
    + destruct (String.eqb_spec k k'); [contradiction | exact IH].
Qed.

Lemma assoc_assocSet_ne k k' v fields :
  k <> k' -> assoc k' (assocSet k v fields) = assoc k' fields.
Proof.
  intros Hne. induction fields as [|[k0 v0] rest IH]; cbn.
  - destruct (String.eqb_spec k' k); [congruence | reflexivity].
  - destruct (String.eqb_spec k k0) as [->|Hne0]; cbn.
    + destruct (String.eqb_spec k' k0); [congruence | reflexivity].
    + destruct (String.eqb_spec k' k0); [reflexivity | exact IH].
Qed.

Lemma assoc_assocDel_eq k fields : assoc k (assocDel k fields) = None.
Proof.
  induction fields as [|[k' v'] rest IH]; cbn; [reflexivity|].
  destruct (String.eqb_spec k k') as [->|Hne]; cbn; [exact IH|].
  destruct (String.eqb_spec k k'); [contradiction | exact IH].
Qed.

Lemma assoc_assocDel_ne k k' fields :
  k <> k' -> assoc k' (assocDel k fields) = assoc k' fields.
Proof.
  intros Hne. induction fields as [|[k0 v0] rest IH]; cbn; [reflexivity|].
  destruct (String.eqb_spec k k0) as [->|Hne0]; cbn.
  - destruct (String.eqb_spec k' k0); [congruence | exact IH].
  - destruct (String.eqb_spec k' k0); [reflexivity | exact IH].
Qed.

(** ** Substring containment *)

Lemma append_cons (c : ascii) (a b : string) :
  (String c a ++ b)%string = String c (a ++ b)%string.
Proof. reflexivity. Qed.

Lemma startsWith_spec (s t : string) :
  Str.startsWith s t = true <-> exists b, s = (t ++ b)%string.
Proof.
  revert s. induction t as [|c t IH]; intros s; cbn.
  - split; [intros _; exists s; reflexivity | reflexivity].
  - destruct s as [|d s].
    + split; [discriminate | intros [b Hb]; discriminate].
    + destruct (Ascii.eqb_spec c d) as [->|Hne].
      * rewrite IH. split; intros [b Hb]; exists b; rewrite append_cons in *; congruence.
      * split; [discriminate | intros [b Hb]; rewrite append_cons in Hb; congruence].
Qed.

Lemma includes_spec (s t : string) :
  Str.includes s t = true <-> exists a b, s = (a ++ t ++ b)%string.
Proof.
  induction s as [|c s IH]; cbn.
  - rewrite orb_false_r, startsWith_spec. split.
    + intros [b Hb]. exists EmptyString, b. exact Hb.
    + intros [a [b Hab]]. destruct a; [exists b; exact Hab | discriminate].
  - rewrite orb_true_iff, startsWith_spec, IH. split.
    + intros [[b Hb] | [a [b Hab]]].
      * exists EmptyString, b. exact Hb.
      * exists (String c a), b. rewrite append_cons. congruence.
    + intros [a [b Hab]]. destruct a as [|d a].
      * left. exists b. exact Hab.
      * right. exists a, b. rewrite append_cons in Hab. congruence.
Qed.

(** ** Running a method step by step *)

Lemma run_bind {A B} (m : M A) (f : A -> M B) st :
  (m ≫= f) st = match m st with
                | (Ok a, s) => f a s
                | (Err e, s) => (Err e, s)
                end.
Proof. reflexivity. Qed.

Lemma run_lift {A} (r : result A) st : lift r st = (r, st).
Proof. reflexivity. Qed.

Lemma requireRole_Ok ctx expectedRoles role :
  requireRole ctx expectedRoles = Ok role ->
  getAttributeValue ctx "role" = Some role /\ includesStr expectedRoles role = true.
Proof.
  unfold requireRole. destruct (getAttributeValue ctx "role") as [r|]; [|discriminate].
  destruct (negb (r =? "")%string) eqn:E1; cbn; [|discriminate].
  destruct (includesStr expectedRoles r) eqn:E2; [|discriminate].
  intros; simplify_eq. auto.
Qed.

Lemma requireRole_Err ctx expectedRoles e :
  requireRole ctx expectedRoles = Err e -> exists why, e = AccessDenied why.
Proof.
  unfold requireRole. destruct (getAttributeValue ctx "role") as [r|].
  - destruct (negb (r =? "")%string && includesStr expectedRoles r); [discriminate|].
    intros; simplify_eq. eauto.
  - intros; simplify_eq. eauto.
Qed.

Lemma getAttr_Err ctx attr defaultValue e :
  getAttr ctx attr defaultValue = Err e -> e = MissingAttribute attr.
Proof.
  unfold getAttr. destruct (getAttributeValue ctx attr), defaultValue; intros; simplify_eq.
  reflexivity.
Qed.

Lemma getAttr_Ok ctx attr v :
  getAttr ctx attr None = Ok v -> getAttributeValue ctx attr = Some v.
Proof. unfold getAttr. destruct (getAttributeValue ctx attr); intros; simplify_eq. reflexivity. Qed.

Lemma requireRole_of_attribute ctx expectedRoles role :
  getAttributeValue ctx "role" = Some role -> role <> "" ->
  includesStr expectedRoles role = true ->
  requireRole ctx expectedRoles = Ok role.
Proof.
  intros Hr Hne Hin. unfold requireRole. rewrite Hr, Hin.
  destruct (String.eqb_spec role ""); [contradiction | reflexivity].
Qed.

(** ** Range scans *)

Lemma rangeOf_elem (objectType : string) (attrs : list string) (w : gmap Key json) k doc :
  (k, doc) ∈ rangeOf objectType attrs w
  <-> w !! k = Some doc /\ matchesPartialKey objectType attrs k.
Proof.
  unfold rangeOf. rewrite elem_of_map_to_list, map_lookup_filter_Some. reflexivity.
Qed.

Lemma rangeOf_single (objectType : string) (attrs : list string) (w : gmap Key json) k0 doc0 :
  w !! k0 = Some doc0 ->
  matchesPartialKey objectType attrs k0 ->
  (forall k, is_Some (w !! k) -> matchesPartialKey objectType attrs k -> k = k0) ->
  rangeOf objectType attrs w = [(k0, doc0)].
Proof.
  intros Hk0 Hm Honly. unfold rangeOf.
  rewrite <- map_to_list_singleton. f_equal. apply map_eq. intros k.
  destruct (decide (k = k0)) as [->|Hne].
  - rewrite lookup_singleton_eq. apply map_lookup_filter_Some. auto.
  - rewrite lookup_singleton_ne by congruence.
    apply map_lookup_filter_None. right. intros doc Hk HP. cbn in HP.
    apply Hne, Honly; eauto.
Qed.

Lemma rangeOf_none (objectType : string) (attrs : list string) (w : gmap Key json) :
  (forall k, is_Some (w !! k) -> ~ matchesPartialKey objectType attrs k) ->
  rangeOf objectType attrs w = [].
Proof.
  intros Hnone. unfold rangeOf. apply map_to_list_empty_iff, map_eq. intros k.
  rewrite lookup_empty. apply map_lookup_filter_None. right. intros doc Hk HP.
  exact (Hnone k (mk_is_Some _ _ Hk) HP).
Qed.


Lemma wellFormed_range (w : gmap Key json) patientId role dataType :
  policiesWellFormed w ->
  Forall (fun kv => isPolicyDoc kv.2 = true)
    (rangeOf "policy" [patientId; role; dataType] w).
Proof.
  intros Hwf. apply Forall_forall. intros [k doc] Hin.
  apply rangeOf_elem in Hin as [Hk [Htag Hpre]]. cbn.
  apply (Hwf k doc Hk Htag). apply prefix_length in Hpre. exact Hpre.
Qed.

(** ** The structured keys and the keys of the stub *)

Lemma append_nil (s : string) : ("" ++ s)%string = s.
Proof. reflexivity. Qed.

Lemma append_empty (s : string) : (s ++ "")%string = s.
Proof. induction s as [|c s IH]; [reflexivity|]. rewrite append_cons, IH. reflexivity. Qed.

Lemma append_assoc (a b c : string) : ((a ++ b) ++ c)%string = (a ++ b ++ c)%string.
Proof. induction a as [|x a IH]; [reflexivity|]. rewrite !append_cons, IH. reflexivity. Qed.

(** A string free of U+0000 ends where the first U+0000 is. *)
Lemma split_at_nul (a a' r r' : string) :
  nulFree a = true -> nulFree a' = true ->
  (a ++ String nul r)%string = (a' ++ String nul r')%string -> a = a' /\ r = r'.
Proof.
  revert a'. induction a as [|c a IH]; intros [|c' a'] Ha Ha'; cbn in Ha, Ha';
    rewrite ?append_cons, ?append_nil; intros Heq.
  - injection Heq as ->. auto.
  - injection Heq as Hc _. subst c'. rewrite Ascii.eqb_refl in Ha'. discriminate Ha'.
  - injection Heq as Hc _. subst c. rewrite Ascii.eqb_refl in Ha. discriminate Ha.
  - apply andb_true_iff in Ha as [_ Ha]. apply andb_true_iff in Ha' as [_ Ha'].
    injection Heq as -> Heq. destruct (IH a' Ha Ha' Heq) as [-> ->]. auto.
Qed.

Lemma encodeAttrs_app (l l' : list string) :
  encodeAttrs (l ++ l') = (encodeAttrs l ++ encodeAttrs l')%string.
Proof.
  induction l as [|a l IH]; [reflexivity|]. cbn [app encodeAttrs].
  rewrite IH, append_assoc, append_cons. reflexivity.
Qed.

Lemma plain_nulFree (s : string) : plain s = true -> nulFree s = true.
Proof. unfold plain. intros H. apply andb_true_iff in H as [_ H]. exact H. Qed.

(** The attributes of an encoding that extends another extend its attributes. *)
Lemma encodeAttrs_prefix (p l : list string) (rest : string) :
  forallb plain p = true -> forallb plain l = true ->
  encodeAttrs l = (encodeAttrs p ++ rest)%string -> p `prefix_of` l.
Proof.
  revert l. induction p as [|a p IH]; intros l Hp Hl Heq; [apply prefix_nil|].
  cbn in Hp. apply andb_true_iff in Hp as [Ha Hp].
  destruct l as [|b l]; cbn [encodeAttrs] in Heq.
  - destruct a; rewrite ?append_cons, ?append_nil in Heq; discriminate.
  - cbn in Hl. apply andb_true_iff in Hl as [Hb Hl].
    rewrite append_assoc, append_cons in Heq.
    destruct (split_at_nul _ _ _ _ (plain_nulFree _ Hb) (plain_nulFree _ Ha) Heq) as [-> Hrest].
    apply prefix_cons. exact (IH l Hp Hl Hrest).
Qed.

(** On plain keys the encoding of the stub is injective: the ledger keys are
    the structured keys. *)
Lemma encodeKey_inj (k k' : Key) :
  plainKey k = true -> plainKey k' = true -> encodeKey k = encodeKey k' -> k = k'.
Proof.
  destruct k as [t l], k' as [t' l']. unfold plainKey, encodeKey. cbn [fst snd].
  intros Hk Hk' Heq. apply andb_true_iff in Hk as [Ht Hl]. apply andb_true_iff in Hk' as [Ht' Hl'].
  injection Heq as Heq.
  destruct (split_at_nul _ _ _ _ (plain_nulFree _ Ht) (plain_nulFree _ Ht') Heq) as [-> Hattrs].
  f_equal.
  assert (H1 : l' `prefix_of` l)
    by (apply (encodeAttrs_prefix l' l ""); [assumption..|]; rewrite append_empty; exact Hattrs).
  assert (H2 : l `prefix_of` l')
    by (apply (encodeAttrs_prefix l l' ""); [assumption..|]; rewrite append_empty;
        symmetry; exact Hattrs).
  destruct H1 as [r1 H1], H2 as [r2 H2]. subst l.
  apply (f_equal length) in H2. rewrite !length_app in H2.
  destruct r1; [rewrite app_nil_r; reflexivity | cbn in H2; lia].
Qed.

(** On plain keys the range of a partial key, which the stub serves by
    string prefix, is the set of keys that extend its attributes. *)
Lemma encodeKey_prefix (k : Key) (objectType : string) (attrs : list string) :
  plainKey k = true -> plainKey (objectType, attrs) = true ->
  Str.startsWith (encodeKey k) (encodeKey (objectType, attrs)) = true
  <-> matchesPartialKey objectType attrs k.
Proof.
  destruct k as [t l]. unfold plainKey, encodeKey, matchesPartialKey. cbn [fst snd].
  intros Hk Hp. apply andb_true_iff in Hk as [Ht Hl]. apply andb_true_iff in Hp as [Ho Ha].
  rewrite startsWith_spec. split.
  - intros [rest Heq]. rewrite append_cons, append_assoc, append_cons in Heq.
    injection Heq as Heq.
    destruct (split_at_nul _ _ _ _ (plain_nulFree _ Ht) (plain_nulFree _ Ho) Heq)
      as [-> Hrest].
    split; [reflexivity|]. exact (encodeAttrs_prefix _ _ _ Ha Hl Hrest).
  - intros [-> [rest ->]]. exists (encodeAttrs rest).
    rewrite encodeAttrs_app, append_cons, append_assoc, append_cons. reflexivity.
Qed.

(** A key under a partial key by its attributes is in the scan of the stub,
    whatever its parts are. *)
Lemma matches_inScanOf (objectType : string) (attrs : list string) (k : Key) :
  matchesPartialKey objectType attrs k -> inScanOf objectType attrs k = true.
Proof.
  destruct k as [t l]. unfold matchesPartialKey, inScanOf, encodeKey, createCompositeKey.
  cbn [fst snd]. intros [-> [rest ->]]. apply startsWith_spec. exists (encodeAttrs rest).
  rewrite encodeAttrs_app, append_cons, append_assoc, append_cons. reflexivity.
Qed.

Lemma scanWellFormed_range (ctx : Context) (patientId role dataType : string) (w : gmap Key json) :
  scanWellFormed ctx patientId dataType w ->
  getAttributeValue ctx "role" = Some role ->
  Forall (fun kv : Key * json => isPolicyDoc kv.2 = true)
    (rangeOf "policy" [patientId; role; dataType] w).
Proof.
  intros Hscan Hr. apply Forall_forall. intros [k doc] Hin.
  apply rangeOf_elem in Hin as [Hk Hm]. cbn.
  exact (Hscan role Hr k doc Hk (matches_inScanOf _ _ _ Hm)).
Qed.

(** ** The policy scan *)

Lemma wellFormed_permissions doc permission :
  isPolicyDoc doc = true -> permissionsInclude doc permission = Ok (policyAllows doc permission).
Proof.
  unfold isPolicyDoc, permissionsInclude, policyAllows. munfold.
  destruct doc; cbn; try discriminate.
  destruct (assoc "permissions" fields) as [[]|]; try discriminate. reflexivity.
Qed.

Lemma wellFormed_expiry doc now :
  isPolicyDoc doc = true ->
  expiryLive doc now
  = Ok (match policyExpiry doc with
        | Some e => (e =? 0) || (now <? e)
        | None => true
        end).
Proof.
  unfold isPolicyDoc, expiryLive, policyExpiry.
  destruct (prop "permissions" doc) as [[]|]; try discriminate.
  destruct (prop "expiry" doc) as [[]|]; try discriminate; cbn; try reflexivity.
  destruct (n =? 0); reflexivity.
Qed.

Lemma permissionsInclude_Err policy permission e :
  permissionsInclude policy permission = Err e -> e = TypeError.
Proof.
  unfold permissionsInclude. mrun. destruct policy; cbn; try (intros; simplify_eq; reflexivity).
  destruct (assoc "permissions" fields) as [[]|]; intros; simplify_eq; reflexivity.
Qed.

Lemma expiryLive_Err policy now e :
  expiryLive policy now = Err e -> e = NotModelled.
Proof.
  unfold expiryLive. destruct (negb _); [discriminate|].
  destruct (prop "expiry" policy) as [[]|]; intros; simplify_eq; reflexivity.
Qed.

Section PolicyLoop.

Variables (ctx : Context) (patientId dataType permission callerHospitalID : string).

Lemma loop_state it st r st' :
  _checkAccessPolicy_loop ctx patientId dataType permission callerHospitalID it st = (r, st') ->
  world st' = world st
  /\ openIterators st' = match r with
                         | Ok None => Nat.pred (openIterators st)
                         | _ => openIterators st
                         end.
Proof.
  revert st r st'. induction it as [|[k policy] rest IH]; intros st r st'; cbn.
  - mcases; intros; simplify_eq; auto.
  - destruct (permissionsInclude policy permission) as [[|]|e];
      [destruct (expiryLive policy (clock ctx)) as [[|]|e]|..];
      mcases; intros; simplify_eq; eauto;
      match goal with
      | H : _checkAccessPolicy_loop _ _ _ _ _ _ _ = _ |- _ => exact (IH _ _ _ H)
      end.
Qed.

Lemma loop_refuses record it st r st' :
  gateClosed ctx record \/ otherHospital callerHospitalID record ->
  world st !! createCompositeKey dataType [patientId] = Some record ->
  _checkAccessPolicy_loop ctx patientId dataType permission callerHospitalID it st = (r, st') ->
  (r = Ok None \/ exists e, r = Err e)
  /\ (Forall (fun kv => isPolicyDoc kv.2 = true) it ->
      r = Ok None \/ exists why, r = Err (AccessDenied why)).
Proof.
  intros Hblock. revert st r st'.
  induction it as [|[k policy] rest IH]; intros st r st' Hrec; cbn.
  - mrun. intros; simplify_eq; answer.
  - destruct (permissionsInclude policy permission) as [[|]|e] eqn:Ep;
      [destruct (expiryLive policy (clock ctx)) as [[|]|e] eqn:Ee|..]; mrun.
    + unfold createCompositeKey in Hrec. rewrite Hrec.
      destruct Hblock as [[Hs Hc] | [stored [Hh Hne]]];
        (destruct record; try discriminate); cbn in *.
      * destruct (strictEqStr (assoc "hospitalID" fields) callerHospitalID); cbn;
          [|intros; simplify_eq; answer].
        rewrite Hs. cbn.
        destruct (getAttributeValue ctx "clearance") as [c|]; cbn;
          [|intros; simplify_eq; answer].
        destruct (String.eqb_spec c "high") as [->|_]; [congruence|].
        cbn. intros; simplify_eq; answer.
      * rewrite Hh. cbn.
        destruct (String.eqb_spec stored callerHospitalID); [contradiction|].
        cbn. intros; simplify_eq; answer.
    + intros Hrun. destruct (IH _ _ _ Hrec Hrun) as [H1 H2]. split; [exact H1|].
      intros Hwf. apply H2. by inversion Hwf.
    + intros; simplify_eq. split; [answer|]. intros Hwf. inversion Hwf as [|? ? Hdoc _]; subst.
      cbn in Hdoc. rewrite (wellFormed_expiry _ _ Hdoc) in Ee. discriminate.
    + intros Hrun. destruct (IH _ _ _ Hrec Hrun) as [H1 H2]. split; [exact H1|].
      intros Hwf. apply H2. by inversion Hwf.
    + intros; simplify_eq. split; [answer|]. intros Hwf. inversion Hwf as [|? ? Hdoc _]; subst.
      cbn in Hdoc. rewrite (wellFormed_permissions _ _ Hdoc) in Ep. discriminate.
Qed.

Lemma loop_errors it st e st' :
  _checkAccessPolicy_loop ctx patientId dataType permission callerHospitalID it st = (Err e, st') ->
  raisedByScan e = true.
Proof.
  revert st. induction it as [|[k policy] rest IH]; intros st; cbn.
  - mrun. discriminate.
  - destruct (permissionsInclude policy permission) as [[|]|e0] eqn:Ep;
      [destruct (expiryLive policy (clock ctx)) as [[|]|e0] eqn:Ee|..]; mrun;
      try apply IH.
    + destruct (world st !! (dataType, [patientId])) as [record|]; cbn;
        [|intros; simplify_eq; reflexivity].
      destruct record; cbn; try (intros; simplify_eq; reflexivity).
      all: destruct (strictEqStr _ callerHospitalID); cbn;
        try (intros; simplify_eq; reflexivity).
      all: destruct (getAttributeValue ctx "clearance"); cbn.
      all: try match goal with
               | |- context [if ?b then _ else _] => destruct b
               end; intros; simplify_eq; reflexivity.
    + apply expiryLive_Err in Ee. intros; simplify_eq. reflexivity.
    + apply permissionsInclude_Err in Ep. intros; simplify_eq. reflexivity.
Qed.

End PolicyLoop.

(** ** The policy index stays sound *)

Lemma policyKeysExact_insert (w : gmap Key json) (k : Key) (doc : json) :
  policyKeysExact w -> (k.1 = "policy" -> (length k.2 <= 3)%nat) ->
  policyKeysExact (<[k := doc]> w).
Proof.
  intros Hw Hk k' Hsome Htag. destruct (decide (k = k')) as [<-|Hne]; [auto|].
  rewrite lookup_insert_ne in Hsome by exact Hne. auto.
Qed.

Lemma policyKeysExact_delete (w : gmap Key json) (k : Key) :
  policyKeysExact w -> policyKeysExact (delete k w).
Proof.
  intros Hw k' Hsome Htag. destruct (decide (k = k')) as [<-|Hne].
  - rewrite lookup_delete_eq in Hsome. destruct Hsome; discriminate.
  - rewrite lookup_delete_ne in Hsome by exact Hne. auto.
Qed.


















Lemma grantedPolicy_isPolicyDoc patientId role dataType permissions expiry :
  isPolicyDoc (grantedPolicy patientId role dataType permissions expiry) = true.
Proof.
  unfold isPolicyDoc, grantedPolicy, PatientContract.expiryField. cbn.
  destruct expiry as [e|]; [|reflexivity].
  destruct (e =? "")%string; [reflexivity|].
  destruct (Str.parseInt e); reflexivity.
Qed.






(** ** The sample ledgers are ledgers the contract builds *)

(** The sample ward is a ledger the contract builds. *)
Lemma ward_reachable : reachable ward.
Proof.
  assert (Hw : ward
               = thenInvoke
                   (thenInvoke ∅ (CreatePatient "p1" "H1"
                                     (Some (JObj [("name", JStr "Ann");
                                                  ("hospitalID", JStr "H9");
                                                  ("sensitivity", JStr "high")]))) adminH1)
                   (CreatePatient "p10" "H1" (Some (JObj [("name", JStr "Bob")]))) adminH1)
    by (vm_compute; reflexivity).
  rewrite Hw. unfold thenInvoke. do 2 apply reachable_invoke. apply reachable_empty.
Qed.

Lemma wardGranted_reachable : reachable wardGranted.
Proof.
  assert (Hw : wardGranted
               = thenInvoke ward (GrantAccess "p1" "doctor" "ehr" "read" None) patientP1)
    by (vm_compute; reflexivity).
  rewrite Hw. apply reachable_invoke, ward_reachable.
Qed.

(** ** Ownership test of the patient contract *)

Section Ownership.

Import PatientContract.

Variable ctx : Context.
Variable patientId : string.
Hypothesis Hrole : getAttributeValue ctx "role" = Some "patient".

Lemma readMyRecord_owner dataType st :
  refusedAsNotOwner "read" (readMyRecord ctx patientId dataType st)
  <-> Str.includes (callerID ctx) patientId = false.
Proof.
  unfold refusedAsNotOwner, readMyRecord. munfold. rewrite Hrole.
  destruct (Str.includes (callerID ctx) patientId) eqn:E; cbn; split; try discriminate.
  - intros [s Hs]. revert Hs. mcases; discriminate.
  - reflexivity.
  - intros _. eauto.
Qed.

Lemma updateMyRecord_owner dataType payload st :
  refusedAsNotOwner "update" (updateMyRecord ctx patientId dataType payload st)
  <-> Str.includes (callerID ctx) patientId = false.
Proof.
  unfold refusedAsNotOwner, updateMyRecord. munfold. rewrite Hrole.
  destruct (Str.includes (callerID ctx) patientId) eqn:E; cbn; split; try discriminate.
  - intros [s Hs]. revert Hs. mcases; discriminate.
  - reflexivity.
  - intros _. eauto.
Qed.

Lemma grantAccess_owner role dataType permissions expiry st :
  refusedAsNotOwner "grant access for"
    (grantAccess ctx patientId role dataType permissions expiry st)
  <-> Str.includes (callerID ctx) patientId = false.
Proof.
  unfold refusedAsNotOwner, grantAccess. munfold. rewrite Hrole.
  destruct (Str.includes (callerID ctx) patientId) eqn:E; cbn; split; try discriminate.
  - intros [s Hs]. revert Hs. mcases; discriminate.
  - reflexivity.
  - intros _. eauto.
Qed.

Lemma revokeAccess_owner role dataType st :
  refusedAsNotOwner "revoke access for" (revokeAccess ctx patientId role dataType st)
  <-> Str.includes (callerID ctx) patientId = false.
Proof.
  unfold refusedAsNotOwner, revokeAccess. munfold. rewrite Hrole.
  destruct (Str.includes (callerID ctx) patientId) eqn:E; cbn; split; try discriminate.
  - intros [s Hs]. revert Hs. mcases; discriminate.
  - reflexivity.
  - intros _. eauto.
Qed.

End Ownership.

Lemma not_false_iff_includes (s t : string) :
  ~ Str.includes s t = false <-> exists a b, s = (a ++ t ++ b)%string.
Proof. rewrite <- includes_spec. destruct (Str.includes s t); intuition congruence. Qed.

(** C9.  For a caller of role patient, each of readMyRecord, updateMyRecord,
    grantAccess and revokeAccess gets past its ownership test exactly when the
    caller's identifier contains the patient id as a substring; and the caller
    whose identifier is [x509::/CN=p10] reads the record of patient [p1]. *)
Theorem ownership_is_substring_containment :
  (forall ctx patientId dataType role permissions expiry payload st,
     getAttributeValue ctx "role" = Some "patient" ->
     let contained := exists a b, callerID ctx = (a ++ patientId ++ b)%string in
     (~ refusedAsNotOwner "read" (PatientContract.readMyRecord ctx patientId dataType st)
        <-> contained)
     /\ (~ refusedAsNotOwner "update"
            (PatientContract.updateMyRecord ctx patientId dataType payload st)
        <-> contained)
     /\ (~ refusedAsNotOwner "grant access for"
            (PatientContract.grantAccess ctx patientId role dataType permissions expiry st)
        <-> contained)
     /\ (~ refusedAsNotOwner "revoke access for"
            (PatientContract.revokeAccess ctx patientId role dataType st)
        <-> contained))
  /\ (callerID patientP10 = ("x509::/CN=" ++ "p1" ++ "0")%string
      /\ PatientContract.readMyRecord patientP10 "p1" "ehr" (atStart ward)
         = (Ok ehrP1, atStart ward)).
Proof.
  split.
  - intros ctx patientId dataType role permissions expiry payload st Hrole contained.
    subst contained.
    rewrite readMyRecord_owner, updateMyRecord_owner, grantAccess_owner,
      revokeAccess_owner by exact Hrole.
    rewrite not_false_iff_includes. tauto.
  - split; [reflexivity | vm_compute; reflexivity].
Qed.

Lemma ownership_is_substring_containment_witness :
  ~ refusedAsNotOwner "read" (PatientContract.readMyRecord patientP1 "p1" "ehr" (atStart ward))
  <-> exists a b, callerID patientP1 = (a ++ "p1" ++ b)%string.
Proof.
  apply (proj1 ownership_is_substring_containment
           patientP1 "p1" "ehr" "doctor" "read" None None (atStart ward)).
  vm_compute. reflexivity.
Defined.

(** ** Audit trail *)

(** An entry written by [_logAudit] leaves every other key as it was. *)
Lemma withEntry_frame key doc st k :
  k <> key -> world (withEntry key doc st) !! k = world st !! k.
Proof. intros Hne. cbn. apply lookup_insert_ne. congruence. Qed.

(** ** Creating a patient twice *)

(** C8, as the code has it.  When an ehr record is stored for the patient,
    createPatient raises and leaves the state as it was, whoever calls; the
    error is the already-exists one when the caller passes the role and
    hospital tests that come first. *)
Theorem createPatient_existing ctx patientId hospitalID patientDataJson st old :
  world st !! createCompositeKey "ehr" [patientId] = Some old ->
  (exists e, AdminContract.createPatient ctx patientId hospitalID patientDataJson st
             = (Err e, st))
  /\ (getAttributeValue ctx "role" = Some "admin" ->
      getAttributeValue ctx "hospitalID" = Some hospitalID ->
      AdminContract.createPatient ctx patientId hospitalID patientDataJson st
      = (Err (AlreadyExists "Patient" [patientId]), st))
  /\ snd (invoke (AdminContract.createPatient ctx patientId hospitalID patientDataJson)
            (world st)) = world st.
Proof.
  intros Hold. unfold AdminContract.createPatient. repeat split.
  - mcases; eauto.
  - intros Hr Hh. munfold. rewrite Hr, Hh. cbn. rewrite String.eqb_refl. cbn.
    rewrite Hold. reflexivity.
  - unfold invoke. case_match. destruct r; [|reflexivity].
    revert H. mcases; discriminate.
Qed.

Lemma createPatient_existing_witness :
  AdminContract.createPatient adminH1 "p1" "H1" (Some (JObj [])) (atStart ward)
  = (Err (AlreadyExists "Patient" ["p1"]), atStart ward).
Proof.
  apply (proj1 (proj2 (createPatient_existing adminH1 "p1" "H1" (Some (JObj []))
                         (atStart ward) ehrP1 ltac:(vm_compute; reflexivity)))).
  - vm_compute. reflexivity.
  - vm_compute. reflexivity.
Defined.

(** The claim as written: the second call raises the already-exists error,
    whoever calls. *)
Lemma createPatient_existing_counterexample :
  ~ (forall ctx patientId hospitalID patientDataJson st,
       is_Some (world st !! createCompositeKey "ehr" [patientId]) ->
       exists s,
         AdminContract.createPatient ctx patientId hospitalID patientDataJson st
         = (Err (AlreadyExists "Patient" [patientId]), s)).
Proof.
  intros H.
  destruct (H doctorH1 "p1" "H1" (Some (JObj [])) (atStart ward)) as [s Hs].
  - vm_compute. eauto.
  - vm_compute in Hs. discriminate Hs.
Qed.

(** A first creation by the hospital's admin stores the record with the
    hospital the call names. *)
Lemma createPatient_fresh ctx patientId hospitalID fields st :
  getAttributeValue ctx "role" = Some "admin" ->
  getAttributeValue ctx "hospitalID" = Some hospitalID ->
  world st !! createCompositeKey "ehr" [patientId] = None ->
  channelID ctx <> "audit-channel" ->
  exists doc r,
    AdminContract.createPatient ctx patientId hospitalID (Some (JObj fields)) st
    = (Ok r, withEntry (createCompositeKey "ehr" [patientId]) doc st)
    /\ prop "hospitalID" doc = Some (JStr hospitalID).
Proof.
  intros Hr Hh Hnew Hch. unfold AdminContract.createPatient. munfold.
  rewrite Hr, Hh. cbn. rewrite String.eqb_refl. cbn. rewrite Hnew.
  destruct (String.eqb_spec (channelID ctx) "audit-channel") as [|_]; [contradiction|].
  eexists _, _. split; [reflexivity|].
  cbn. destruct (jsOr _ _).
  - rewrite assoc_assocSet_ne by discriminate. apply assoc_assocSet_eq.
  - rewrite assoc_assocDel_ne by discriminate. apply assoc_assocSet_eq.
Qed.

(** ** Delegated reads that the record tests stop *)

Section Refusals.

Variables (ctx : Context) (patientId dataType : string) (st : TxState) (record : json).

Hypothesis Hrecord : world st !! createCompositeKey dataType [patientId] = Some record.

(** Either test is closed for the hospital the caller carries, whatever it is. *)
Hypothesis Hblock :
  gateClosed ctx record
  \/ forall h, getAttributeValue ctx "hospitalID" = Some h -> otherHospital h record.

Lemma checkAccessPolicy_refuses permission :
  failed (_checkAccessPolicy ctx patientId dataType permission st)
  /\ (is_Some (getAttributeValue ctx "role") ->
      is_Some (getAttributeValue ctx "hospitalID") ->
      scanWellFormed ctx patientId dataType (world st) ->
      denied (_checkAccessPolicy ctx patientId dataType permission st)).
Proof.
  unfold _checkAccessPolicy, failed, denied. mrun.
  destruct (getAttributeValue ctx "role") as [role|] eqn:Hr; cbn;
    [|split; [answer | intros [? ?]; discriminate]].
  destruct (getAttributeValue ctx "hospitalID") as [h|] eqn:Hh; cbn;
    [|split; [answer | intros _ [? ?]; discriminate]].
  destruct (_checkAccessPolicy_loop ctx patientId dataType permission h
              (rangeOf "policy" [patientId; role; dataType] (world st))
              {| world := world st; openIterators := S (openIterators st) |})
    as [r st'] eqn:Hloop.
  assert (Hb : gateClosed ctx record \/ otherHospital h record)
    by (destruct Hblock as [?|Hother]; auto).
  destruct (loop_refuses ctx patientId dataType permission h record _
              {| world := world st; openIterators := S (openIterators st) |}
              _ _ Hb Hrecord Hloop) as [Hany Hwf].
  split.
  - destruct Hany as [->|[e ->]]; answer.
  - intros _ _ Hscan.
    destruct (Hwf (scanWellFormed_range _ _ _ _ _ Hscan Hr)) as [->|[why ->]]; answer.
Qed.

Lemma doctor_read_refused :
  failed (DoctorContract.readPatientRecord ctx patientId dataType st)
  /\ (is_Some (getAttributeValue ctx "hospitalID") ->
      scanWellFormed ctx patientId dataType (world st) ->
      denied (DoctorContract.readPatientRecord ctx patientId dataType st)).
Proof.
  destruct (checkAccessPolicy_refuses "read") as [[e [s He]] Hden].
  unfold DoctorContract.readPatientRecord, failed, denied.
  rewrite run_bind, run_lift.
  destruct (requireRole ctx ["doctor"]) as [role|e0] eqn:Hreq.
  - rewrite run_bind, He. split; [answer|]. intros Hh Hpol.
    apply requireRole_Ok in Hreq as [Hr _].
    destruct (Hden (mk_is_Some _ _ Hr) Hh Hpol) as [why [s' Hd]].
    rewrite He in Hd. simplify_eq. answer.
  - apply requireRole_Err in Hreq as [why ->]. split; [answer | intros; answer].
Qed.

Lemma nurse_read_refused :
  failed (NurseContract.readPatientRecord ctx patientId dataType st)
  /\ (is_Some (getAttributeValue ctx "hospitalID") ->
      denied (NurseContract.readPatientRecord ctx patientId dataType st)).
Proof.
  unfold NurseContract.readPatientRecord, failed, denied. mrun.
  destruct (getAttributeValue ctx "role") as [role|] eqn:Hr; cbn;
    [|split; [answer | intros; answer]].
  destruct (negb (role =? "")%string && ((role =? "nurse")%string || false)); cbn;
    [|split; [answer | intros; answer]].
  unfold createCompositeKey in Hrecord. rewrite Hrecord.
  destruct (getAttributeValue ctx "hospitalID") as [h|] eqn:Hh; cbn;
    [|split; [answer | intros [? ?]; discriminate]].
  destruct Hblock as [[Hs Hc] | Hother].
  - destruct record; try discriminate; cbn in *.
    destruct (strictEqStr (assoc "hospitalID" fields) h); cbn;
      [|split; [answer | intros; answer]].
    rewrite Hs. cbn.
    destruct (getAttributeValue ctx "clearance") as [c|]; cbn;
      [|split; [answer | intros; answer]].
    destruct (String.eqb_spec c "high") as [->|_]; [congruence|].
    cbn. split; [answer | intros; answer].
  - destruct (Hother h eq_refl) as [stored [Hst Hne]].
    destruct record; try discriminate; cbn in *. rewrite Hst. cbn.
    destruct (String.eqb_spec stored h); [contradiction|].
    cbn. split; [answer | intros; answer].
Qed.

Lemma insurance_read_refused :
  dataType = "insurance" ->
  failed (InsuranceContract.readInsuranceData ctx patientId st)
  /\ (is_Some (getAttributeValue ctx "hospitalID") ->
      scanWellFormed ctx patientId dataType (world st) ->
      denied (InsuranceContract.readInsuranceData ctx patientId st)).
Proof.
  intros Hdt.
  destruct (checkAccessPolicy_refuses "read") as [[e [s He]] Hden]. subst dataType.
  unfold InsuranceContract.readInsuranceData, failed, denied.
  rewrite run_bind, run_lift.
  destruct (requireRole ctx ["insurance"]) as [role|e0] eqn:Hreq.
  - destruct (negb (channelID ctx =? "insurance-channel")%string);
      [split; [answer | intros; answer]|].
    rewrite run_bind, He. split; [answer|]. intros Hh Hpol.
    apply requireRole_Ok in Hreq as [Hr _].
    destruct (Hden (mk_is_Some _ _ Hr) Hh Hpol) as [why [s' Hd]].
    rewrite He in Hd. simplify_eq. answer.
  - apply requireRole_Err in Hreq as [why ->]. split; [answer | intros; answer].
Qed.

End Refusals.

(** ** The iterator of the policy scan *)

(** Whenever the delegated check returns a record, the iterator it opened is
    still open. *)
Lemma checkAccessPolicy_returns_with_open_iterator ctx patientId dataType permission st record st' :
  _checkAccessPolicy ctx patientId dataType permission st = (Ok record, st') ->
  openIterators st' = S (openIterators st).
Proof.
  unfold _checkAccessPolicy. rewrite run_bind, run_lift.
  destruct (getAttr ctx "role" None) as [role|]; [|discriminate].
  rewrite run_bind, run_lift.
  destruct (getAttr ctx "hospitalID" None) as [h|]; [|discriminate].
  rewrite run_bind. cbn -[_checkAccessPolicy_loop]. rewrite run_bind.
  destruct (_checkAccessPolicy_loop _ _ _ _ _ _ _) as [[[found|]|e] s] eqn:Hloop;
    cbn; unfold mret, M_ret, throw; intros; simplify_eq.
  apply loop_state in Hloop as [_ Hopen]. exact Hopen.
Qed.

(** When no policy matches, the scan runs to its end and the iterator is closed. *)
Lemma checkAccessPolicy_no_policy_closes ctx patientId dataType permission st st' a b c d e :
  _checkAccessPolicy ctx patientId dataType permission st
  = (Err (AccessDenied (NoPolicyAccess a b c d e)), st') ->
  openIterators st' = openIterators st.
Proof.
  unfold _checkAccessPolicy. rewrite run_bind, run_lift.
  destruct (getAttr ctx "role" None) as [role|e0] eqn:Hr;
    [|apply getAttr_Err in Hr; subst; discriminate].
  rewrite run_bind, run_lift.
  destruct (getAttr ctx "hospitalID" None) as [h|e0] eqn:Hh;
    [|apply getAttr_Err in Hh; subst; discriminate].
  rewrite run_bind. cbn -[_checkAccessPolicy_loop]. rewrite run_bind.
  destruct (_checkAccessPolicy_loop _ _ _ _ _ _ _) as [[[found|]|err] s] eqn:Hloop;
    cbn; unfold mret, M_ret, throw; intros; simplify_eq.
  - apply loop_state in Hloop as [_ Hopen]. exact Hopen.
  - apply loop_errors in Hloop. discriminate Hloop.
Qed.

(** An error raised from inside the scan (missing record, other hospital,
    clearance) leaves the iterator open. *)
Lemma checkAccessPolicy_raises_with_open_iterator ctx patientId dataType permission st e st' :
  _checkAccessPolicy ctx patientId dataType permission st = (Err e, st') ->
  raisedByScan e = true ->
  openIterators st' = S (openIterators st).
Proof.
  unfold _checkAccessPolicy. rewrite run_bind, run_lift.
  destruct (getAttr ctx "role" None) as [role|e0] eqn:Hr;
    [|apply getAttr_Err in Hr; subst; intros; simplify_eq; discriminate].
  rewrite run_bind, run_lift.
  destruct (getAttr ctx "hospitalID" None) as [h|e0] eqn:Hh;
    [|apply getAttr_Err in Hh; subst; intros; simplify_eq; discriminate].
  rewrite run_bind. cbn -[_checkAccessPolicy_loop]. rewrite run_bind.
  destruct (_checkAccessPolicy_loop _ _ _ _ _ _ _) as [[[found|]|err] s] eqn:Hloop;
    cbn; unfold mret, M_ret, throw; intros; simplify_eq; try discriminate.
  apply loop_state in Hloop as [_ Hopen]. exact Hopen.
Qed.

(** C10 at the failing inputs.  With one matching policy stored, the delegated
    check leaves its iterator open on the path that returns the record, on the
    path where the clearance test raises and on the path where the hospital
    test raises; only the path that finds no policy closes it. *)
Theorem policy_scan_iterator_left_open :
  ( _checkAccessPolicy doctorH1cleared "p1" "ehr" "read" (atStart wardGranted)
    = (Ok ehrP1, {| world := wardGranted; openIterators := 1 |}) )
  /\ ( _checkAccessPolicy doctorH1 "p1" "ehr" "read" (atStart wardGranted)
       = (Err (AccessDenied ClearanceRequired), {| world := wardGranted; openIterators := 1 |}) )
  /\ ( _checkAccessPolicy doctorH2cleared "p1" "ehr" "read" (atStart wardGranted)
       = (Err (AccessDenied RecordOtherHospital), {| world := wardGranted; openIterators := 1 |}) )
  /\ ( _checkAccessPolicy doctorH1cleared "p1" "ehr" "read" (atStart ward)
       = (Err (AccessDenied (NoPolicyAccess "read" "doctor" "x509::/CN=dr2" "ehr" "p1")),
          {| world := ward; openIterators := 0 |}) ).
Proof. repeat split; vm_compute; reflexivity. Qed.

(** ** Policies that have lapsed *)

Lemma closed_id st : closed st = st.
Proof. destruct st. reflexivity. Qed.

Lemma loop_lapsed ctx patientId dataType permission h it st :
  Forall (fun kv => lapsed (clock ctx) permission kv.2) it ->
  _checkAccessPolicy_loop ctx patientId dataType permission h it st
  = (Ok None, {| world := world st; openIterators := Nat.pred (openIterators st) |}).
Proof.
  induction 1 as [|[k doc] rest [Hdoc Hlapsed] _ IH]; cbn.
  - reflexivity.
  - cbn in Hdoc, Hlapsed.
    rewrite (wellFormed_permissions _ _ Hdoc), (wellFormed_expiry _ _ Hdoc).
    destruct Hlapsed as [-> | [e [-> [Hne Hle]]]].
    + mrun. exact IH.
    + destruct (Z.eqb_spec e 0); [contradiction|].
      destruct (Z.ltb_spec (clock ctx) e); [lia|].
      destruct (policyAllows doc permission); mrun; exact IH.
Qed.

(** A stored policy that sets an expiry other than 0, not after the current
    time, grants nothing: the check answers that there is no policy, and the
    ledger (the policy included) is as before. *)
Lemma lapsed_policies_deny ctx patientId dataType permission role h st :
  getAttributeValue ctx "role" = Some role ->
  getAttributeValue ctx "hospitalID" = Some h ->
  Forall (fun kv => lapsed (clock ctx) permission kv.2)
    (rangeOf "policy" [patientId; role; dataType] (world st)) ->
  _checkAccessPolicy ctx patientId dataType permission st
  = (Err (AccessDenied (NoPolicyAccess permission role (callerID ctx) dataType patientId)), st).
Proof.
  intros Hr Hh Hall. unfold _checkAccessPolicy, getAttr. rewrite Hr, Hh.
  rewrite run_bind, run_lift, run_bind, run_lift, run_bind.
  cbn -[_checkAccessPolicy_loop]. rewrite run_bind.
  rewrite (loop_lapsed _ _ _ _ _ _ _ Hall). cbn.
  unfold throw. f_equal. apply closed_id.
Qed.

(** C3 at the failing input.  Patient p1 grants doctors read access with the
    expiry argument ["0"]; the stored policy sets the expiry 0, which is not
    after the current time, and the delegated check returns the record. *)
Theorem policy_expired_at_epoch_still_grants :
  PatientContract.grantAccess patientP1 "p1" "doctor" "ehr" "read" (Some "0") (atStart ward)
  = (Ok (success "Access policy created for doctor on ehr"), atStart wardGrantedEpoch)
  /\ wardGrantedEpoch !! createCompositeKey "policy" ["p1"; "doctor"; "ehr"]
     = Some policyDoctorsReadP1Epoch
  /\ policyExpiry policyDoctorsReadP1Epoch = Some 0
  /\ 0 <= clock doctorH1cleared
  /\ fst (_checkAccessPolicy doctorH1cleared "p1" "ehr" "read" (atStart wardGrantedEpoch))
     = Ok ehrP1.
Proof. repeat split; vm_compute; try reflexivity; discriminate. Qed.

(** ** Grant, read, revoke *)

(** What [_logAudit] does to the ledger: nothing, or one entry under the
    audit key. *)
Lemma logAudit_Ok ctx action details st u st' :
  _logAudit ctx action details st = (Ok u, st') ->
  openIterators st' = openIterators st
  /\ (world st' = world st \/ exists entry, world st' = <[auditKey ctx := entry]> (world st)).
Proof.
  unfold _logAudit, auditKey. destruct (channelID ctx =? "audit-channel")%string.
  - destruct (txSeconds ctx); mrun; intros; simplify_eq. eauto.
  - mrun. intros; simplify_eq. auto.
Qed.

Lemma grantAccess_Ok ctx patientId role dataType permissions expiry st r st1 :
  PatientContract.grantAccess ctx patientId role dataType permissions expiry st = (Ok r, st1) ->
  let policyKey := createCompositeKey "policy" [patientId; role; dataType] in
  world st1 !! policyKey = Some (grantedPolicy patientId role dataType permissions expiry)
  /\ openIterators st1 = openIterators st
  /\ (policyKeysExact (world st) -> policyKeysExact (world st1))
  /\ (forall k, k <> policyKey -> k <> auditKey ctx -> world st1 !! k = world st !! k).
Proof.
  unfold PatientContract.grantAccess. rewrite run_bind, run_lift.
  destruct (requireRole ctx ["patient"]); [|discriminate].
  destruct (negb (Str.includes (callerID ctx) patientId)); [discriminate|].
  destruct (negb (forallb _ _)); [discriminate|].
  rewrite run_bind. unfold _writeState, putState at 1.
  rewrite run_bind.
  destruct (_logAudit _ _ _ _) as [[u|e] s] eqn:Hlog; [|discriminate].
  apply logAudit_Ok in Hlog as [Hopen Hworld].
  unfold mret, M_ret. intros Heq. simplify_eq. cbn in Hopen, Hworld.
  set (policyKey := createCompositeKey "policy" [patientId; role; dataType]) in *.
  split; [|split; [exact Hopen | split]].
  - destruct Hworld as [-> | [entry ->]].
    + apply lookup_insert_eq.
    + rewrite lookup_insert_ne by (unfold policyKey, auditKey, createCompositeKey; congruence).
      apply lookup_insert_eq.
  - intros Hexact.
    assert (Hp : policyKeysExact (<[policyKey :=
                grantedPolicy patientId role dataType permissions expiry]> (world st)))
      by (apply policyKeysExact_insert; [exact Hexact | cbn; lia]).
    destruct Hworld as [-> | [entry ->]]; [exact Hp|].
    apply policyKeysExact_insert; [exact Hp | cbn; discriminate].
  - intros k Hk Ha. destruct Hworld as [-> | [entry ->]].
    + apply lookup_insert_ne. congruence.
    + rewrite lookup_insert_ne by congruence. apply lookup_insert_ne. congruence.
Qed.

Lemma revokeAccess_Ok ctx patientId role dataType st r st2 :
  PatientContract.revokeAccess ctx patientId role dataType st = (Ok r, st2) ->
  let policyKey := createCompositeKey "policy" [patientId; role; dataType] in
  world st2 !! policyKey = None
  /\ (policyKeysExact (world st) -> policyKeysExact (world st2)).
Proof.
  unfold PatientContract.revokeAccess. rewrite run_bind, run_lift.
  destruct (requireRole ctx ["patient"]); [|discriminate].
  destruct (negb (Str.includes (callerID ctx) patientId)); [discriminate|].
  rewrite run_bind. unfold _readState at 1. rewrite run_bind. unfold getState at 1.
  destruct (world st !! _) as [doc|]; [|discriminate].
  unfold mret at 1, M_ret at 1. rewrite run_bind. unfold deleteState at 1.
  rewrite run_bind.
  destruct (_logAudit _ _ _ _) as [[u|e] s] eqn:Hlog; [|discriminate].
  apply logAudit_Ok in Hlog as [Hopen Hworld].
  unfold mret, M_ret. intros Heq. simplify_eq. cbn in Hopen, Hworld.
  set (policyKey := createCompositeKey "policy" [patientId; role; dataType]) in *.
  split.
  - destruct Hworld as [-> | [entry ->]].
    + apply lookup_delete_eq.
    + rewrite lookup_insert_ne by (unfold policyKey, auditKey, createCompositeKey; congruence).
      apply lookup_delete_eq.
  - intros Hexact. pose proof (policyKeysExact_delete _ policyKey Hexact) as Hd.
    destruct Hworld as [-> | [entry ->]]; [exact Hd|].
    apply policyKeysExact_insert; [exact Hd | cbn; discriminate].
Qed.

(** The check over a policy index that holds exactly one entry for the triple. *)
Lemma checkAccessPolicy_single ctx patientId dataType permission role h st k doc record :
  getAttributeValue ctx "role" = Some role ->
  getAttributeValue ctx "hospitalID" = Some h ->
  rangeOf "policy" [patientId; role; dataType] (world st) = [(k, doc)] ->
  permissionsInclude doc permission = Ok true ->
  expiryLive doc (clock ctx) = Ok true ->
  world st !! createCompositeKey dataType [patientId] = Some record ->
  prop "hospitalID" record = Some (JStr h) ->
  (prop "sensitivity" record = Some (JStr "high") ->
   getAttributeValue ctx "clearance" = Some "high") ->
  _checkAccessPolicy ctx patientId dataType permission st = (Ok record, opened st).
Proof.
  intros Hr Hh Hrange Hp He Hrec Hhosp Hgate.
  unfold _checkAccessPolicy, getAttr. rewrite Hr, Hh.
  rewrite run_bind, run_lift, run_bind, run_lift, run_bind.
  cbn -[_checkAccessPolicy_loop]. rewrite run_bind, Hrange. cbn.
  rewrite Hp, He. mrun. unfold createCompositeKey in Hrec. rewrite Hrec.
  destruct record; try discriminate. cbn in *. rewrite Hhosp. cbn.
  rewrite String.eqb_refl. cbn.
  destruct (strictEqStr (assoc "sensitivity" fields) "high") eqn:Hs; cbn.
  - unfold strictEqStr in Hs. destruct (assoc "sensitivity" fields) as [[]|]; try discriminate.
    apply String.eqb_eq in Hs. subst. rewrite (Hgate eq_refl). reflexivity.
  - destruct (getAttributeValue ctx "clearance"); reflexivity.
Qed.

(** The check over a policy index that holds no entry for the triple. *)
Lemma checkAccessPolicy_empty ctx patientId dataType permission role h st :
  getAttributeValue ctx "role" = Some role ->
  getAttributeValue ctx "hospitalID" = Some h ->
  rangeOf "policy" [patientId; role; dataType] (world st) = [] ->
  _checkAccessPolicy ctx patientId dataType permission st
  = (Err (AccessDenied (NoPolicyAccess permission role (callerID ctx) dataType patientId)), st).
Proof.
  intros Hr Hh Hrange. eapply lapsed_policies_deny; [eassumption..|].
  rewrite Hrange. constructor.
Qed.

(** ** The hospital of a record under updates *)

(** A record the delegated check returns is the stored one, and it carries
    the caller's hospital. *)
Lemma loop_grants ctx patientId dataType permission h it st record st' :
  _checkAccessPolicy_loop ctx patientId dataType permission h it st = (Ok (Some record), st') ->
  world st !! createCompositeKey dataType [patientId] = Some record
  /\ prop "hospitalID" record = Some (JStr h).
Proof.
  revert st. induction it as [|[k policy] rest IH]; intros st; cbn.
  - mrun. discriminate.
  - destruct (permissionsInclude policy permission) as [[|]|e0];
      [destruct (expiryLive policy (clock ctx)) as [[|]|e0]|..]; mrun;
      try apply IH; try discriminate.
    destruct (world st !! (dataType, [patientId])) as [doc|]; cbn; [|discriminate].
    destruct doc; cbn; try discriminate.
    destruct (assoc "hospitalID" fields) as [[]|] eqn:Hh; cbn; try discriminate.
    destruct (String.eqb_spec s h) as [->|]; cbn; [|discriminate].
    destruct (getAttributeValue ctx "clearance"); cbn;
      (destruct (_ && _); intros; simplify_eq; cbn; auto).
Qed.

Lemma checkAccessPolicy_Ok ctx patientId dataType permission st record st' :
  _checkAccessPolicy ctx patientId dataType permission st = (Ok record, st') ->
  world st !! createCompositeKey dataType [patientId] = Some record
  /\ world st' = world st
  /\ exists h, prop "hospitalID" record = Some (JStr h).
Proof.
  unfold _checkAccessPolicy. rewrite run_bind, run_lift.
  destruct (getAttr ctx "role" None) as [role|]; [|discriminate].
  rewrite run_bind, run_lift.
  destruct (getAttr ctx "hospitalID" None) as [h|]; [|discriminate].
  rewrite run_bind. cbn -[_checkAccessPolicy_loop]. rewrite run_bind.
  destruct (_checkAccessPolicy_loop _ _ _ _ _ _ _) as [[[found|]|e] s] eqn:Hloop;
    cbn; unfold mret, M_ret, throw; intros; simplify_eq.
  pose proof (loop_state _ _ _ _ _ _ _ _ _ Hloop) as [Hw _].
  apply loop_grants in Hloop as [Hrec Hh]. cbn in *. eauto.
Qed.

(** [obj.name = v] leaves the other properties as they are. *)
Lemma setProp_other name v doc doc' other :
  setProp name v doc = Ok doc' -> name <> other -> prop other doc' = prop other doc.
Proof.
  unfold setProp. destruct doc; intros; simplify_eq; [reflexivity|]. cbn.
  destruct v; [apply assoc_assocSet_ne | apply assoc_assocDel_ne]; assumption.
Qed.

(** On an object, [obj.name = v] makes [obj.name] read [v]. *)
Lemma setProp_object name v fields doc' :
  setProp name v (JObj fields) = Ok doc' -> prop name doc' = v.
Proof.
  unfold setProp. intros; simplify_eq. cbn.
  destruct v; [apply assoc_assocSet_eq | apply assoc_assocDel_eq].
Qed.

(** The patient's update keeps the hospital when the payload is an object. *)
Lemma updateMyRecord_object_keeps_hospital ctx patientId dataType fields st r st' :
  PatientContract.updateMyRecord ctx patientId dataType (Some (JObj fields)) st = (Ok r, st') ->
  createCompositeKey dataType [patientId] <> auditKey ctx ->
  exists old new,
    world st !! createCompositeKey dataType [patientId] = Some old
    /\ world st' !! createCompositeKey dataType [patientId] = Some new
    /\ prop "hospitalID" new = prop "hospitalID" old.
Proof.
  unfold PatientContract.updateMyRecord. rewrite run_bind, run_lift.
  destruct (requireRole ctx ["patient"]); [|discriminate].
  destruct (negb (Str.includes (callerID ctx) patientId)); [discriminate|].
  rewrite run_bind. unfold _readState at 1. rewrite run_bind. unfold getState at 1.
  destruct (world st !! _) as [old|] eqn:Hold; [|discriminate].
  unfold mret at 1, M_ret at 1. rewrite run_bind, run_lift. cbn [JSON_parse].
  rewrite run_bind, run_lift.
  destruct (propOf "hospitalID" old) as [existingHospital|] eqn:Hp; [|discriminate].
  rewrite run_bind, run_lift.
  destruct (setProp "hospitalID" existingHospital (JObj fields)) as [d1|] eqn:H1; [|discriminate].
  rewrite run_bind, run_lift.
  destruct (setProp "sensitivity" _ d1) as [d2|] eqn:H2; [|discriminate].
  rewrite run_bind. unfold _writeState, putState at 1. rewrite run_bind.
  destruct (_logAudit _ _ _ _) as [[u|e] s] eqn:Hlog; [|discriminate].
  apply logAudit_Ok in Hlog as [_ Hworld]. unfold mret, M_ret.
  intros Heq Hkey. simplify_eq. exists old, d2. split; [reflexivity|]. split.
  - destruct Hworld as [-> | [entry ->]]; cbn.
    + apply lookup_insert_eq.
    + rewrite lookup_insert_ne by congruence. apply lookup_insert_eq.
  - rewrite (setProp_other _ _ _ _ "hospitalID" H2) by discriminate.
    rewrite (setProp_object _ _ _ _ H1).
    unfold propOf in Hp. destruct old; simplify_eq; reflexivity.
Qed.

(** The doctor's update keeps the hospital, whatever the payload. *)
Lemma updatePatientRecord_keeps_hospital ctx patientId dataType payload st r st' :
  DoctorContract.updatePatientRecord ctx patientId dataType payload st = (Ok r, st') ->
  createCompositeKey dataType [patientId] <> auditKey ctx ->
  exists old new,
    world st !! createCompositeKey dataType [patientId] = Some old
    /\ world st' !! createCompositeKey dataType [patientId] = Some new
    /\ prop "hospitalID" new = prop "hospitalID" old.
Proof.
  unfold DoctorContract.updatePatientRecord. rewrite run_bind, run_lift.
  destruct (requireRole ctx ["doctor"]); [|discriminate].
  rewrite run_bind.
  destruct (_checkAccessPolicy _ _ _ _ _) as [[old|] s0] eqn:Hcheck; [|discriminate].
  apply checkAccessPolicy_Ok in Hcheck as (Hold & Hw0 & h & Hh).
  rewrite run_bind, run_lift.
  destruct (JSON_parse payload) as [updatedData|]; [|discriminate].
  rewrite run_bind, run_lift.
  destruct (propOf "medical" updatedData) as [updatedMedical|]; [|discriminate].
  rewrite run_bind, run_lift.
  destruct (setProp "medical" _ (JObj (spread old))) as [d1|] eqn:H1; [|discriminate].
  rewrite run_bind, run_lift.
  destruct (setProp "hospitalID" _ d1) as [d2|] eqn:H2; [|discriminate].
  rewrite run_bind, run_lift.
  destruct (setProp "sensitivity" _ d2) as [d3|] eqn:H3; [|discriminate].
  rewrite run_bind. unfold _writeState, putState at 1. rewrite run_bind.
  destruct (_logAudit _ _ _ _) as [[u|e] s] eqn:Hlog; [|discriminate].
  apply logAudit_Ok in Hlog as [_ Hworld]. unfold mret, M_ret.
  intros Heq Hkey. simplify_eq. exists old, d3. split; [exact Hold|]. split.
  - destruct Hworld as [-> | [entry ->]]; cbn.
    + apply lookup_insert_eq.
    + rewrite lookup_insert_ne by congruence. apply lookup_insert_eq.
  - rewrite (setProp_other _ _ _ _ "hospitalID" H3) by discriminate.
    unfold setProp in H1. simplify_eq.
    apply (setProp_object _ _ _ _ H2).
Qed.

(** The insurer's update keeps the hospital, whatever the payload. *)
Lemma updateInsuranceData_keeps_hospital ctx patientId payload st r st' :
  InsuranceContract.updateInsuranceData ctx patientId payload st = (Ok r, st') ->
  createCompositeKey "insurance" [patientId] <> auditKey ctx ->
  exists old new,
    world st !! createCompositeKey "insurance" [patientId] = Some old
    /\ world st' !! createCompositeKey "insurance" [patientId] = Some new
    /\ prop "hospitalID" new = prop "hospitalID" old.
Proof.
  unfold InsuranceContract.updateInsuranceData. rewrite run_bind, run_lift.
  destruct (requireRole ctx ["insurance"]); [|discriminate].
  destruct (negb (channelID ctx =? "insurance-channel")%string); [discriminate|].
  rewrite run_bind.
  destruct (_checkAccessPolicy _ _ _ _ _) as [[old|] s0] eqn:Hcheck; [|discriminate].
  apply checkAccessPolicy_Ok in Hcheck as (Hold & Hw0 & h & Hh).
  rewrite run_bind, run_lift.
  destruct (JSON_parse payload) as [updatedData|]; [|discriminate].
  rewrite run_bind, run_lift.
  destruct (propOf "policy" updatedData) as [updatedPolicy|]; [|discriminate].
  rewrite run_bind, run_lift.
  destruct (setProp "policy" _ (JObj (spread old))) as [d1|] eqn:H1; [|discriminate].
  rewrite run_bind, run_lift.
  destruct (setProp "hospitalID" _ d1) as [d2|] eqn:H2; [|discriminate].
  rewrite run_bind, run_lift.
  destruct (setProp "sensitivity" _ d2) as [d3|] eqn:H3; [|discriminate].
  rewrite run_bind. unfold _writeState, putState at 1. rewrite run_bind.
  destruct (_logAudit _ _ _ _) as [[u|e] s] eqn:Hlog; [|discriminate].
  apply logAudit_Ok in Hlog as [_ Hworld]. unfold mret, M_ret.
  intros Heq Hkey. simplify_eq. exists old, d3. split; [exact Hold|]. split.
  - destruct Hworld as [-> | [entry ->]]; cbn.
    + apply lookup_insert_eq.
    + rewrite lookup_insert_ne by congruence. apply lookup_insert_eq.
  - rewrite (setProp_other _ _ _ _ "hospitalID" H3) by discriminate.
    unfold setProp in H1. simplify_eq.
    apply (setProp_object _ _ _ _ H2).
Qed.

(** C7 at the failing input.  Patient p1, whose record is stored for hospital
    H1, updates it with the payload [[]]: the call succeeds and the document
    written back is the empty array, which has no hospitalID. *)
Theorem update_with_array_payload_loses_hospital :
  ward !! createCompositeKey "ehr" ["p1"] = Some ehrP1
  /\ prop "hospitalID" ehrP1 = Some (JStr "H1")
  /\ PatientContract.updateMyRecord patientP1 "p1" "ehr" (Some (JArr [])) (atStart ward)
     = (Ok (success "ehr for patient p1 updated"),
        atStart (<[createCompositeKey "ehr" ["p1"] := JArr []]> ward))
  /\ prop "hospitalID" (JArr []) = None.
Proof. repeat split; vm_compute; reflexivity. Qed.

(** ** Reading the audit trail *)

Section AuditQuery.

Import AuditContract.

Variables (ctx : Context) (start end_ : Z) (role : string).
Hypothesis Hrole : getAttributeValue ctx "role" = Some role.

(** What the caller is shown of an entry within the time range. *)
Let shown (log : json) : bool :=
  withinTime start end_ log && (String.eqb role "admin" || concerns ctx log).



End AuditQuery.






(** ** Every audited method files its entry *)

Lemma filesEntry_throw {A} ctx (e : error) : filesEntry ctx (@throw A e).
Proof. intros st r st' Heq. unfold throw in Heq. discriminate. Qed.

Lemma filesEntry_bind {A B} ctx (m : M A) (f : A -> M B) :
  (forall a, filesEntry ctx (f a)) -> filesEntry ctx (m ≫= f).
Proof.
  intros Hf st r st'. rewrite run_bind.
  destruct (m st) as [[a|e] s]; [apply Hf | discriminate].
Qed.

Lemma filesEntry_logAudit {A} ctx action details (x : A) :
  filesEntry ctx (_logAudit ctx action details ≫= fun _ => mret x).
Proof.
  intros st r st' Heq Hch. revert Heq. rewrite run_bind.
  unfold _logAudit. rewrite Hch. cbn.
  destruct (txSeconds ctx) as [seconds|]; [|discriminate].
  unfold putState, mret, M_ret. intros; simplify_eq. cbn.
  exists seconds, action, details. split; [reflexivity | apply lookup_insert_eq].
Qed.

Ltac files_entry :=
  repeat (cbv zeta;
          first [ apply filesEntry_logAudit
                | apply filesEntry_throw
                | match goal with
                  | |- filesEntry _ (if ?b then _ else _) => destruct b
                  | |- filesEntry _ (match ?x with _ => _ end) => destruct x
                  end
                | apply filesEntry_bind; intros ? ]).

Lemma audited_call_files_entry c ctx : audited c = true -> filesEntry ctx (run c ctx).
Proof.
  destruct c; cbn; try discriminate; intros _;
    unfold AdminContract.createPatient, AdminContract.deletePatient,
      AdminContract.getAllPatients, PatientContract.readMyRecord,
      PatientContract.updateMyRecord, PatientContract.grantAccess,
      PatientContract.revokeAccess, DoctorContract.readPatientRecord,
      DoctorContract.updatePatientRecord, DoctorContract.createLabReport,
      DoctorContract.createPrescription, NurseContract.readPatientRecord,
      InsuranceContract.readInsuranceData, InsuranceContract.updateInsuranceData;
    files_entry.
Qed.

(** ** Off the audit channel no audited method touches the trail *)

Lemma keepsTrail_ret {A} (a : A) : keepsTrail (mret a).
Proof. intros st r st' Heq. unfold mret, M_ret in Heq. simplify_eq. reflexivity. Qed.

Lemma keepsTrail_throw {A} (e : error) : keepsTrail (@throw A e).
Proof. intros st r st' Heq. unfold throw in Heq. simplify_eq. reflexivity. Qed.

Lemma keepsTrail_lift {A} (x : result A) : keepsTrail (lift x).
Proof. intros st r st' Heq. unfold lift in Heq. simplify_eq. reflexivity. Qed.

Lemma keepsTrail_bind {A B} (m : M A) (f : A -> M B) :
  keepsTrail m -> (forall a, keepsTrail (f a)) -> keepsTrail (m ≫= f).
Proof.
  intros Hm Hf st r st'. rewrite run_bind.
  destruct (m st) as [[a|e] s] eqn:Hrun; intros Heq k Hk.
  - rewrite (Hf a s r st' Heq k Hk). exact (Hm _ _ _ Hrun k Hk).
  - simplify_eq. exact (Hm _ _ _ Hrun k Hk).
Qed.

Lemma keepsTrail_getState key : keepsTrail (getState key).
Proof. intros st r st' Heq. unfold getState in Heq. simplify_eq. reflexivity. Qed.

Lemma keepsTrail_open objectType attrs :
  keepsTrail (getStateByPartialCompositeKey objectType attrs).
Proof.
  intros st r st' Heq. unfold getStateByPartialCompositeKey in Heq. simplify_eq. reflexivity.
Qed.

Lemma keepsTrail_close : keepsTrail closeIterator.
Proof. intros st r st' Heq. unfold closeIterator in Heq. simplify_eq. reflexivity. Qed.

Lemma keepsTrail_putState objectType attrs doc :
  objectType <> "audit" -> keepsTrail (putState (createCompositeKey objectType attrs) doc).
Proof.
  intros Hne st r st' Heq k Hk. unfold putState in Heq. simplify_eq. cbn.
  apply lookup_insert_ne. intros <-. apply Hne, Hk.
Qed.

Lemma keepsTrail_deleteState objectType attrs :
  objectType <> "audit" -> keepsTrail (deleteState (createCompositeKey objectType attrs)).
Proof.
  intros Hne st r st' Heq k Hk. unfold deleteState in Heq. simplify_eq. cbn.
  apply lookup_delete_ne. intros <-. apply Hne, Hk.
Qed.

Lemma keepsTrail_readState ctx key : keepsTrail (_readState ctx key).
Proof.
  unfold _readState. apply keepsTrail_bind; [apply keepsTrail_getState|].
  intros [doc|]; [apply keepsTrail_ret | apply keepsTrail_throw].
Qed.

Lemma keepsTrail_checkAccessPolicy ctx patientId dataType permission :
  keepsTrail (_checkAccessPolicy ctx patientId dataType permission).
Proof.
  unfold _checkAccessPolicy.
  apply keepsTrail_bind; [apply keepsTrail_lift | intros role].
  apply keepsTrail_bind; [apply keepsTrail_lift | intros h].
  apply keepsTrail_bind; [apply keepsTrail_open | intros it].
  apply keepsTrail_bind.
  - intros st r st' Heq k _. apply loop_state in Heq as [-> _]. reflexivity.
  - intros found. destruct found; [apply keepsTrail_ret | apply keepsTrail_throw].
Qed.

Lemma keepsTrail_getAllPatients_loop h it : keepsTrail (AdminContract.getAllPatients_loop h it).
Proof.
  induction it as [|[k record] rest IH]; cbn.
  - apply keepsTrail_bind; [apply keepsTrail_close | intros; apply keepsTrail_ret].
  - apply keepsTrail_bind; [apply keepsTrail_lift | intros].
    apply keepsTrail_bind; [exact IH | intros; apply keepsTrail_ret].
Qed.

Section OffTheAuditChannel.

Variable ctx : Context.
Hypothesis Hquiet : channelID ctx <> "audit-channel".

Lemma keepsTrail_logAudit action details : keepsTrail (_logAudit ctx action details).
Proof.
  unfold _logAudit.
  destruct (String.eqb_spec (channelID ctx) "audit-channel"); [contradiction|].
  apply keepsTrail_ret.
Qed.

Ltac keeps_trail :=
  repeat (cbv zeta;
          first [ apply keepsTrail_lift
                | apply keepsTrail_ret
                | apply keepsTrail_throw
                | apply keepsTrail_getState
                | apply keepsTrail_readState
                | apply keepsTrail_logAudit
                | apply keepsTrail_checkAccessPolicy
                | apply keepsTrail_getAllPatients_loop
                | apply keepsTrail_open
                | apply keepsTrail_putState; (discriminate || assumption)
                | apply keepsTrail_deleteState; (discriminate || assumption)
                | match goal with
                  | |- keepsTrail (if ?b then _ else _) => destruct b
                  | |- keepsTrail (match ?x with _ => _ end) => destruct x
                  end
                | apply keepsTrail_bind; [|intros ?] ]).

Lemma audited_call_keeps_trail c :
  audited c = true -> writesUnder c <> Some "audit" -> keepsTrail (run c ctx).
Proof.
  destruct c; cbn; try discriminate; intros _ Hunder;
    try (assert (dataType <> "audit") by congruence);
    unfold AdminContract.createPatient, AdminContract.deletePatient,
      AdminContract.getAllPatients, PatientContract.readMyRecord,
      PatientContract.updateMyRecord, PatientContract.grantAccess,
      PatientContract.revokeAccess, DoctorContract.readPatientRecord,
      DoctorContract.updatePatientRecord, DoctorContract.createLabReport,
      DoctorContract.createPrescription, NurseContract.readPatientRecord,
      InsuranceContract.readInsuranceData, InsuranceContract.updateInsuranceData,
      _writeState;
    keeps_trail.
Qed.

End OffTheAuditChannel.

(** ** The scenarios of the specification *)

(** Patient p10 grants doctors read access on the ehr record, without expiry;
    a doctor of the record's hospital reads it; the patient revokes; the
    doctor's next read is denied. *)
Example grant_read_revoke_scenario :
  let granted := thenInvoke ward (GrantAccess "p10" "doctor" "ehr" "read" None) patientP10 in
  let revoked := thenInvoke granted (RevokeAccess "p10" "doctor" "ehr") patientP10 in
  fst (invoke (run (DoctorReadPatientRecord "p10" "ehr") doctorH1) granted) = Ok ehrP10
  /\ fst (invoke (run (DoctorReadPatientRecord "p10" "ehr") doctorH1) revoked)
     = Err (AccessDenied (NoPolicyAccess "read" "doctor" "x509::/CN=dr1" "ehr" "p10")).
Proof. split; vm_compute; reflexivity. Qed.

(** The admin of hospital H1 creates patient p2 there; the admin of hospital
    H2 lists no patient. *)
Example other_hospital_lists_nothing :
  let created := thenInvoke ward
                   (CreatePatient "p2" "H1" (Some (JObj [("name", JStr "Cy")]))) adminH1 in
  created !! createCompositeKey "ehr" ["p2"]
  = Some (JObj [("name", JStr "Cy"); ("hospitalID", JStr "H1"); ("sensitivity", JStr "low")])
  /\ fst (invoke (run GetAllPatients adminH2) created) = Ok (JArr []).
Proof. split; vm_compute; reflexivity. Qed.

(** ** How a method changes the ledger *)

#[export] Instance agreeOutside_preorder keys : PreOrder (agreeOutside keys).
Proof.
  split.
  - intros w k _. reflexivity.
  - intros w1 w2 w3 H12 H23 k Hk. rewrite (H23 k Hk). exact (H12 k Hk).
Qed.

#[export] Instance addsContainers_preorder : PreOrder addsContainers.
Proof.
  split.
  - intros w k doc Hk. left. exact Hk.
  - intros w1 w2 w3 H12 H23 k doc Hk.
    destruct (H23 k doc Hk) as [H2 | Hc]; [exact (H12 k doc H2) | right; exact Hc].
Qed.

Section Changes.

Context (R : relation (gmap Key json)) `{!PreOrder R}.

Lemma changes_ret {A} (a : A) : changes R (mret a).
Proof. intros st r st' Heq. unfold mret, M_ret in Heq. simplify_eq. reflexivity. Qed.

Lemma changes_throw {A} (e : error) : changes R (@throw A e).
Proof. intros st r st' Heq. unfold throw in Heq. simplify_eq. reflexivity. Qed.

Lemma changes_lift {A} (x : result A) : changes R (lift x).
Proof. intros st r st' Heq. unfold lift in Heq. simplify_eq. reflexivity. Qed.

Lemma changes_bind {A B} (m : M A) (f : A -> M B) :
  changes R m -> (forall a, changes R (f a)) -> changes R (m ≫= f).
Proof.
  intros Hm Hf st r st'. rewrite run_bind.
  destruct (m st) as [[a|e] s] eqn:Hrun; intros Heq.
  - transitivity (world s); [exact (Hm _ _ _ Hrun) | exact (Hf a _ _ _ Heq)].
  - simplify_eq. exact (Hm _ _ _ Hrun).
Qed.

(** A step that cannot write, with what it returned known to the rest. *)
Lemma changes_bind_lift {A B} (x : result A) (f : A -> M B) :
  (forall a, x = Ok a -> changes R (f a)) -> changes R (lift x ≫= f).
Proof.
  intros Hf st r st'. rewrite run_bind, run_lift.
  destruct x as [a|e]; intros Heq.
  - exact (Hf a eq_refl _ _ _ Heq).
  - simplify_eq. reflexivity.
Qed.

Lemma changes_getState key : changes R (getState key).
Proof. intros st r st' Heq. unfold getState in Heq. simplify_eq. reflexivity. Qed.

Lemma changes_open objectType attrs :
  changes R (getStateByPartialCompositeKey objectType attrs).
Proof.
  intros st r st' Heq. unfold getStateByPartialCompositeKey in Heq. simplify_eq. reflexivity.
Qed.

Lemma changes_close : changes R closeIterator.
Proof. intros st r st' Heq. unfold closeIterator in Heq. simplify_eq. reflexivity. Qed.

Lemma changes_readState ctx key : changes R (_readState ctx key).
Proof.
  unfold _readState. apply changes_bind; [apply changes_getState|].
  intros [doc|]; [apply changes_ret | apply changes_throw].
Qed.

Lemma changes_checkAccessPolicy ctx patientId dataType permission :
  changes R (_checkAccessPolicy ctx patientId dataType permission).
Proof.
  unfold _checkAccessPolicy.
  apply changes_bind; [apply changes_lift | intros role].
  apply changes_bind; [apply changes_lift | intros h].
  apply changes_bind; [apply changes_open | intros it].
  apply changes_bind.
  - intros st r st' Heq. apply loop_state in Heq as [-> _]. reflexivity.
  - intros found. destruct found; [apply changes_ret | apply changes_throw].
Qed.

Lemma changes_getAllPatients_loop h it : changes R (AdminContract.getAllPatients_loop h it).
Proof.
  induction it as [|[k record] rest IH]; cbn.
  - apply changes_bind; [apply changes_close | intros; apply changes_ret].
  - apply changes_bind; [apply changes_lift | intros].
    apply changes_bind; [exact IH | intros; apply changes_ret].
Qed.

Lemma changes_getAuditLogs_loop ctx start end_ it :
  changes R (AuditContract.getAuditLogs_loop ctx start end_ it).
Proof.
  induction it as [|[k log] rest IH]; cbn.
  - apply changes_bind; [apply changes_close | intros; apply changes_ret].
  - apply changes_bind; [apply changes_lift | intros].
    apply changes_bind; [exact IH | intros; apply changes_ret].
Qed.

(** What is left to show of [_logAudit]: its one write. *)
Lemma changes_logAudit ctx action details :
  (forall seconds, changes R (putState (auditKey ctx) (auditData ctx seconds action details))) ->
  changes R (_logAudit ctx action details).
Proof.
  intros Hput. unfold _logAudit.
  destruct (channelID ctx =? "audit-channel")%string; [|apply changes_ret].
  destruct (txSeconds ctx); [apply Hput | apply changes_throw].
Qed.

End Changes.

Lemma agreeOutside_putState (keys : Key -> Prop) key doc :
  keys key -> changes (agreeOutside keys) (putState key doc).
Proof.
  intros Hkey st r st' Heq k Hk. unfold putState in Heq. simplify_eq. cbn.
  apply lookup_insert_ne. intros ->. exact (Hk Hkey).
Qed.

Lemma agreeOutside_deleteState (keys : Key -> Prop) key :
  keys key -> changes (agreeOutside keys) (deleteState key).
Proof.
  intros Hkey st r st' Heq k Hk. unfold deleteState in Heq. simplify_eq. cbn.
  apply lookup_delete_ne. intros ->. exact (Hk Hkey).
Qed.

Lemma addsContainers_putState key doc :
  isContainer doc = true -> changes addsContainers (putState key doc).
Proof.
  intros Hdoc st r st' Heq k doc' Hk. unfold putState in Heq. simplify_eq. cbn in Hk.
  destruct (decide (key = k)) as [<-|Hne].
  - rewrite lookup_insert_eq in Hk. simplify_eq. right. exact Hdoc.
  - rewrite lookup_insert_ne in Hk by exact Hne. left. exact Hk.
Qed.

Lemma addsContainers_deleteState key : changes addsContainers (deleteState key).
Proof.
  intros st r st' Heq k doc' Hk. unfold deleteState in Heq. simplify_eq. cbn in Hk.
  destruct (decide (key = k)) as [<-|Hne].
  - rewrite lookup_delete_eq in Hk. discriminate.
  - rewrite lookup_delete_ne in Hk by exact Hne. left. exact Hk.
Qed.

(** An assignment that does not raise was made on an object or an array. *)
Lemma setProp_container name v doc doc' :
  setProp name v doc = Ok doc' -> isContainer doc' = true.
Proof. unfold setProp. destruct doc; intros; simplify_eq; reflexivity. Qed.

Ltac unfold_methods :=
  unfold AdminContract.createPatient, AdminContract.deletePatient,
    AdminContract.getAllPatients, PatientContract.readMyRecord,
    PatientContract.updateMyRecord, PatientContract.grantAccess,
    PatientContract.revokeAccess, DoctorContract.readPatientRecord,
    DoctorContract.updatePatientRecord, DoctorContract.createLabReport,
    DoctorContract.createPrescription, NurseContract.readPatientRecord,
    InsuranceContract.readInsuranceData, InsuranceContract.updateInsuranceData,
    AuditContract.getAuditLogs, _writeState.

(** Applies a rule of [changes] for a relation that is a preorder. *)
Ltac rule lem :=
  apply lem;
  try match goal with
      | |- PreOrder _ => exact _
      end.

(** Walks a method, leaving its writes to [write]. *)
Ltac walk write :=
  repeat (cbv zeta;
          first [ rule @changes_ret
                | rule @changes_throw
                | rule changes_getState
                | rule changes_open
                | rule changes_close
                | rule changes_readState
                | rule changes_checkAccessPolicy
                | rule changes_getAllPatients_loop
                | rule changes_getAuditLogs_loop
                | rule changes_logAudit; intros ?
                | write
                | match goal with
                  | |- changes _ (if ?b then _ else _) => destruct b
                  | |- changes _ (match ?x with _ => _ end) => destruct x
                  end
                | rule @changes_bind_lift; intros ? ?
                | rule @changes_bind; [|intros ?]
                | rule @changes_lift ]).

Lemma run_agreeOutside c ctx :
  changes (agreeOutside (fun k => targetKey c = Some k \/ k = auditKey ctx)) (run c ctx).
Proof.
  destruct c; cbn; unfold_methods;
    walk ltac:(first [ apply agreeOutside_putState | apply agreeOutside_deleteState ];
               solve [left; reflexivity | right; reflexivity]).
Qed.

Lemma run_addsContainers c ctx : changes addsContainers (run c ctx).
Proof.
  destruct c; cbn; unfold_methods;
    walk ltac:(first [ apply addsContainers_deleteState
                     | apply addsContainers_putState;
                       solve [reflexivity | eauto using setProp_container] ]).
Qed.

(** Every document of a ledger the contract builds is an object or an array. *)
Lemma reachable_containers w k doc : reachable w -> w !! k = Some doc -> isContainer doc = true.
Proof.
  intros Hreach. revert k doc. induction Hreach as [|w ctx c _ IH]; intros k doc.
  - rewrite lookup_empty. discriminate.
  - unfold invoke. destruct (run c ctx _) as [[a|e] s] eqn:Hrun; cbn; [|apply IH].
    intros Hk. destruct (run_addsContainers c ctx _ _ _ Hrun k doc Hk) as [Hold | Hc].
    + exact (IH k doc Hold).
    + exact Hc.
Qed.

(** ** Checking the scan of a given ledger *)

Lemma scansOnly_matches (patientId role dataType : string) (w : gmap Key json) k :
  scansOnly patientId role dataType w -> is_Some (w !! k) ->
  matchesPartialKey "policy" [patientId; role; dataType] k ->
  k = createCompositeKey "policy" [patientId; role; dataType].
Proof. intros Honly Hk Hm. exact (Honly k Hk (matches_inScanOf _ _ _ Hm)). Qed.

(** No audit key is in a policy scan. *)
Lemma auditKey_not_scanned ctx (attrs : list string) : inScanOf "policy" attrs (auditKey ctx) = false.
Proof. reflexivity. Qed.

Lemma forallb_entries (P : Key -> json -> bool) (w : gmap Key json) k doc :
  forallb (fun kv : Key * json => P kv.1 kv.2) (map_to_list w) = true ->
  w !! k = Some doc -> P k doc = true.
Proof.
  intros Hall Hk. rewrite forallb_forall in Hall.
  apply (Hall (k, doc)). apply list_elem_of_In, elem_of_map_to_list. exact Hk.
Qed.

Lemma scanWellFormed_by_entries (ctx : Context) (patientId dataType : string)
    (w : gmap Key json) :
  (forall role, getAttributeValue ctx "role" = Some role ->
     forallb (fun kv : Key * json =>
                implb (inScanOf "policy" [patientId; role; dataType] kv.1) (isPolicyDoc kv.2))
       (map_to_list w) = true) ->
  scanWellFormed ctx patientId dataType w.
Proof.
  intros Hall role Hr k doc Hk Hin.
  pose proof (forallb_entries
                (fun k doc => implb (inScanOf "policy" [patientId; role; dataType] k)
                                (isPolicyDoc doc)) w k doc (Hall role Hr) Hk) as H.
  cbv beta in H. rewrite Hin in H. exact H.
Qed.

Lemma scansOnly_by_entries (patientId role dataType : string) (w : gmap Key json) :
  forallb (fun kv : Key * json =>
             implb (inScanOf "policy" [patientId; role; dataType] kv.1)
               (bool_decide (kv.1 = createCompositeKey "policy" [patientId; role; dataType])))
    (map_to_list w) = true ->
  scansOnly patientId role dataType w.
Proof.
  intros Hall k [doc Hk] Hin.
  pose proof (forallb_entries
                (fun k _ => implb (inScanOf "policy" [patientId; role; dataType] k)
                              (bool_decide
                                 (k = createCompositeKey "policy" [patientId; role; dataType])))
                w k doc Hall Hk) as H.
  cbv beta in H. rewrite Hin in H. exact (bool_decide_eq_true_1 _ H).
Qed.

(** ** The steps of a method as equations *)

Lemma run_ret {A} (a : A) st : (mret a : M A) st = (Ok a, st).
Proof. reflexivity. Qed.

Lemma run_throw {A} (e : error) st : @throw A e st = (Err e, st).
Proof. reflexivity. Qed.

Lemma run_getState key st : getState key st = (Ok (world st !! key), st).
Proof. reflexivity. Qed.

Lemma run_putState key doc st : putState key doc st = (Ok tt, withEntry key doc st).
Proof. reflexivity. Qed.

Lemma run_readState ctx key st :
  _readState ctx key st = match world st !! key with
                          | Some doc => (Ok doc, st)
                          | None => (Err (StateNotFound key), st)
                          end.
Proof. unfold _readState. rewrite run_bind, run_getState. destruct (world st !! key); reflexivity. Qed.

Lemma run_logAudit ctx action details st :
  canLog ctx -> _logAudit ctx action details st = (Ok tt, logged ctx action details st).
Proof.
  intros Hcan. unfold _logAudit, logged, canLog in *.
  destruct (String.eqb_spec (channelID ctx) "audit-channel") as [Hch|_]; [|reflexivity].
  destruct (Hcan Hch) as [seconds ->]. reflexivity.
Qed.

Lemma logAudit_logged ctx action details st u st' :
  _logAudit ctx action details st = (Ok u, st') -> st' = logged ctx action details st.
Proof.
  unfold _logAudit, logged.
  destruct (channelID ctx =? "audit-channel")%string.
  - destruct (txSeconds ctx); [|discriminate]. rewrite run_putState. intros; simplify_eq. reflexivity.
  - rewrite run_ret. intros; simplify_eq. reflexivity.
Qed.

Lemma logged_frame ctx action details st k :
  k <> auditKey ctx -> world (logged ctx action details st) !! k = world st !! k.
Proof.
  intros Hk. unfold logged. destruct (channelID ctx =? "audit-channel")%string; [|reflexivity].
  destruct (txSeconds ctx); [|reflexivity]. apply withEntry_frame. exact Hk.
Qed.

Lemma logged_quiet ctx action details st :
  channelID ctx <> "audit-channel" -> logged ctx action details st = st.
Proof.
  intros Hch. unfold logged.
  destruct (String.eqb_spec (channelID ctx) "audit-channel"); [contradiction | reflexivity].
Qed.

Lemma logged_openIterators ctx action details st :
  openIterators (logged ctx action details st) = openIterators st.
Proof.
  unfold logged. destruct (channelID ctx =? "audit-channel")%string; [|reflexivity].
  destruct (txSeconds ctx); reflexivity.
Qed.

Lemma includesStr_In (l : list string) (x : string) : includesStr l x = true <-> In x l.
Proof.
  unfold includesStr. rewrite existsb_exists. split.
  - intros [y [Hin Heq]]. apply String.eqb_eq in Heq. subst. exact Hin.
  - intros Hin. exists x. split; [exact Hin | apply String.eqb_refl].
Qed.

Lemma requireRole_refuses ctx expectedRoles :
  (forall role, getAttributeValue ctx "role" = Some role ->
                role = "" \/ ~ In role expectedRoles) ->
  requireRole ctx expectedRoles
  = Err (AccessDenied (RoleRequired expectedRoles (getAttributeValue ctx "role"))).
Proof.
  intros Hno. unfold requireRole.
  destruct (getAttributeValue ctx "role") as [role|]; [|reflexivity].
  destruct (Hno role eq_refl) as [-> | Hout]; [reflexivity|].
  destruct (includesStr expectedRoles role) eqn:Hin.
  - apply includesStr_In in Hin. contradiction.
  - rewrite andb_false_r. reflexivity.
Qed.

Lemma requireRole_accepts ctx expectedRoles role :
  requireRole ctx expectedRoles = Ok role ->
  getAttributeValue ctx "role" = Some role /\ role <> "" /\ In role expectedRoles.
Proof.
  unfold requireRole. destruct (getAttributeValue ctx "role") as [r|]; [|discriminate].
  destruct (String.eqb_spec r "") as [->|Hne]; cbn; [discriminate|].
  destruct (includesStr expectedRoles r) eqn:Hin; [|discriminate].
  intros; simplify_eq. apply includesStr_In in Hin. auto.
Qed.

Lemma run_starts_with_requireRole c ctx :
  exists rest : string -> M json, run c ctx = (lift (requireRole ctx (rolesOf c)) ≫= rest).
Proof. destruct c; cbn; unfold_methods; eexists; reflexivity. Qed.

(** ** The role test of every method *)

(** X1.  Every public method tests the caller's role before anything else.  A
    caller whose role attribute is missing, empty, or not among the roles the
    method names is refused with the role-required error and the state is as
    it was; a call that returns was made by a caller whose role is one of
    them. *)
Theorem every_method_tests_the_role_first c ctx st :
  ((forall role, getAttributeValue ctx "role" = Some role ->
                 role = "" \/ ~ In role (rolesOf c)) ->
   run c ctx st
   = (Err (AccessDenied (RoleRequired (rolesOf c) (getAttributeValue ctx "role"))), st))
  /\ (forall r st', run c ctx st = (Ok r, st') ->
        exists role, getAttributeValue ctx "role" = Some role
                     /\ role <> "" /\ In role (rolesOf c)).
Proof.
  destruct (run_starts_with_requireRole c ctx) as [rest ->]. split.
  - intros Hno. rewrite run_bind, run_lift, (requireRole_refuses _ _ Hno). reflexivity.
  - intros r st'. rewrite run_bind, run_lift.
    destruct (requireRole ctx (rolesOf c)) as [role|] eqn:Hrole; [|discriminate].
    intros _. exists role. exact (requireRole_accepts _ _ _ Hrole).
Qed.

Lemma every_method_tests_the_role_first_witness :
  run (DeletePatient "p1") doctorH1 (atStart ward)
  = (Err (AccessDenied (RoleRequired ["admin"] (Some "doctor"))), atStart ward).
Proof.
  apply (proj1 (every_method_tests_the_role_first (DeletePatient "p1") doctorH1 (atStart ward))).
  intros role Hrole. vm_compute in Hrole. simplify_eq. right. cbn. intros [H|[]]. discriminate H.
Defined.

(** ** The keys a call changes *)

(** X2.  A call changes the ledger at no key but the key of its own document
    (the record, policy, lab report or prescription it names) and the audit
    key of its transaction, whether it returns or raises. *)
Theorem call_changes_own_key_and_audit_key c ctx st k :
  targetKey c <> Some k -> k <> auditKey ctx ->
  world (snd (run c ctx st)) !! k = world st !! k.
Proof.
  intros Htarget Haudit. destruct (run c ctx st) as [r st'] eqn:Hrun. cbn.
  apply (run_agreeOutside c ctx st r st' Hrun). intros [H|H]; contradiction.
Qed.

Lemma call_changes_own_key_and_audit_key_witness :
  world (snd (run (UpdateMyRecord "p1" "ehr" (Some (JObj []))) patientP1 (atStart ward)))
    !! createCompositeKey "ehr" ["p10"]
  = world (atStart ward) !! createCompositeKey "ehr" ["p10"].
Proof.
  apply (call_changes_own_key_and_audit_key
           (UpdateMyRecord "p1" "ehr" (Some (JObj []))) patientP1 (atStart ward)).
  - vm_compute. discriminate.
  - vm_compute. discriminate.
Defined.

(** ** The documents and keys of a ledger the contract builds *)

(** X3.  No ledger the contract builds holds [null] or a primitive: every
    stored document is an object or an array, since each method assigns a
    property on what it parsed before writing it. *)
Theorem stored_documents_are_objects_or_arrays w k doc :
  reachable w -> w !! k = Some doc -> isContainer doc = true.
Proof. apply reachable_containers. Qed.

Lemma stored_documents_are_objects_or_arrays_witness :
  isContainer ehrP1 = true.
Proof.
  apply (stored_documents_are_objects_or_arrays ward (createCompositeKey "ehr" ["p1"]) ehrP1).
  - exact ward_reachable.
  - vm_compute. reflexivity.
Defined.

(** ** Following a method that returns *)

(** One step of a method that is known to return: the step returned too. *)
Ltac ok_step :=
  lazymatch goal with
  | |- (lift ?x ≫= _) _ = (Ok _, _) -> _ =>
      rewrite run_bind, run_lift; destruct x eqn:?; [|discriminate]
  | |- (_readState _ ?key ≫= _) ?st = (Ok _, _) -> _ =>
      rewrite run_bind, run_readState; destruct (world st !! key) eqn:?; [|discriminate]
  | |- (getState ?key ≫= _) ?st = (Ok _, _) -> _ =>
      rewrite run_bind, run_getState; destruct (world st !! key) eqn:?; try discriminate
  | |- (_checkAccessPolicy ?ctx ?p ?t ?perm ≫= _) ?st = (Ok _, _) -> _ =>
      rewrite run_bind;
      destruct (_checkAccessPolicy ctx p t perm st) as [[?|?] ?] eqn:?; [|discriminate]
  | |- (_logAudit ?ctx ?a ?d ≫= _) ?st = (Ok _, _) -> _ =>
      rewrite run_bind;
      destruct (_logAudit ctx a d st) as [[?|?] ?] eqn:?; [|discriminate]
  | |- (putState _ _ ≫= _) _ = (Ok _, _) -> _ => rewrite run_bind, run_putState
  | |- (deleteState _ ≫= _) _ = (Ok _, _) -> _ => rewrite run_bind; unfold deleteState at 1
  | |- (if ?b then _ else _) _ = (Ok _, _) -> _ => destruct b eqn:?; try discriminate
  end; cbv beta iota zeta.

Ltac ok_steps := unfold_methods; cbv zeta; repeat ok_step.

(** A call that returns has found the record it names. *)
Lemma returning_call_found_its_record c ctx st r st' k :
  run c ctx st = (Ok r, st') -> recordKey c = Some k -> is_Some (world st !! k).
Proof.
  destruct c; cbn; intros Hrun Hkey; simplify_eq; revert Hrun; ok_steps; intros _;
    try (eexists; first [eassumption | reflexivity]);
    match goal with
    | H : _checkAccessPolicy _ _ _ _ _ = _ |- _ =>
        apply checkAccessPolicy_Ok in H as (Hrec & _); eexists; exact Hrec
    end.
Qed.

Lemma revoke_found_its_policy ctx patientId role dataType st r st' :
  PatientContract.revokeAccess ctx patientId role dataType st = (Ok r, st') ->
  is_Some (world st !! createCompositeKey "policy" [patientId; role; dataType]).
Proof. ok_steps. intros _. eexists; first [eassumption | reflexivity]. Qed.

Lemma noncreating_target_stored c ctx st r st' k :
  run c ctx st = (Ok r, st') -> creates c = false -> targetKey c = Some k ->
  is_Some (world st !! k).
Proof.
  intros Hrun Hc Hk. destruct c; try discriminate; cbn in Hk; simplify_eq.
  - exact (returning_call_found_its_record _ _ _ _ _ _ Hrun eq_refl).
  - exact (returning_call_found_its_record _ _ _ _ _ _ Hrun eq_refl).
  - exact (revoke_found_its_policy _ _ _ _ _ _ _ Hrun).
  - exact (returning_call_found_its_record _ _ _ _ _ _ Hrun eq_refl).
  - exact (returning_call_found_its_record _ _ _ _ _ _ Hrun eq_refl).
Qed.

(** Every key of a ledger the contract builds has one of the five shapes. *)
Lemma reachable_keyShape w k : reachable w -> is_Some (w !! k) -> keyShape k = true.
Proof.
  intros Hreach. revert k. induction Hreach as [|w ctx c _ IH]; intros k.
  - rewrite lookup_empty. intros [doc Hdoc]. discriminate.
  - unfold invoke. destruct (run c ctx _) as [[a|e] s] eqn:Hrun; cbn; [|apply IH].
    intros Hk.
    destruct (decide (k = auditKey ctx)) as [->|Haudit]; [reflexivity|].
    destruct (decide (targetKey c = Some k)) as [Htarget|Hother].
    + destruct (creates c) eqn:Hc.
      * destruct c; try discriminate; cbn in Htarget; simplify_eq; reflexivity.
      * apply IH. exact (noncreating_target_stored _ _ _ _ _ _ Hrun Hc Htarget).
    + apply IH.
      assert (Hframe : world s !! k = w !! k)
        by (apply (run_agreeOutside c ctx _ _ _ Hrun k); intros [H|H]; contradiction).
      rewrite <- Hframe. exact Hk.
Qed.

Lemma builtPlainly_reachable w : builtPlainly w -> reachable w.
Proof. induction 1; [apply reachable_empty | apply reachable_invoke; assumption]. Qed.

Lemma keyShape_plain_type (k : Key) : keyShape k = true -> plain k.1 = true.
Proof.
  unfold keyShape. destruct k as [t [|a [|b [|c [|d rest]]]]]; cbn [fst snd]; try discriminate;
    intros H; repeat (apply orb_true_iff in H as [H|H]);
    apply String.eqb_eq in H; subst; reflexivity.
Qed.

(** The attributes of a key written by a plain call are plain. *)
Lemma builtPlainly_attributes w (k : Key) :
  builtPlainly w -> is_Some (w !! k) -> forallb plain k.2 = true.
Proof.
  intros Hbuilt. revert k. induction Hbuilt as [|w ctx c Hplain Htx Hbuilt IH]; intros k.
  - rewrite lookup_empty. intros [doc Hdoc]. discriminate.
  - unfold invoke. destruct (run c ctx _) as [[a|e] s] eqn:Hrun; cbn; [|apply IH].
    intros Hk.
    destruct (decide (k = auditKey ctx)) as [->|Haudit]; [cbn; rewrite Htx; reflexivity|].
    destruct (decide (targetKey c = Some k)) as [Htarget|Hother].
    + destruct (creates c) eqn:Hc.
      * destruct c; try discriminate; unfold plainCall in Hplain; cbn in Htarget;
          simplify_eq; unfold createCompositeKey; cbn [snd forallb];
          repeat match goal with
                 | H : _ && _ = true |- _ => apply andb_true_iff in H as [? ?]
                 end;
          repeat match goal with
                 | H : plain ?x = true |- context [plain ?x] => rewrite H
                 end;
          reflexivity.
      * apply IH. exact (noncreating_target_stored _ _ _ _ _ _ Hrun Hc Htarget).
    + apply IH.
      assert (Hframe : world s !! k = w !! k)
        by (apply (run_agreeOutside c ctx _ _ _ Hrun k); intros [H|H]; contradiction).
      rewrite <- Hframe. exact Hk.
Qed.

Lemma ward_builtPlainly : builtPlainly ward.
Proof.
  assert (Hw : ward
               = thenInvoke
                   (thenInvoke ∅ (CreatePatient "p1" "H1"
                                     (Some (JObj [("name", JStr "Ann");
                                                  ("hospitalID", JStr "H9");
                                                  ("sensitivity", JStr "high")]))) adminH1)
                   (CreatePatient "p10" "H1" (Some (JObj [("name", JStr "Bob")]))) adminH1)
    by (vm_compute; reflexivity).
  rewrite Hw. unfold thenInvoke.
  do 2 (apply builtPlainly_invoke; [reflexivity | reflexivity |]). apply builtPlainly_empty.
Qed.

Lemma wardGranted_builtPlainly : builtPlainly wardGranted.
Proof.
  assert (Hw : wardGranted
               = thenInvoke ward (GrantAccess "p1" "doctor" "ehr" "read" (Some "")) patientP1)
    by (vm_compute; reflexivity).
  rewrite Hw. apply builtPlainly_invoke; [reflexivity | reflexivity | apply ward_builtPlainly].
Qed.

(** X4.  On a ledger the contract builds by invocations whose identifiers and
    transaction ids are non-empty and free of U+0000, every key is plain and
    has one of five shapes: a record under [ehr] or an audit entry under one
    attribute, a lab report or a prescription under two, a policy under three.
    No method creates a document under any other key; the updates only
    rewrite a key that is there. *)
Theorem stored_keys_have_known_shapes w k :
  builtPlainly w -> is_Some (w !! k) -> keyShape k = true /\ plainKey k = true.
Proof.
  intros Hbuilt Hk.
  pose proof (reachable_keyShape w k (builtPlainly_reachable w Hbuilt) Hk) as Hshape.
  split; [exact Hshape|]. unfold plainKey.
  rewrite (keyShape_plain_type k Hshape), (builtPlainly_attributes w k Hbuilt Hk). reflexivity.
Qed.

Lemma stored_keys_have_known_shapes_witness :
  keyShape (createCompositeKey "policy" ["p1"; "doctor"; "ehr"]) = true
  /\ plainKey (createCompositeKey "policy" ["p1"; "doctor"; "ehr"]) = true.
Proof.
  apply (stored_keys_have_known_shapes wardGranted).
  - exact wardGranted_builtPlainly.
  - vm_compute. eexists. reflexivity.
Defined.

(** X5.  A call that names a patient record raises when that record is not
    stored: the patient's, doctor's and nurse's reads and updates for the
    record of the data type, the insurer's calls for the insurance record,
    the deletion and the lab report and prescription for the ehr record. *)
Theorem call_without_its_record_raises c ctx st k :
  recordKey c = Some k -> world st !! k = None -> failed (run c ctx st).
Proof.
  intros Hkey Hnone. destruct (run c ctx st) as [[r|e] st'] eqn:Hrun.
  - destruct (returning_call_found_its_record _ _ _ _ _ _ Hrun Hkey) as [doc Hdoc].
    congruence.
  - exists e, st'. reflexivity.
Qed.

Lemma call_without_its_record_raises_witness :
  failed (run (NurseReadPatientRecord "p7" "ehr") nurseH1 (atStart ward)).
Proof.
  apply (call_without_its_record_raises (NurseReadPatientRecord "p7" "ehr") nurseH1
           (atStart ward) (createCompositeKey "ehr" ["p7"])).
  - reflexivity.
  - vm_compute. reflexivity.
Defined.

(** X6.  No method creates an insurance record, so on every ledger the
    contract builds both methods of the insurance contract raise, whoever
    calls and whatever policies are stored. *)
Theorem insurance_data_is_never_served ctx patientId payload st :
  reachable (world st) ->
  failed (InsuranceContract.readInsuranceData ctx patientId st)
  /\ failed (InsuranceContract.updateInsuranceData ctx patientId payload st).
Proof.
  intros Hreach.
  assert (Hnone : world st !! createCompositeKey "insurance" [patientId] = None).
  { destruct (world st !! _) as [doc|] eqn:Hdoc; [|reflexivity].
    pose proof (reachable_keyShape _ _ Hreach (mk_is_Some _ _ Hdoc)) as Hshape.
    discriminate Hshape. }
  split.
  - destruct (InsuranceContract.readInsuranceData ctx patientId st) as [[r|e] st'] eqn:Hrun.
    + destruct (returning_call_found_its_record (ReadInsuranceData patientId)
                  _ _ _ _ _ Hrun eq_refl) as [doc Hdoc]. congruence.
    + exists e, st'. reflexivity.
  - destruct (InsuranceContract.updateInsuranceData ctx patientId payload st)
      as [[r|e] st'] eqn:Hrun.
    + destruct (returning_call_found_its_record (UpdateInsuranceData patientId payload)
                  _ _ _ _ _ Hrun eq_refl) as [doc Hdoc]. congruence.
    + exists e, st'. reflexivity.
Qed.

Lemma insurance_data_is_never_served_witness :
  failed (InsuranceContract.readInsuranceData insurerOnInsurance "p1" (atStart wardGranted))
  /\ failed (InsuranceContract.updateInsuranceData insurerOnInsurance "p1" (Some (JObj []))
               (atStart wardGranted)).
Proof.
  apply (insurance_data_is_never_served insurerOnInsurance "p1" (Some (JObj []))
           (atStart wardGranted)).
  exact wardGranted_reachable.
Defined.

(** X7.  On a ledger the contract builds by invocations with plain
    identifiers, the records that can be read or updated are the ehr records
    and the audit entries: for a plain patient id and any plain data type
    other than [ehr] and [audit], the patient's, the doctor's and the nurse's
    read and the patient's and the doctor's update raise.  In particular a lab
    report or a prescription, once created, is returned by no such call. *)
Theorem only_ehr_and_audit_documents_are_read c ctx st patientId dataType :
  builtPlainly (world st) ->
  plain patientId = true -> plain dataType = true ->
  dataType <> "ehr" -> dataType <> "audit" ->
  recordKey c = Some (createCompositeKey dataType [patientId]) ->
  failed (run c ctx st).
Proof.
  intros Hbuilt _ _ Hehr Haudit Hkey.
  destruct (run c ctx st) as [[r|e] st'] eqn:Hrun; [|exists e, st'; reflexivity].
  pose proof (returning_call_found_its_record _ _ _ _ _ _ Hrun Hkey) as Hsome.
  pose proof (reachable_keyShape _ _ (builtPlainly_reachable _ Hbuilt) Hsome) as Hshape.
  unfold keyShape in Hshape. cbn in Hshape. apply orb_true_iff in Hshape as [H|H].
  - apply String.eqb_eq in H. contradiction.
  - apply String.eqb_eq in H. contradiction.
Qed.

Lemma only_ehr_and_audit_documents_are_read_witness :
  failed (run (ReadMyRecord "p1" "lab") patientP1 (atStart ward)).
Proof.
  apply (only_ehr_and_audit_documents_are_read (ReadMyRecord "p1" "lab") patientP1
           (atStart ward) "p1" "lab").
  - exact ward_builtPlainly.
  - reflexivity.
  - reflexivity.
  - discriminate.
  - discriminate.
  - reflexivity.
Defined.

(** ** What a delegated access rests on *)

Lemma strictEqStr_true v s : strictEqStr v s = true <-> v = Some (JStr s).
Proof.
  unfold strictEqStr. destruct v as [[]|]; split; try discriminate.
  - intros H. apply String.eqb_eq in H. subst. reflexivity.
  - intros H. simplify_eq. apply String.eqb_refl.
Qed.

Lemma propOf_Ok name doc v : propOf name doc = Ok v -> v = prop name doc /\ doc <> JNull.
Proof. unfold propOf. destruct doc; intros; simplify_eq; split; (reflexivity || discriminate). Qed.

Lemma propOf_container name doc : isContainer doc = true -> propOf name doc = Ok (prop name doc).
Proof. destruct doc; try discriminate; reflexivity. Qed.

(** The clearance gate is open exactly when the second test of the check
    does not fire. *)
Lemma gate_open ctx record clearance :
  getAttr ctx "clearance" (Some "low") = Ok clearance ->
  strictEqStr (prop "sensitivity" record) "high" && negb (String.eqb clearance "high") = false ->
  ~ gateClosed ctx record.
Proof.
  unfold getAttr. intros Hc Hgate [Hs Hno]. rewrite Hs in Hgate. cbn in Hgate.
  destruct (getAttributeValue ctx "clearance") as [c|]; simplify_eq.
  destruct (String.eqb_spec clearance "high"); [congruence | discriminate].
Qed.

Lemma loop_grants_by_policy ctx patientId dataType permission h it st record st' :
  _checkAccessPolicy_loop ctx patientId dataType permission h it st = (Ok (Some record), st') ->
  exists k policy,
    (k, policy) ∈ it
    /\ permissionsInclude policy permission = Ok true
    /\ expiryLive policy (clock ctx) = Ok true
    /\ ~ gateClosed ctx record.
Proof.
  revert st. induction it as [|[k policy] rest IH]; intros st; cbn.
  - mrun. discriminate.
  - destruct (permissionsInclude policy permission) as [[|]|e0] eqn:Hp;
      [destruct (expiryLive policy (clock ctx)) as [[|]|e0] eqn:He|..];
      repeat (rewrite run_bind, run_lift; cbv beta iota); cbn [andb];
      try discriminate;
      try (intros Hrun; destruct (IH _ Hrun) as (k' & policy' & Hin & Hrest);
           exists k', policy'; split; [right; exact Hin | exact Hrest]).
    rewrite run_bind, run_readState.
    destruct (world st !! _) as [doc|]; [|discriminate]. cbv beta iota.
    rewrite run_bind, run_lift.
    destruct (propOf "hospitalID" doc) as [v|]; [|discriminate]. cbv beta iota.
    rewrite run_bind, run_lift.
    destruct (assertEquals v h RecordOtherHospital); [|discriminate]. cbv beta iota.
    rewrite run_bind, run_lift.
    destruct (getAttr ctx "clearance" (Some "low")) as [clearance|] eqn:Hc; [|discriminate].
    cbv beta iota.
    destruct (strictEqStr _ "high" && _) eqn:Hgate; [discriminate|].
    rewrite run_ret. intros Heq. simplify_eq.
    exists k, policy. split; [left|]. repeat split; try assumption.
    exact (gate_open _ _ _ Hc Hgate).
Qed.

Lemma checkAccessPolicy_sound ctx patientId dataType permission st record st' :
  _checkAccessPolicy ctx patientId dataType permission st = (Ok record, st') ->
  exists role h k policy,
    getAttributeValue ctx "role" = Some role
    /\ getAttributeValue ctx "hospitalID" = Some h
    /\ world st !! k = Some policy
    /\ matchesPartialKey "policy" [patientId; role; dataType] k
    /\ permissionsInclude policy permission = Ok true
    /\ expiryLive policy (clock ctx) = Ok true
    /\ world st !! createCompositeKey dataType [patientId] = Some record
    /\ prop "hospitalID" record = Some (JStr h)
    /\ ~ gateClosed ctx record
    /\ world st' = world st.
Proof.
  unfold _checkAccessPolicy. rewrite run_bind, run_lift.
  destruct (getAttr ctx "role" None) as [role|] eqn:Hr; [|discriminate].
  rewrite run_bind, run_lift.
  destruct (getAttr ctx "hospitalID" None) as [h|] eqn:Hh; [|discriminate].
  rewrite run_bind. cbn -[_checkAccessPolicy_loop]. rewrite run_bind.
  destruct (_checkAccessPolicy_loop _ _ _ _ _ _ _) as [[[found|]|e] s] eqn:Hloop;
    cbn; unfold mret, M_ret, throw; intros; simplify_eq.
  pose proof (loop_state _ _ _ _ _ _ _ _ _ Hloop) as [Hw _].
  pose proof (loop_grants _ _ _ _ _ _ _ _ _ Hloop) as [Hrec Hhosp].
  apply loop_grants_by_policy in Hloop as (k & policy & Hin & Hp & He & Hgate).
  apply rangeOf_elem in Hin as [Hk Hm]. cbn in *.
  exists role, h, k, policy.
  repeat split; try assumption; try (apply getAttr_Ok; assumption); apply Hm.
Qed.

(** X8.  The delegated check returns a record only when all of this holds: a
    policy stored for the patient, the caller's role and the data type lists
    the permission and has not expired; the record is the one stored for the
    patient and data type; its hospital is the caller's; and the clearance
    gate is open for the caller.  The check writes nothing. *)
Theorem delegated_access_is_backed_by_a_policy ctx patientId dataType permission st record st' :
  _checkAccessPolicy ctx patientId dataType permission st = (Ok record, st') ->
  exists role h k policy,
    getAttributeValue ctx "role" = Some role
    /\ getAttributeValue ctx "hospitalID" = Some h
    /\ world st !! k = Some policy
    /\ matchesPartialKey "policy" [patientId; role; dataType] k
    /\ permissionsInclude policy permission = Ok true
    /\ expiryLive policy (clock ctx) = Ok true
    /\ world st !! createCompositeKey dataType [patientId] = Some record
    /\ prop "hospitalID" record = Some (JStr h)
    /\ ~ gateClosed ctx record
    /\ world st' = world st.
Proof. apply checkAccessPolicy_sound. Qed.

Lemma delegated_access_is_backed_by_a_policy_witness :
  exists role h k policy,
    getAttributeValue doctorH1cleared "role" = Some role
    /\ getAttributeValue doctorH1cleared "hospitalID" = Some h
    /\ world (atStart wardGranted) !! k = Some policy
    /\ matchesPartialKey "policy" ["p1"; role; "ehr"] k
    /\ permissionsInclude policy "read" = Ok true
    /\ expiryLive policy (clock doctorH1cleared) = Ok true
    /\ world (atStart wardGranted) !! createCompositeKey "ehr" ["p1"] = Some ehrP1
    /\ prop "hospitalID" ehrP1 = Some (JStr h)
    /\ ~ gateClosed doctorH1cleared ehrP1
    /\ world (opened (atStart wardGranted)) = world (atStart wardGranted).
Proof.
  apply (delegated_access_is_backed_by_a_policy doctorH1cleared "p1" "ehr" "read"
           (atStart wardGranted) ehrP1 (opened (atStart wardGranted))).
  vm_compute. reflexivity.
Defined.

(** ** Deleting a patient *)

Lemma assertEquals_Ok actual expected message u :
  assertEquals actual expected message = Ok u -> actual = Some (JStr expected).
Proof.
  unfold assertEquals. destruct (strictEqStr actual expected) eqn:H; [|discriminate].
  intros _. apply strictEqStr_true. exact H.
Qed.

Lemma assertEquals_other actual expected message :
  actual <> Some (JStr expected) ->
  assertEquals actual expected message = Err (AccessDenied message).
Proof.
  intros Hne. unfold assertEquals. destruct (strictEqStr actual expected) eqn:H; [|reflexivity].
  apply strictEqStr_true in H. contradiction.
Qed.

(** X9.  deletePatient returns only for a caller whose hospitalID attribute
    equals the hospitalID of the stored ehr record; the record is then gone,
    and the state is the one after the deletion and the audit step. *)
Theorem deletePatient_removes_own_hospital_record ctx patientId st r st' :
  AdminContract.deletePatient ctx patientId st = (Ok r, st') ->
  let ehrKey := createCompositeKey "ehr" [patientId] in
  exists h old,
    getAttributeValue ctx "hospitalID" = Some h
    /\ world st !! ehrKey = Some old
    /\ prop "hospitalID" old = Some (JStr h)
    /\ world st' !! ehrKey = None
    /\ st' = logged ctx "deletePatient" (JObj [("patientId", JStr patientId)])
               {| world := delete ehrKey (world st); openIterators := openIterators st |}
    /\ r = success ("Patient " ++ patientId ++ " deleted").
Proof.
  ok_steps. rewrite run_ret. intros Heq. simplify_eq.
  match goal with H : _logAudit _ _ _ _ = _ |- _ => apply logAudit_logged in H; subst end.
  match goal with H : getAttr _ _ _ = Ok ?h |- _ => apply getAttr_Ok in H; exists h end.
  match goal with H : assertEquals _ _ _ = _ |- _ => apply assertEquals_Ok in H; subst end.
  match goal with H : propOf _ ?old = _ |- _ => apply propOf_Ok in H as [H _]; exists old end.
  repeat split; try assumption; try congruence.
  rewrite logged_frame by discriminate. apply lookup_delete_eq.
Qed.

Lemma deletePatient_removes_own_hospital_record_witness :
  exists h old,
    getAttributeValue adminH1 "hospitalID" = Some h
    /\ world (atStart ward) !! createCompositeKey "ehr" ["p1"] = Some old
    /\ prop "hospitalID" old = Some (JStr h)
    /\ world (atStart (delete (createCompositeKey "ehr" ["p1"]) ward))
         !! createCompositeKey "ehr" ["p1"] = None
    /\ atStart (delete (createCompositeKey "ehr" ["p1"]) ward)
       = logged adminH1 "deletePatient" (JObj [("patientId", JStr "p1")])
           {| world := delete (createCompositeKey "ehr" ["p1"]) (world (atStart ward));
              openIterators := openIterators (atStart ward) |}
    /\ success "Patient p1 deleted" = success ("Patient " ++ "p1" ++ " deleted").
Proof.
  apply (deletePatient_removes_own_hospital_record adminH1 "p1" (atStart ward)
           (success "Patient p1 deleted")
           (atStart (delete (createCompositeKey "ehr" ["p1"]) ward))).
  vm_compute. reflexivity.
Defined.

(** X10.  For an admin with a hospitalID attribute and a non-empty patient
    id, deletePatient of a patient that is not stored raises the
    state-not-found error, and deletePatient of a record whose hospitalID is
    not the admin's raises the other-hospital denial; the state is as it was
    in both cases. *)
Theorem deletePatient_refusals ctx patientId h st :
  getAttributeValue ctx "role" = Some "admin" ->
  getAttributeValue ctx "hospitalID" = Some h ->
  patientId <> "" ->
  let ehrKey := createCompositeKey "ehr" [patientId] in
  (world st !! ehrKey = None ->
   AdminContract.deletePatient ctx patientId st = (Err (StateNotFound ehrKey), st))
  /\ (forall old, world st !! ehrKey = Some old -> isContainer old = true ->
        prop "hospitalID" old <> Some (JStr h) ->
        AdminContract.deletePatient ctx patientId st
        = (Err (AccessDenied PatientOtherHospital), st)).
Proof.
  intros Hr Hh _ ehrKey. subst ehrKey.
  split; [intros Hnone | intros old Hold Hc Hne];
    unfold AdminContract.deletePatient;
    rewrite run_bind, run_lift,
      (requireRole_of_attribute ctx ["admin"] "admin" Hr ltac:(discriminate) eq_refl);
    cbv beta iota; rewrite run_bind, run_lift; unfold getAttr at 1; rewrite Hh;
    cbv beta iota zeta; rewrite run_bind, run_readState.
  - rewrite Hnone. reflexivity.
  - rewrite Hold. cbv beta iota.
    rewrite run_bind, run_lift, (propOf_container _ _ Hc). cbv beta iota.
    rewrite run_bind, run_lift, (assertEquals_other _ _ _ Hne). reflexivity.
Qed.

Lemma deletePatient_refusals_witness :
  AdminContract.deletePatient adminH2 "p7" (atStart ward)
  = (Err (StateNotFound (createCompositeKey "ehr" ["p7"])), atStart ward)
  /\ AdminContract.deletePatient adminH2 "p1" (atStart ward)
     = (Err (AccessDenied PatientOtherHospital), atStart ward).
Proof.
  split.
  - apply (deletePatient_refusals adminH2 "p7" "H2" (atStart ward)).
    + vm_compute. reflexivity.
    + vm_compute. reflexivity.
    + discriminate.
    + vm_compute. reflexivity.
  - apply (deletePatient_refusals adminH2 "p1" "H2" (atStart ward)) with (old := ehrP1).
    + vm_compute. reflexivity.
    + vm_compute. reflexivity.
    + discriminate.
    + vm_compute. reflexivity.
    + reflexivity.
    + vm_compute. discriminate.
Defined.

(** X11.  Off the audit channel, creating a patient with a non-empty id that
    was not stored and deleting it again, both by the hospital's admin, gives
    back the ledger as it was. *)
Theorem create_then_delete_restores_ledger ctx patientId h fields w :
  getAttributeValue ctx "role" = Some "admin" ->
  getAttributeValue ctx "hospitalID" = Some h ->
  channelID ctx <> "audit-channel" ->
  patientId <> "" ->
  w !! createCompositeKey "ehr" [patientId] = None ->
  let created := thenInvoke w (CreatePatient patientId h (Some (JObj fields))) ctx in
  is_Some (created !! createCompositeKey "ehr" [patientId])
  /\ thenInvoke created (DeletePatient patientId) ctx = w.
Proof.
  intros Hr Hh Hch _ Hnew created.
  destruct (createPatient_fresh ctx patientId h fields (atStart w) Hr Hh Hnew Hch)
    as (doc & r & Hcreate & Hdoc).
  assert (Hcreated : created = <[createCompositeKey "ehr" [patientId] := doc]> w).
  { unfold created, thenInvoke, invoke. cbn [run]. unfold atStart in Hcreate.
    rewrite Hcreate. reflexivity. }
  rewrite Hcreated. split.
  - rewrite lookup_insert_eq. eauto.
  - unfold thenInvoke, invoke. cbn [run]. unfold AdminContract.deletePatient.
    rewrite run_bind, run_lift,
      (requireRole_of_attribute ctx ["admin"] "admin" Hr ltac:(discriminate) eq_refl).
    cbv beta iota. rewrite run_bind, run_lift. unfold getAttr at 1. rewrite Hh.
    cbv beta iota zeta. rewrite run_bind, run_readState. cbn [world].
    rewrite lookup_insert_eq. cbv beta iota.
    assert (Hc : isContainer doc = true) by (destruct doc; try discriminate; reflexivity).
    rewrite run_bind, run_lift, (propOf_container _ _ Hc), Hdoc. cbv beta iota.
    rewrite run_bind, run_lift. unfold assertEquals. cbn [strictEqStr].
    rewrite String.eqb_refl. cbv beta iota.
    rewrite run_bind. unfold deleteState at 1. cbv beta iota.
    rewrite run_bind, run_logAudit by (intros Hch'; contradiction).
    rewrite logged_quiet by exact Hch. cbv beta iota. rewrite run_ret. cbn [snd world].
    apply delete_insert_id. exact Hnew.
Qed.

Lemma create_then_delete_restores_ledger_witness :
  is_Some (thenInvoke ward (CreatePatient "p2" "H1" (Some (JObj [("name", JStr "Cy")]))) adminH1
             !! createCompositeKey "ehr" ["p2"])
  /\ thenInvoke (thenInvoke ward (CreatePatient "p2" "H1" (Some (JObj [("name", JStr "Cy")])))
                   adminH1)
       (DeletePatient "p2") adminH1 = ward.
Proof.
  apply (create_then_delete_restores_ledger adminH1 "p2" "H1" [("name", JStr "Cy")] ward).
  - vm_compute. reflexivity.
  - vm_compute. reflexivity.
  - vm_compute. discriminate.
  - discriminate.
  - vm_compute. reflexivity.
Defined.

(** ** Listing the patients of a hospital *)

Lemma getAllPatients_loop_result h it st :
  Forall (fun kv : Key * json => isContainer kv.2 = true) it ->
  exists results,
    AdminContract.getAllPatients_loop h it st
    = (Ok results, {| world := world st; openIterators := Nat.pred (openIterators st) |})
    /\ forall record, record ∈ results
                      <-> exists k, (k, record) ∈ it /\ prop "hospitalID" record = Some (JStr h).
Proof.
  induction 1 as [|[k doc] rest Hdoc _ (results & Hrun & Hres)]; cbn [AdminContract.getAllPatients_loop].
  - exists []. split; [reflexivity|]. intros record. split.
    + intros Hin. inversion Hin.
    + intros (k & Hin & _). inversion Hin.
  - cbn in Hdoc. rewrite run_bind, run_lift, (propOf_container _ _ Hdoc). cbv beta iota.
    rewrite run_bind, Hrun. cbv beta iota. rewrite run_ret.
    eexists. split; [reflexivity|]. intros record.
    destruct (strictEqStr (prop "hospitalID" doc) h) eqn:Hh.
    + apply strictEqStr_true in Hh. rewrite elem_of_cons, Hres. split.
      * intros [-> | (k' & Hin & Hp)].
        -- exists k. split; [left | exact Hh].
        -- exists k'. split; [right; exact Hin | exact Hp].
      * intros (k' & Hin & Hp). apply elem_of_cons in Hin as [Heq | Hin].
        -- left. congruence.
        -- right. eauto.
    + rewrite Hres. split.
      * intros (k' & Hin & Hp). exists k'. split; [right; exact Hin | exact Hp].
      * intros (k' & Hin & Hp). apply elem_of_cons in Hin as [Heq | Hin].
        -- simplify_eq. apply strictEqStr_true in Hp. congruence.
        -- eauto.
Qed.

(** X12.  On a ledger the contract builds, getAllPatients called by an admin
    with a hospitalID attribute returns: its result holds exactly the
    documents stored under [ehr] whose hospitalID is the admin's, the iterator
    it opened is closed, and nothing is written but the audit entry, which
    carries the number of records returned. *)
Theorem getAllPatients_lists_own_hospital ctx h st :
  reachable (world st) ->
  getAttributeValue ctx "role" = Some "admin" ->
  getAttributeValue ctx "hospitalID" = Some h ->
  canLog ctx ->
  exists results,
    AdminContract.getAllPatients ctx st
    = (Ok (JArr results),
       logged ctx "getAllPatients" (JObj [("count", JNum (Z.of_nat (length results)))]) st)
    /\ forall record, record ∈ results <-> ofHospital h (world st) record.
Proof.
  intros Hreach Hr Hh Hcan. unfold AdminContract.getAllPatients.
  rewrite run_bind, run_lift,
    (requireRole_of_attribute ctx ["admin"] "admin" Hr ltac:(discriminate) eq_refl).
  cbv beta iota. rewrite run_bind, run_lift. unfold getAttr at 1. rewrite Hh. cbv beta iota.
  rewrite run_bind. unfold getStateByPartialCompositeKey at 1. cbv beta iota.
  destruct (getAllPatients_loop_result h (rangeOf "ehr" [] (world st))
              {| world := world st; openIterators := S (openIterators st) |})
    as (results & Hrun & Hres).
  { apply Forall_forall. intros [k doc] Hin. apply rangeOf_elem in Hin as [Hk _].
    exact (reachable_containers _ _ _ Hreach Hk). }
  rewrite run_bind, Hrun. cbv beta iota. cbn [world openIterators Nat.pred].
  rewrite run_bind, (run_logAudit _ _ _ _ Hcan). cbv beta iota. rewrite run_ret.
  exists results. split.
  - destruct st. reflexivity.
  - intros record. rewrite Hres. unfold ofHospital. split.
    + intros (k & Hin & Hp). apply rangeOf_elem in Hin as [Hk [Htag _]]. eauto.
    + intros (k & Htag & Hk & Hp). exists k. split; [|exact Hp].
      apply rangeOf_elem. split; [exact Hk|]. split; [exact Htag | apply prefix_nil].
Qed.

Lemma getAllPatients_lists_own_hospital_witness :
  exists results,
    AdminContract.getAllPatients adminH1 (atStart ward)
    = (Ok (JArr results),
       logged adminH1 "getAllPatients" (JObj [("count", JNum (Z.of_nat (length results)))])
         (atStart ward))
    /\ forall record, record ∈ results <-> ofHospital "H1" (world (atStart ward)) record.
Proof.
  apply (getAllPatients_lists_own_hospital adminH1 "H1" (atStart ward)).
  - exact ward_reachable.
  - vm_compute. reflexivity.
  - vm_compute. reflexivity.
  - intros Hch. vm_compute in Hch. discriminate Hch.
Defined.

(** ** Creating records *)

(** What the two assignments that follow [JSON.parse] make of an object
    payload: the hospital is set, the sensitivity defaults, and every other
    property is the payload's. *)
Lemma stamped_payload (hospital fallback : jsval) fields d1 d2 :
  setProp "hospitalID" hospital (JObj fields) = Ok d1 ->
  setProp "sensitivity" (jsOr (prop "sensitivity" d1) fallback) d1 = Ok d2 ->
  prop "hospitalID" d2 = hospital
  /\ prop "sensitivity" d2 = jsOr (assoc "sensitivity" fields) fallback
  /\ forall name, name <> "hospitalID" -> name <> "sensitivity" ->
                  prop name d2 = assoc name fields.
Proof.
  intros H1 H2.
  assert (Hobj : exists fields1, d1 = JObj fields1)
    by (unfold setProp in H1; simplify_eq; eauto).
  destruct Hobj as [fields1 ->].
  pose proof (setProp_object _ _ _ _ H1) as Hh.
  pose proof (setProp_object _ _ _ _ H2) as Hs.
  split; [|split].
  - rewrite (setProp_other _ _ _ _ "hospitalID" H2) by discriminate. exact Hh.
  - rewrite Hs. rewrite (setProp_other _ _ _ _ "sensitivity" H1) by discriminate. reflexivity.
  - intros name Hn1 Hn2.
    rewrite (setProp_other _ _ _ _ name H2) by congruence.
    rewrite (setProp_other _ _ _ _ name H1) by congruence. reflexivity.
Qed.

(** X13.  createPatient returns only when the hospitalID argument is the
    admin's hospitalID attribute and no ehr record is stored for the patient;
    it stores one document under the ehr key, and for an object payload that
    document carries the hospitalID of the call (whatever the payload said),
    the payload's sensitivity or ['low'] when that is missing or falsy, and
    the payload's other properties unchanged. *)
Theorem createPatient_stores_stamped_payload ctx patientId hospitalID payload st r st' :
  AdminContract.createPatient ctx patientId hospitalID payload st = (Ok r, st') ->
  let ehrKey := createCompositeKey "ehr" [patientId] in
  getAttributeValue ctx "hospitalID" = Some hospitalID
  /\ world st !! ehrKey = None
  /\ exists doc,
       st' = logged ctx "createPatient"
               (JObj [("patientId", JStr patientId); ("hospitalID", JStr hospitalID)])
               (withEntry ehrKey doc st)
       /\ world st' !! ehrKey = Some doc
       /\ forall fields, payload = Some (JObj fields) ->
            prop "hospitalID" doc = Some (JStr hospitalID)
            /\ prop "sensitivity" doc = jsOr (assoc "sensitivity" fields) (str "low")
            /\ forall name, name <> "hospitalID" -> name <> "sensitivity" ->
                            prop name doc = assoc name fields.
Proof.
  ok_steps. unfold _writeState. ok_steps. rewrite run_ret. intros Heq. simplify_eq.
  match goal with H : _logAudit _ _ _ _ = _ |- _ => apply logAudit_logged in H; subst end.
  match goal with H : getAttr _ _ _ = Ok ?h |- _ => apply getAttr_Ok in H end.
  match goal with H : assertEquals _ _ _ = _ |- _ =>
                    apply assertEquals_Ok in H; unfold str in H; simplify_eq end.
  split; [assumption|]. split; [reflexivity|].
  eexists. split; [reflexivity|]. split.
  - rewrite logged_frame by discriminate. apply lookup_insert_eq.
  - intros fields ->.
    match goal with H : JSON_parse _ = _ |- _ => cbn in H; simplify_eq end.
    eapply stamped_payload; eassumption.
Qed.

Lemma createPatient_stores_stamped_payload_witness :
  getAttributeValue adminH1 "hospitalID" = Some "H1"
  /\ world (atStart ward) !! createCompositeKey "ehr" ["p2"] = None
  /\ exists doc,
       atStart (<[createCompositeKey "ehr" ["p2"] :=
                    JObj [("hospitalID", JStr "H1"); ("sensitivity", JStr "low")]]> ward)
       = logged adminH1 "createPatient"
           (JObj [("patientId", JStr "p2"); ("hospitalID", JStr "H1")])
           (withEntry (createCompositeKey "ehr" ["p2"]) doc (atStart ward))
       /\ world (atStart (<[createCompositeKey "ehr" ["p2"] :=
                              JObj [("hospitalID", JStr "H1"); ("sensitivity", JStr "low")]]>
                            ward))
            !! createCompositeKey "ehr" ["p2"] = Some doc
       /\ forall fields, Some (JObj [("hospitalID", JStr "H9")]) = Some (JObj fields) ->
            prop "hospitalID" doc = Some (JStr "H1")
            /\ prop "sensitivity" doc = jsOr (assoc "sensitivity" fields) (str "low")
            /\ forall name, name <> "hospitalID" -> name <> "sensitivity" ->
                            prop name doc = assoc name fields.
Proof.
  apply (createPatient_stores_stamped_payload adminH1 "p2" "H1"
           (Some (JObj [("hospitalID", JStr "H9")])) (atStart ward)
           (success "Patient p2 created")).
  vm_compute. reflexivity.
Defined.

(** ** Lab reports and prescriptions *)

(** X14.  createLabReport returns only for a caller who holds a policy with
    the write permission on the patient's ehr record that is live at the
    caller's clock (its expiry falsy or above the clock), that record being
    of the caller's hospital, and only when no lab report is stored under the
    patient and lab id.  It stores one document under that key; for an object
    payload the document carries the caller's hospitalID, the payload's
    sensitivity or ['medium'] when that is missing or falsy, and the payload's
    other properties unchanged. *)
Theorem createLabReport_stores_stamped_payload ctx patientId labId payload st r st' :
  DoctorContract.createLabReport ctx patientId labId payload st = (Ok r, st') ->
  exists h k policy ehr doc,
    getAttributeValue ctx "hospitalID" = Some h
    /\ world st !! k = Some policy
    /\ matchesPartialKey "policy" [patientId; "doctor"; "ehr"] k
    /\ permissionsInclude policy "write" = Ok true
    /\ expiryLive policy (clock ctx) = Ok true
    /\ world st !! createCompositeKey "ehr" [patientId] = Some ehr
    /\ prop "hospitalID" ehr = Some (JStr h)
    /\ world st !! createCompositeKey "lab" [patientId; labId] = None
    /\ world st' !! createCompositeKey "lab" [patientId; labId] = Some doc
    /\ forall fields, payload = Some (JObj fields) ->
         prop "hospitalID" doc = Some (JStr h)
         /\ prop "sensitivity" doc = jsOr (assoc "sensitivity" fields) (str "medium")
         /\ forall name, name <> "hospitalID" -> name <> "sensitivity" ->
                         prop name doc = assoc name fields.
Proof.
  unfold DoctorContract.createLabReport. rewrite run_bind, run_lift.
  destruct (requireRole ctx ["doctor"]) as [role0|] eqn:Hrole; [|discriminate].
  apply requireRole_accepts in Hrole as (Hrole & _ & [<- | []]). cbv beta iota.
  ok_steps. unfold _writeState. ok_steps. rewrite run_ret. intros Heq. simplify_eq.
  match goal with H : _logAudit _ _ _ _ = _ |- _ => apply logAudit_logged in H; subst end.
  match goal with H : getAttr _ _ _ = Ok _ |- _ => apply getAttr_Ok in H; rename H into Hattr end.
  match goal with
  | H : _checkAccessPolicy _ _ _ _ _ = _ |- _ =>
      apply checkAccessPolicy_sound in H
        as (role & h & k & policy & Hr & Hh & Hk & Hm & Hp & He & Hrec & Hhosp & Hgate & Hw)
  end.
  match goal with H : world _ !! _ = None |- _ => rewrite Hw in H; rename H into Hfree end.
  assert (role = "doctor") as -> by congruence.
  exists h, k, policy. eexists _, _.
  repeat match goal with |- _ /\ _ => split end; try eassumption.
  - rewrite logged_frame by discriminate. apply lookup_insert_eq.
  - intros fields ->.
    match goal with H : JSON_parse _ = _ |- _ => cbn in H; simplify_eq end.
    match goal with
    | H1 : setProp "hospitalID" _ _ = _, H2 : setProp "sensitivity" _ _ = _ |- _ =>
        destruct (stamped_payload _ _ _ _ _ H1 H2) as (Ha & Hb & Hc)
    end.
    unfold str in Ha. repeat split; [congruence | exact Hb | exact Hc].
Qed.

Lemma createLabReport_stores_stamped_payload_witness :
  exists h k policy ehr doc,
    getAttributeValue doctorH1 "hospitalID" = Some h
    /\ world (atStart wardWritable) !! k = Some policy
    /\ matchesPartialKey "policy" ["p10"; "doctor"; "ehr"] k
    /\ permissionsInclude policy "write" = Ok true
    /\ expiryLive policy (clock doctorH1) = Ok true
    /\ world (atStart wardWritable) !! createCompositeKey "ehr" ["p10"] = Some ehr
    /\ prop "hospitalID" ehr = Some (JStr h)
    /\ world (atStart wardWritable) !! createCompositeKey "lab" ["p10"; "l1"] = None
    /\ world (afterDoctorWrote (createCompositeKey "lab" ["p10"; "l1"]) labStored)
         !! createCompositeKey "lab" ["p10"; "l1"] = Some doc
    /\ forall fields, Some labPayload = Some (JObj fields) ->
         prop "hospitalID" doc = Some (JStr h)
         /\ prop "sensitivity" doc = jsOr (assoc "sensitivity" fields) (str "medium")
         /\ forall name, name <> "hospitalID" -> name <> "sensitivity" ->
                         prop name doc = assoc name fields.
Proof.
  apply (createLabReport_stores_stamped_payload doctorH1 "p10" "l1" (Some labPayload)
           (atStart wardWritable) (success "Lab report l1 created for patient p10")
           (afterDoctorWrote (createCompositeKey "lab" ["p10"; "l1"]) labStored)).
  vm_compute. reflexivity.
Defined.

(** X15.  createPrescription returns only for a caller who holds a policy
    with the write permission on the patient's ehr record that is live at the
    caller's clock (its expiry falsy or above the clock), that record being
    of the caller's hospital, and only when no prescription is stored
    under the patient and prescription id.  It stores one document under that
    key; for an object payload the document carries the caller's hospitalID,
    the payload's sensitivity or ['low'] when that is missing or falsy, and
    the payload's other properties unchanged. *)
Theorem createPrescription_stores_stamped_payload ctx patientId prescriptionId payload st r st' :
  DoctorContract.createPrescription ctx patientId prescriptionId payload st = (Ok r, st') ->
  exists h k policy ehr doc,
    getAttributeValue ctx "hospitalID" = Some h
    /\ world st !! k = Some policy
    /\ matchesPartialKey "policy" [patientId; "doctor"; "ehr"] k
    /\ permissionsInclude policy "write" = Ok true
    /\ expiryLive policy (clock ctx) = Ok true
    /\ world st !! createCompositeKey "ehr" [patientId] = Some ehr
    /\ prop "hospitalID" ehr = Some (JStr h)
    /\ world st !! createCompositeKey "prescription" [patientId; prescriptionId] = None
    /\ world st' !! createCompositeKey "prescription" [patientId; prescriptionId] = Some doc
    /\ forall fields, payload = Some (JObj fields) ->
         prop "hospitalID" doc = Some (JStr h)
         /\ prop "sensitivity" doc = jsOr (assoc "sensitivity" fields) (str "low")
         /\ forall name, name <> "hospitalID" -> name <> "sensitivity" ->
                         prop name doc = assoc name fields.
Proof.
  unfold DoctorContract.createPrescription. rewrite run_bind, run_lift.
  destruct (requireRole ctx ["doctor"]) as [role0|] eqn:Hrole; [|discriminate].
  apply requireRole_accepts in Hrole as (Hrole & _ & [<- | []]). cbv beta iota.
  ok_steps. unfold _writeState. ok_steps. rewrite run_ret. intros Heq. simplify_eq.
  match goal with H : _logAudit _ _ _ _ = _ |- _ => apply logAudit_logged in H; subst end.
  match goal with H : getAttr _ _ _ = Ok _ |- _ => apply getAttr_Ok in H; rename H into Hattr end.
  match goal with
  | H : _checkAccessPolicy _ _ _ _ _ = _ |- _ =>
      apply checkAccessPolicy_sound in H
        as (role & h & k & policy & Hr & Hh & Hk & Hm & Hp & He & Hrec & Hhosp & Hgate & Hw)
  end.
  match goal with H : world _ !! _ = None |- _ => rewrite Hw in H; rename H into Hfree end.
  assert (role = "doctor") as -> by congruence.
  exists h, k, policy. eexists _, _.
  repeat match goal with |- _ /\ _ => split end; try eassumption.
  - rewrite logged_frame by discriminate. apply lookup_insert_eq.
  - intros fields ->.
    match goal with H : JSON_parse _ = _ |- _ => cbn in H; simplify_eq end.
    match goal with
    | H1 : setProp "hospitalID" _ _ = _, H2 : setProp "sensitivity" _ _ = _ |- _ =>
        destruct (stamped_payload _ _ _ _ _ H1 H2) as (Ha & Hb & Hc)
    end.
    unfold str in Ha. repeat split; [congruence | exact Hb | exact Hc].
Qed.

Lemma createPrescription_stores_stamped_payload_witness :
  exists h k policy ehr doc,
    getAttributeValue doctorH1 "hospitalID" = Some h
    /\ world (atStart wardWritable) !! k = Some policy
    /\ matchesPartialKey "policy" ["p10"; "doctor"; "ehr"] k
    /\ permissionsInclude policy "write" = Ok true
    /\ expiryLive policy (clock doctorH1) = Ok true
    /\ world (atStart wardWritable) !! createCompositeKey "ehr" ["p10"] = Some ehr
    /\ prop "hospitalID" ehr = Some (JStr h)
    /\ world (atStart wardWritable) !! createCompositeKey "prescription" ["p10"; "rx1"] = None
    /\ world (afterDoctorWrote (createCompositeKey "prescription" ["p10"; "rx1"])
                prescriptionStored)
         !! createCompositeKey "prescription" ["p10"; "rx1"] = Some doc
    /\ forall fields, Some prescriptionPayload = Some (JObj fields) ->
         prop "hospitalID" doc = Some (JStr h)
         /\ prop "sensitivity" doc = jsOr (assoc "sensitivity" fields) (str "low")
         /\ forall name, name <> "hospitalID" -> name <> "sensitivity" ->
                         prop name doc = assoc name fields.
Proof.
  apply (createPrescription_stores_stamped_payload doctorH1 "p10" "rx1"
           (Some prescriptionPayload) (atStart wardWritable)
           (success "Prescription rx1 created for patient p10")
           (afterDoctorWrote (createCompositeKey "prescription" ["p10"; "rx1"])
              prescriptionStored)).
  vm_compute. reflexivity.
Defined.

(** ** Granting and revoking *)

Lemma validPermissions_Forall (l : list string) :
  forallb (includesStr PatientContract.validPermissions) l = true
  <-> Forall (fun p => p = "read" \/ p = "write") l.
Proof.
  rewrite forallb_forall, List.Forall_forall. split; intros H p Hin.
  - apply H, includesStr_In in Hin.
    destruct Hin as [<- | [<- | []]]; auto.
  - apply includesStr_In. apply H in Hin.
    destruct Hin as [-> | ->]; cbn; auto.
Qed.

Lemma policyAllows_granted patientId role dataType permissions expiry permission :
  policyAllows (grantedPolicy patientId role dataType permissions expiry) permission = true
  <-> In permission (permissionArray permissions).
Proof.
  unfold policyAllows, grantedPolicy, permissionArray. cbn.
  rewrite existsb_exists. split.
  - intros (x & Hin & Heq). apply in_map_iff in Hin as (p & <- & Hin).
    cbn in Heq. apply String.eqb_eq in Heq. subst. exact Hin.
  - intros Hin. exists (JStr permission). split.
    + apply in_map. exact Hin.
    + cbn. apply String.eqb_refl.
Qed.

Lemma permissionsInclude_granted patientId role dataType permissions expiry permission :
  permissionsInclude (grantedPolicy patientId role dataType permissions expiry) permission
  = Ok (policyAllows (grantedPolicy patientId role dataType permissions expiry) permission).
Proof. reflexivity. Qed.

(** X16.  For the owning patient and a patient id, role and data type that
    are non-empty and free of U+0000, grantAccess splits the permissions text
    (of the ASCII range) at the commas and trims the pieces: if every piece
    is ["read"] or ["write"] a policy is stored under the key of patient,
    role and data type, its permissions are the pieces, and it allows exactly
    the pieces; if any piece is something else the call raises the
    invalid-permissions error and the state is as it was. *)
Theorem grantAccess_accepts_read_and_write_only ctx patientId role dataType permissions expiry st :
  getAttributeValue ctx "role" = Some "patient" ->
  Str.includes (callerID ctx) patientId = true ->
  plain patientId = true -> plain role = true -> plain dataType = true ->
  isAscii permissions = true ->
  let policyKey := createCompositeKey "policy" [patientId; role; dataType] in
  (Forall (fun p => p = "read" \/ p = "write") (permissionArray permissions) ->
   canLog ctx ->
   exists st' policy,
     PatientContract.grantAccess ctx patientId role dataType permissions expiry st
     = (Ok (success ("Access policy created for " ++ role ++ " on " ++ dataType)), st')
     /\ world st' !! policyKey = Some policy
     /\ prop "permissions" policy = Some (JArr (map JStr (permissionArray permissions)))
     /\ forall permission, policyAllows policy permission = true
                           <-> In permission (permissionArray permissions))
  /\ (~ Forall (fun p => p = "read" \/ p = "write") (permissionArray permissions) ->
      PatientContract.grantAccess ctx patientId role dataType permissions expiry st
      = (Err InvalidPermissions, st)).
Proof.
  intros Hr Hown _ _ _ _ policyKey. subst policyKey.
  split; [intros Hvalid Hcan | intros Hinvalid];
    unfold PatientContract.grantAccess;
    rewrite run_bind, run_lift,
      (requireRole_of_attribute ctx ["patient"] "patient" Hr ltac:(discriminate) eq_refl);
    cbv beta iota zeta; rewrite Hown; cbn [negb];
    fold (permissionArray permissions).
  - apply validPermissions_Forall in Hvalid. rewrite Hvalid. cbn [negb].
    unfold _writeState. rewrite run_bind, run_putState. cbv beta iota.
    rewrite run_bind, (run_logAudit _ _ _ _ Hcan). cbv beta iota. rewrite run_ret.
    eexists _, (grantedPolicy patientId role dataType permissions expiry).
    split; [reflexivity|]. split; [|split].
    + rewrite logged_frame by discriminate. apply lookup_insert_eq.
    + reflexivity.
    + intros permission. apply policyAllows_granted.
  - destruct (forallb _ (permissionArray permissions)) eqn:Hall; [|reflexivity].
    apply validPermissions_Forall in Hall. contradiction.
Qed.

Lemma grantAccess_accepts_read_and_write_only_witness :
  (exists st' policy,
     PatientContract.grantAccess patientP10 "p10" "doctor" "ehr" "read, write" None (atStart ward)
     = (Ok (success ("Access policy created for " ++ "doctor" ++ " on " ++ "ehr")), st')
     /\ world st' !! createCompositeKey "policy" ["p10"; "doctor"; "ehr"] = Some policy
     /\ prop "permissions" policy = Some (JArr (map JStr (permissionArray "read, write")))
     /\ forall permission,
          policyAllows policy permission = true <-> In permission (permissionArray "read, write"))
  /\ PatientContract.grantAccess patientP10 "p10" "doctor" "ehr" "read, admin" None (atStart ward)
     = (Err InvalidPermissions, atStart ward).
Proof.
  split.
  - apply (grantAccess_accepts_read_and_write_only patientP10 "p10" "doctor" "ehr" "read, write"
             None (atStart ward)); try reflexivity.
    + vm_compute. constructor; [left; reflexivity | constructor; [right; reflexivity | constructor]].
    + intros Hch. vm_compute in Hch. discriminate Hch.
  - apply (grantAccess_accepts_read_and_write_only patientP10 "p10" "doctor" "ehr" "read, admin"
             None (atStart ward)); try reflexivity.
    vm_compute. intros Hall. inversion Hall as [|? ? _ Hrest]; subst.
    inversion Hrest as [|? ? Hbad _]; subst. destruct Hbad as [Hbad|Hbad]; discriminate Hbad.
Defined.

(** ** The scan of one triple *)

(** A grant keeps the scan of its triple to the key of the triple. *)
Lemma grant_scansOnly ctx patientId role dataType permissions expiry st r st1 :
  scansOnly patientId role dataType (world st) ->
  PatientContract.grantAccess ctx patientId role dataType permissions expiry st = (Ok r, st1) ->
  scansOnly patientId role dataType (world st1).
Proof.
  intros Honly Hgrant k Hk Hm.
  apply grantAccess_Ok in Hgrant as (_ & _ & _ & Hframe).
  destruct (decide (k = createCompositeKey "policy" [patientId; role; dataType]))
    as [->|Hne]; [reflexivity|].
  destruct (decide (k = auditKey ctx)) as [->|Ha];
    [rewrite auditKey_not_scanned in Hm; discriminate Hm|].
  rewrite (Hframe k Hne Ha) in Hk. exact (Honly k Hk Hm).
Qed.

Lemma scansOnly_range (patientId role dataType : string) (w : gmap Key json) doc :
  scansOnly patientId role dataType w ->
  w !! createCompositeKey "policy" [patientId; role; dataType] = Some doc ->
  rangeOf "policy" [patientId; role; dataType] w
  = [(createCompositeKey "policy" [patientId; role; dataType], doc)].
Proof.
  intros Honly Hdoc. apply rangeOf_single; [exact Hdoc | split; reflexivity |].
  intros k Hk Hm. exact (scansOnly_matches _ _ _ _ _ Honly Hk Hm).
Qed.

Lemma scansOnly_no_range (patientId role dataType : string) (w : gmap Key json) :
  scansOnly patientId role dataType w ->
  w !! createCompositeKey "policy" [patientId; role; dataType] = None ->
  rangeOf "policy" [patientId; role; dataType] w = [].
Proof.
  intros Honly Hnone. apply rangeOf_none. intros k Hk Hm.
  rewrite (scansOnly_matches _ _ _ _ _ Honly Hk Hm), Hnone in Hk. destruct Hk; discriminate.
Qed.


(** X17.  A grant replaces the policy stored for the same patient, role and
    data type (all three non-empty and free of U+0000): on a ledger where the
    policy scan of that triple, as the stub serves it, meets no key but the
    triple's own, right after a grantAccess that returned, a permission that
    is not among the pieces of its permissions text is refused to every
    caller of that role, whatever the policy under that key had granted
    before. *)
Theorem grant_replaces_earlier_policy
    ctxP ctxR patientId role dataType permissions expiry permission h st r st1 :
  plain patientId = true -> plain role = true -> plain dataType = true ->
  scansOnly patientId role dataType (world st) ->
  PatientContract.grantAccess ctxP patientId role dataType permissions expiry st = (Ok r, st1) ->
  ~ In permission (permissionArray permissions) ->
  getAttributeValue ctxR "role" = Some role ->
  getAttributeValue ctxR "hospitalID" = Some h ->
  _checkAccessPolicy ctxR patientId dataType permission st1
  = (Err (AccessDenied (NoPolicyAccess permission role (callerID ctxR) dataType patientId)), st1).
Proof.
  intros _ _ _ Honly Hgrant Hout Hr Hh.
  pose proof (grant_scansOnly _ _ _ _ _ _ _ _ _ Honly Hgrant) as Honly1.
  apply grantAccess_Ok in Hgrant as (Hpolicy & _ & _ & _).
  apply lapsed_policies_deny with (h := h); [exact Hr | exact Hh |].
  rewrite (scansOnly_range _ _ _ _ _ Honly1 Hpolicy).
  constructor; [|constructor]. cbn. split.
  - apply grantedPolicy_isPolicyDoc.
  - left. destruct (policyAllows _ permission) eqn:Hallows; [|reflexivity].
    apply policyAllows_granted in Hallows. contradiction.
Qed.

Lemma grant_replaces_earlier_policy_witness :
  _checkAccessPolicy doctorH1 "p10" "ehr" "write"
    (atStart (thenInvoke wardWritable (GrantAccess "p10" "doctor" "ehr" "read" None) patientP10))
  = (Err (AccessDenied (NoPolicyAccess "write" "doctor" (callerID doctorH1) "ehr" "p10")),
     atStart (thenInvoke wardWritable (GrantAccess "p10" "doctor" "ehr" "read" None) patientP10)).
Proof.
  apply (grant_replaces_earlier_policy patientP10 doctorH1 "p10" "doctor" "ehr" "read" None
           "write" "H1" (atStart wardWritable)
           (success "Access policy created for doctor on ehr")).
  - reflexivity.
  - reflexivity.
  - reflexivity.
  - apply scansOnly_by_entries. vm_compute. reflexivity.
  - vm_compute. reflexivity.
  - vm_compute. intros [H|[]]. discriminate H.
  - vm_compute. reflexivity.
  - vm_compute. reflexivity.
Defined.

(** ** The expiry of a granted policy *)

Lemma permissionsInclude_listed patientId role dataType permissions expiry permission :
  In permission (permissionArray permissions) ->
  permissionsInclude (grantedPolicy patientId role dataType permissions expiry) permission
  = Ok true.
Proof.
  intros Hin. rewrite permissionsInclude_granted. f_equal.
  apply policyAllows_granted. exact Hin.
Qed.

(** X18.  A policy granted with an expiry text that parses to a number other
    than 0 and within the integers a JavaScript number holds exactly (at most
    2^53 in absolute value) holds strictly before that instant and not from
    it on.  The patient id, role and data type being non-empty and free of
    U+0000, and the policy scan of the triple, as the stub serves it, meeting
    no key but the triple's own, the delegated check of a listed permission
    returns the record while [Date.now()] is below the expiry, and answers
    that there is no policy once it is not (the record being stored, of the
    caller's hospital and within the caller's clearance). *)
Theorem granted_policy_holds_until_its_expiry
    ctxP ctxR patientId role dataType permissions e n permission h st r st1 record :
  plain patientId = true -> plain role = true -> plain dataType = true ->
  scansOnly patientId role dataType (world st) ->
  PatientContract.grantAccess ctxP patientId role dataType permissions (Some e) st = (Ok r, st1) ->
  Str.parseInt e = Some n -> n <> 0 -> - 2 ^ 53 <= n <= 2 ^ 53 ->
  In permission (permissionArray permissions) ->
  getAttributeValue ctxR "role" = Some role ->
  getAttributeValue ctxR "hospitalID" = Some h ->
  world st1 !! createCompositeKey dataType [patientId] = Some record ->
  prop "hospitalID" record = Some (JStr h) ->
  (prop "sensitivity" record = Some (JStr "high") ->
   getAttributeValue ctxR "clearance" = Some "high") ->
  (clock ctxR < n ->
   _checkAccessPolicy ctxR patientId dataType permission st1 = (Ok record, opened st1))
  /\ (n <= clock ctxR ->
      _checkAccessPolicy ctxR patientId dataType permission st1
      = (Err (AccessDenied (NoPolicyAccess permission role (callerID ctxR) dataType patientId)),
         st1)).
Proof.
  intros _ _ _ Honly Hgrant Hparse Hn _ Hin Hr Hh Hrec Hhosp Hgate.
  assert (Hne : e <> "") by (intros ->; vm_compute in Hparse; discriminate Hparse).
  pose proof (grant_scansOnly _ _ _ _ _ _ _ _ _ Honly Hgrant) as Honly1.
  apply grantAccess_Ok in Hgrant as (Hpolicy & _ & _ & _).
  pose proof (scansOnly_range _ _ _ _ _ Honly1 Hpolicy) as Hrange.
  assert (Hexp : prop "expiry" (grantedPolicy patientId role dataType permissions (Some e))
                 = Some (JNum n)).
  { cbn. destruct (String.eqb_spec e ""); [contradiction|]. rewrite Hparse. reflexivity. }
  split; intros Hclock.
  - eapply checkAccessPolicy_single; try eassumption.
    + apply permissionsInclude_listed. exact Hin.
    + unfold expiryLive. rewrite Hexp. cbn [truthy negb].
      destruct (Z.eqb_spec n 0); [contradiction|]. cbn [negb].
      destruct (Z.ltb_spec (clock ctxR) n); [reflexivity | lia].
  - apply lapsed_policies_deny with (h := h); [exact Hr | exact Hh |].
    rewrite Hrange. constructor; [|constructor]. cbn [snd]. split.
    + apply grantedPolicy_isPolicyDoc.
    + right. exists n. unfold policyExpiry. rewrite Hexp. auto.
Qed.

Lemma granted_policy_holds_until_its_expiry_witness :
  let st1 := atStart (thenInvoke ward (GrantAccess "p10" "doctor" "ehr" "read"
                                         (Some "1800000000000")) patientP10) in
  _checkAccessPolicy doctorH1 "p10" "ehr" "read" st1 = (Ok ehrP10, opened st1)
  /\ _checkAccessPolicy doctorH1Late "p10" "ehr" "read" st1
     = (Err (AccessDenied (NoPolicyAccess "read" "doctor" (callerID doctorH1Late) "ehr" "p10")),
        st1).
Proof.
  intros st1. split.
  - apply (granted_policy_holds_until_its_expiry patientP10 doctorH1 "p10" "doctor" "ehr" "read"
             "1800000000000" 1800000000000 "read" "H1" (atStart ward)
             (success "Access policy created for doctor on ehr") st1 ehrP10);
      try (vm_compute; reflexivity).
    + apply scansOnly_by_entries. vm_compute. reflexivity.
    + discriminate.
    + lia.
    + left. reflexivity.
    + vm_compute. discriminate.
  - apply (granted_policy_holds_until_its_expiry patientP10 doctorH1Late "p10" "doctor" "ehr"
             "read" "1800000000000" 1800000000000 "read" "H1" (atStart ward)
             (success "Access policy created for doctor on ehr") st1 ehrP10);
      try (vm_compute; reflexivity).
    + apply scansOnly_by_entries. vm_compute. reflexivity.
    + discriminate.
    + lia.
    + left. reflexivity.
    + vm_compute. discriminate.
    + vm_compute. discriminate.
Defined.



(** ** Revoking what is not granted *)

(** X20.  For the owning patient and a patient id, role and data type that
    are non-empty and free of U+0000, revokeAccess of a policy that is not
    stored raises the state-not-found error for the policy key and leaves the
    state as it was; in particular a second revokeAccess, right after one that
    returned, raises it. *)
Theorem revokeAccess_needs_a_stored_policy ctx patientId role dataType st :
  getAttributeValue ctx "role" = Some "patient" ->
  Str.includes (callerID ctx) patientId = true ->
  plain patientId = true -> plain role = true -> plain dataType = true ->
  let policyKey := createCompositeKey "policy" [patientId; role; dataType] in
  (world st !! policyKey = None ->
   PatientContract.revokeAccess ctx patientId role dataType st
   = (Err (StateNotFound policyKey), st))
  /\ (forall r st', PatientContract.revokeAccess ctx patientId role dataType st = (Ok r, st') ->
        PatientContract.revokeAccess ctx patientId role dataType st'
        = (Err (StateNotFound policyKey), st')).
Proof.
  intros Hr Hown _ _ _ policyKey. subst policyKey.
  assert (Hmissing : forall s,
             world s !! createCompositeKey "policy" [patientId; role; dataType] = None ->
             PatientContract.revokeAccess ctx patientId role dataType s
             = (Err (StateNotFound (createCompositeKey "policy" [patientId; role; dataType])), s)).
  { intros s Hnone. unfold PatientContract.revokeAccess.
    rewrite run_bind, run_lift,
      (requireRole_of_attribute ctx ["patient"] "patient" Hr ltac:(discriminate) eq_refl).
    cbv beta iota zeta. rewrite Hown. cbn [negb].
    rewrite run_bind, run_readState, Hnone. reflexivity. }
  split; [apply Hmissing|].
  intros r st' Hrevoke. apply Hmissing.
  apply revokeAccess_Ok in Hrevoke as [Hgone _]. exact Hgone.
Qed.

Lemma revokeAccess_needs_a_stored_policy_witness :
  let revoked := PatientContract.revokeAccess patientP1 "p1" "doctor" "ehr" (atStart wardGranted) in
  PatientContract.revokeAccess patientP10 "p10" "doctor" "ehr" (atStart ward)
  = (Err (StateNotFound (createCompositeKey "policy" ["p10"; "doctor"; "ehr"])), atStart ward)
  /\ fst revoked = Ok (success "Access policy for doctor on ehr revoked")
  /\ PatientContract.revokeAccess patientP1 "p1" "doctor" "ehr" (snd revoked)
     = (Err (StateNotFound (createCompositeKey "policy" ["p1"; "doctor"; "ehr"])), snd revoked).
Proof.
  intros revoked. split; [|split].
  - apply (revokeAccess_needs_a_stored_policy patientP10 "p10" "doctor" "ehr" (atStart ward));
      vm_compute; reflexivity.
  - vm_compute. reflexivity.
  - apply (revokeAccess_needs_a_stored_policy patientP1 "p1" "doctor" "ehr" (atStart wardGranted))
      with (r := success "Access policy for doctor on ehr revoked");
      vm_compute; reflexivity.
Defined.

(** ** Reads that need no policy *)

(** X21.  The nurse's read consults no policy: for a caller with the role
    nurse and a patient id and data type that are non-empty and free of
    U+0000, a record stored with the caller's hospitalID and within the
    caller's clearance is returned as stored, whatever the policy index holds,
    and nothing is written but the audit entry.  When no such record is
    stored the read raises the state-not-found error. *)
Theorem nurse_reads_own_hospital_without_policy ctx patientId dataType h st :
  getAttributeValue ctx "role" = Some "nurse" ->
  getAttributeValue ctx "hospitalID" = Some h ->
  canLog ctx ->
  plain patientId = true -> plain dataType = true ->
  let recordKey := createCompositeKey dataType [patientId] in
  (forall record,
     world st !! recordKey = Some record ->
     prop "hospitalID" record = Some (JStr h) ->
     (prop "sensitivity" record = Some (JStr "high") ->
      getAttributeValue ctx "clearance" = Some "high") ->
     NurseContract.readPatientRecord ctx patientId dataType st
     = (Ok record,
        logged ctx "readPatientRecord"
          (JObj [("patientId", JStr patientId); ("dataType", JStr dataType);
                 ("nurseId", JStr (callerID ctx))]) st))
  /\ (world st !! recordKey = None ->
      NurseContract.readPatientRecord ctx patientId dataType st
      = (Err (StateNotFound recordKey), st)).
Proof.
  intros Hr Hh Hcan _ _ recordKey. subst recordKey.
  split; [intros record Hrec Hhosp Hgate | intros Hnone];
    unfold NurseContract.readPatientRecord;
    rewrite run_bind, run_lift,
      (requireRole_of_attribute ctx ["nurse"] "nurse" Hr ltac:(discriminate) eq_refl);
    cbv beta iota zeta; rewrite run_bind, run_readState.
  - rewrite Hrec. cbv beta iota.
    rewrite run_bind, run_lift. unfold getAttr at 1. rewrite Hh. cbv beta iota.
    assert (Hc : isContainer record = true) by (destruct record; try discriminate; reflexivity).
    rewrite run_bind, run_lift, (propOf_container _ _ Hc), Hhosp. cbv beta iota.
    rewrite run_bind, run_lift. unfold assertEquals. cbn [strictEqStr].
    rewrite String.eqb_refl. cbv beta iota.
    rewrite run_bind, run_lift.
    assert (Hopen : exists clearance,
               getAttr ctx "clearance" (Some "low") = Ok clearance
               /\ strictEqStr (prop "sensitivity" record) "high"
                  && negb (String.eqb clearance "high") = false).
    { destruct (strictEqStr (prop "sensitivity" record) "high") eqn:Hs.
      - apply strictEqStr_true in Hs. unfold getAttr. rewrite (Hgate Hs). eauto.
      - unfold getAttr. destruct (getAttributeValue ctx "clearance"); eauto. }
    destruct Hopen as (clearance & -> & ->). cbv beta iota.
    rewrite run_bind, (run_logAudit _ _ _ _ Hcan). cbv beta iota. rewrite run_ret. reflexivity.
  - rewrite Hnone. reflexivity.
Qed.

Lemma nurse_reads_own_hospital_without_policy_witness :
  NurseContract.readPatientRecord nurseH1 "p10" "ehr" (atStart ward)
  = (Ok ehrP10,
     logged nurseH1 "readPatientRecord"
       (JObj [("patientId", JStr "p10"); ("dataType", JStr "ehr");
              ("nurseId", JStr (callerID nurseH1))]) (atStart ward))
  /\ NurseContract.readPatientRecord nurseH1 "p7" "ehr" (atStart ward)
     = (Err (StateNotFound (createCompositeKey "ehr" ["p7"])), atStart ward).
Proof.
  split.
  - apply (nurse_reads_own_hospital_without_policy nurseH1 "p10" "ehr" "H1" (atStart ward));
      try (vm_compute; reflexivity).
    + intros Hch. vm_compute in Hch. discriminate Hch.
    + intros Hs. vm_compute in Hs. discriminate Hs.
  - apply (nurse_reads_own_hospital_without_policy nurseH1 "p7" "ehr" "H1" (atStart ward));
      try (vm_compute; reflexivity).
    intros Hch. vm_compute in Hch. discriminate Hch.
Defined.

(** X22.  The patient's own read tests ownership only: for a caller with the
    role patient whose identifier contains the patient id, the patient id and
    the data type being non-empty and free of U+0000, the stored document is
    returned as it is, whatever its hospital and sensitivity and whatever the
    caller's attributes, and nothing is written but the audit entry; when
    nothing is stored under the key the read raises the state-not-found
    error. *)
Theorem readMyRecord_returns_the_stored_document ctx patientId dataType st :
  getAttributeValue ctx "role" = Some "patient" ->
  Str.includes (callerID ctx) patientId = true ->
  canLog ctx ->
  plain patientId = true -> plain dataType = true ->
  let recordKey := createCompositeKey dataType [patientId] in
  PatientContract.readMyRecord ctx patientId dataType st
  = match world st !! recordKey with
    | Some record =>
        (Ok record,
         logged ctx "readMyRecord"
           (JObj [("patientId", JStr patientId); ("dataType", JStr dataType)]) st)
    | None => (Err (StateNotFound recordKey), st)
    end.
Proof.
  intros Hr Hown Hcan _ _ recordKey. subst recordKey. unfold PatientContract.readMyRecord.
  rewrite run_bind, run_lift,
    (requireRole_of_attribute ctx ["patient"] "patient" Hr ltac:(discriminate) eq_refl).
  cbv beta iota zeta. rewrite Hown. cbn [negb].
  rewrite run_bind, run_readState.
  destruct (world st !! _) as [record|]; [|reflexivity]. cbv beta iota.
  rewrite run_bind, (run_logAudit _ _ _ _ Hcan). reflexivity.
Qed.

Lemma readMyRecord_returns_the_stored_document_witness :
  PatientContract.readMyRecord patientP1 "p1" "ehr" (atStart ward)
  = (Ok ehrP1,
     logged patientP1 "readMyRecord"
       (JObj [("patientId", JStr "p1"); ("dataType", JStr "ehr")]) (atStart ward))
  /\ PatientContract.readMyRecord patientP1 "p1" "lab" (atStart ward)
     = (Err (StateNotFound (createCompositeKey "lab" ["p1"])), atStart ward).
Proof.
  split.
  - apply (readMyRecord_returns_the_stored_document patientP1 "p1" "ehr" (atStart ward));
      try (vm_compute; reflexivity).
    intros Hch. vm_compute in Hch. discriminate Hch.
  - apply (readMyRecord_returns_the_stored_document patientP1 "p1" "lab" (atStart ward));
      try (vm_compute; reflexivity).
    intros Hch. vm_compute in Hch. discriminate Hch.
Defined.

(** ** What an update keeps and what it takes from the payload *)

Lemma jsOr_same v : jsOr v v = v.
Proof. unfold jsOr. destruct (truthy v); reflexivity. Qed.

Lemma setProp_on_object name v fields doc' :
  setProp name v (JObj fields) = Ok doc' -> exists fields', doc' = JObj fields'.
Proof. unfold setProp. intros; simplify_eq. eauto. Qed.

Lemma logged_lookup ctx action details st key doc :
  key <> auditKey ctx ->
  world (logged ctx action details (withEntry key doc st)) !! key = Some doc.
Proof. intros Hkey. rewrite logged_frame by exact Hkey. apply lookup_insert_eq. Qed.

(** X23.  The doctor's update changes the [medical] property and nothing
    else: the document written back has the payload's [medical] (the stored
    one when the payload's is missing or falsy) and, for every other property
    name, what the stored record had; whatever else the payload carries is
    dropped. *)
Theorem doctor_update_changes_medical_only ctx patientId dataType payload st r st' :
  DoctorContract.updatePatientRecord ctx patientId dataType payload st = (Ok r, st') ->
  createCompositeKey dataType [patientId] <> auditKey ctx ->
  exists old new updated,
    payload = Some updated
    /\ world st !! createCompositeKey dataType [patientId] = Some old
    /\ world st' !! createCompositeKey dataType [patientId] = Some new
    /\ prop "medical" new = jsOr (prop "medical" updated) (prop "medical" old)
    /\ forall name, name <> "medical" -> prop name new = prop name old.
Proof.
  unfold DoctorContract.updatePatientRecord. rewrite run_bind, run_lift.
  destruct (requireRole ctx ["doctor"]); [|discriminate]. cbv beta iota zeta.
  rewrite run_bind.
  destruct (_checkAccessPolicy _ _ _ _ _) as [[old|] s0] eqn:Hcheck; [|discriminate].
  apply checkAccessPolicy_Ok in Hcheck as (Hold & Hw0 & h & Hh).
  assert (Hobj : exists fields, old = JObj fields)
    by (destruct old; try discriminate; eauto).
  destruct Hobj as [fields ->]. cbv beta iota.
  rewrite run_bind, run_lift.
  destruct payload as [updated|]; [|discriminate]. cbn [JSON_parse]. cbv beta iota.
  rewrite run_bind, run_lift.
  destruct (propOf "medical" updated) as [updatedMedical|] eqn:Hm; [|discriminate].
  apply propOf_Ok in Hm as [-> _]. cbv beta iota.
  rewrite run_bind, run_lift. cbn [spread].
  destruct (setProp "medical" _ (JObj fields)) as [d1|] eqn:H1; [|discriminate].
  destruct (setProp_on_object _ _ _ _ H1) as [f1 ->]. cbv beta iota.
  rewrite run_bind, run_lift.
  destruct (setProp "hospitalID" _ (JObj f1)) as [d2|] eqn:H2; [|discriminate].
  destruct (setProp_on_object _ _ _ _ H2) as [f2 ->]. cbv beta iota.
  rewrite run_bind, run_lift.
  destruct (setProp "sensitivity" _ (JObj f2)) as [d3|] eqn:H3; [|discriminate].
  cbv beta iota. unfold _writeState. rewrite run_bind, run_putState. cbv beta iota.
  rewrite run_bind.
  destruct (_logAudit _ _ _ _) as [[u|e] s] eqn:Hlog; [|discriminate].
  apply logAudit_logged in Hlog. subst s. rewrite run_ret.
  intros Heq Hkey. simplify_eq.
  pose proof (setProp_object _ _ _ _ H1) as Hmed.
  pose proof (setProp_object _ _ _ _ H2) as Hhos.
  pose proof (setProp_object _ _ _ _ H3) as Hsen.
  assert (Hsame : prop "sensitivity" (JObj f2) = prop "sensitivity" (JObj fields)).
  { rewrite (setProp_other _ _ _ _ "sensitivity" H2) by discriminate.
    apply (setProp_other _ _ _ _ "sensitivity" H1). discriminate. }
  exists (JObj fields), d3, updated.
  split; [reflexivity|]. split; [exact Hold|]. split; [apply logged_lookup; exact Hkey|]. split.
  - rewrite (setProp_other _ _ _ _ "medical" H3) by discriminate.
    rewrite (setProp_other _ _ _ _ "medical" H2) by discriminate. exact Hmed.
  - intros name Hname.
    destruct (String.eqb_spec name "sensitivity") as [->|Hns].
    { rewrite Hsen, Hsame. apply jsOr_same. }
    rewrite (setProp_other _ _ _ _ name H3) by congruence.
    destruct (String.eqb_spec name "hospitalID") as [->|Hnh]; [exact Hhos|].
    rewrite (setProp_other _ _ _ _ name H2) by congruence.
    apply (setProp_other _ _ _ _ name H1). congruence.
Qed.

Lemma doctor_update_changes_medical_only_witness :
  exists old new updated,
    Some (JObj [("medical", JStr "flu"); ("name", JStr "Eve"); ("sensitivity", JStr "high")])
    = Some updated
    /\ world (atStart wardWritable) !! createCompositeKey "ehr" ["p10"] = Some old
    /\ world (afterDoctorWrote (createCompositeKey "ehr" ["p10"])
                (JObj [("name", JStr "Bob"); ("hospitalID", JStr "H1");
                       ("sensitivity", JStr "low"); ("medical", JStr "flu")]))
         !! createCompositeKey "ehr" ["p10"] = Some new
    /\ prop "medical" new = jsOr (prop "medical" updated) (prop "medical" old)
    /\ forall name, name <> "medical" -> prop name new = prop name old.
Proof.
  apply (doctor_update_changes_medical_only doctorH1 "p10" "ehr"
           (Some (JObj [("medical", JStr "flu"); ("name", JStr "Eve");
                        ("sensitivity", JStr "high")]))
           (atStart wardWritable) (success "ehr for patient p10 updated")).
  - vm_compute. reflexivity.
  - vm_compute. discriminate.
Defined.

(** X24.  The patient's update replaces the document: for an object payload
    the document written back is the payload with the stored record's
    hospitalID, with the payload's sensitivity (the stored one when the
    payload's is missing or falsy), and with no other property of the stored
    record. *)
Theorem patient_update_replaces_the_document ctx patientId dataType fields st r st' :
  PatientContract.updateMyRecord ctx patientId dataType (Some (JObj fields)) st = (Ok r, st') ->
  createCompositeKey dataType [patientId] <> auditKey ctx ->
  exists old new,
    world st !! createCompositeKey dataType [patientId] = Some old
    /\ world st' !! createCompositeKey dataType [patientId] = Some new
    /\ prop "hospitalID" new = prop "hospitalID" old
    /\ prop "sensitivity" new = jsOr (assoc "sensitivity" fields) (prop "sensitivity" old)
    /\ forall name, name <> "hospitalID" -> name <> "sensitivity" ->
                    prop name new = assoc name fields.
Proof.
  ok_steps. unfold _writeState. ok_steps. rewrite run_ret. intros Heq Hkey. simplify_eq.
  match goal with H : _logAudit _ _ _ _ = _ |- _ => apply logAudit_logged in H; subst end.
  match goal with H : JSON_parse _ = _ |- _ => cbn in H; simplify_eq end.
  match goal with H : propOf _ _ = _ |- _ => apply propOf_Ok in H as [-> _] end.
  match goal with
  | H1 : setProp "hospitalID" _ _ = _, H2 : setProp "sensitivity" _ _ = _ |- _ =>
      destruct (stamped_payload _ _ _ _ _ H1 H2) as (Ha & Hb & Hc)
  end.
  eexists _, _. split; [reflexivity|]. split; [apply logged_lookup; exact Hkey|].
  repeat split; assumption.
Qed.

Lemma patient_update_replaces_the_document_witness :
  exists old new,
    world (atStart ward) !! createCompositeKey "ehr" ["p1"] = Some old
    /\ world (atStart (<[createCompositeKey "ehr" ["p1"] :=
                           JObj [("sensitivity", JStr "low"); ("hospitalID", JStr "H1")]]> ward))
         !! createCompositeKey "ehr" ["p1"] = Some new
    /\ prop "hospitalID" new = prop "hospitalID" old
    /\ prop "sensitivity" new
       = jsOr (assoc "sensitivity" [("sensitivity", JStr "low")]) (prop "sensitivity" old)
    /\ forall name, name <> "hospitalID" -> name <> "sensitivity" ->
                    prop name new = assoc name [("sensitivity", JStr "low")].
Proof.
  apply (patient_update_replaces_the_document patientP1 "p1" "ehr" [("sensitivity", JStr "low")]
           (atStart ward) (success "ehr for patient p1 updated")).
  - vm_compute. reflexivity.
  - vm_compute. discriminate.
Defined.

(** ** Calls that file no audit entry *)

(** X25.  The methods of the insurance contract never file an audit entry:
    they raise unless the channel is the insurance channel, and [_logAudit]
    writes on the audit channel only, so every entry under [audit] is as it
    was, whether the call returns or raises. *)
Theorem insurance_calls_file_no_audit_entry ctx patientId payload st (k : Key) :
  k.1 = "audit" ->
  world (snd (InsuranceContract.readInsuranceData ctx patientId st)) !! k = world st !! k
  /\ world (snd (InsuranceContract.updateInsuranceData ctx patientId payload st)) !! k
     = world st !! k.
Proof.
  intros Hk. destruct (String.eqb_spec (channelID ctx) "audit-channel") as [Hch|Hch].
  - unfold InsuranceContract.readInsuranceData, InsuranceContract.updateInsuranceData.
    rewrite !run_bind, !run_lift, Hch. cbn [String.eqb Ascii.eqb Bool.eqb negb].
    destruct (requireRole ctx ["insurance"]); split; reflexivity.
  - split.
    + destruct (InsuranceContract.readInsuranceData ctx patientId st) as [r st'] eqn:Hrun.
      exact (audited_call_keeps_trail ctx Hch (ReadInsuranceData patientId) eq_refl
               ltac:(discriminate) st r st' Hrun k Hk).
    + destruct (InsuranceContract.updateInsuranceData ctx patientId payload st)
        as [r st'] eqn:Hrun.
      exact (audited_call_keeps_trail ctx Hch (UpdateInsuranceData patientId payload) eq_refl
               ltac:(discriminate) st r st' Hrun k Hk).
Qed.

Lemma insurance_calls_file_no_audit_entry_witness :
  world (snd (InsuranceContract.readInsuranceData insurerOnInsurance "p1" (atStart trail)))
    !! createCompositeKey "audit" ["tx-0"]
  = world (atStart trail) !! createCompositeKey "audit" ["tx-0"]
  /\ world (snd (InsuranceContract.updateInsuranceData insurerOnInsurance "p1" (Some (JObj []))
                   (atStart trail)))
       !! createCompositeKey "audit" ["tx-0"]
     = world (atStart trail) !! createCompositeKey "audit" ["tx-0"].
Proof.
  apply (insurance_calls_file_no_audit_entry insurerOnInsurance "p1" (Some (JObj []))
           (atStart trail) (createCompositeKey "audit" ["tx-0"])).
  reflexivity.
Defined.

(** ** The timestamp of an audit entry *)

(** X26.  The timestamp an audit entry carries is the low 32-bit word of the
    transaction seconds, read as a signed integer: it lies in
    [[-2^31, 2^31)], it differs from the seconds by a multiple of [2^32], and
    it is the seconds themselves while they are below [2^31]. *)
Theorem audit_timestamp_is_the_low_word ctx seconds action details :
  exists t,
    prop "timestamp" (auditData ctx seconds action details) = Some (JNum t)
    /\ - 2 ^ 31 <= t < 2 ^ 31
    /\ (t - seconds) mod 2 ^ 32 = 0
    /\ (- 2 ^ 31 <= seconds < 2 ^ 31 -> t = seconds).
Proof.
  exists (low32 seconds). split; [reflexivity|]. unfold low32.
  pose proof (Z.mod_pos_bound (seconds + 2 ^ 31) (2 ^ 32) ltac:(lia)) as Hbound.
  pose proof (Z.div_mod (seconds + 2 ^ 31) (2 ^ 32) ltac:(lia)) as Hdiv.
  split; [lia|]. split.
  - replace ((seconds + 2 ^ 31) mod 2 ^ 32 - 2 ^ 31 - seconds)
      with (- ((seconds + 2 ^ 31) / 2 ^ 32) * 2 ^ 32) by lia.
    apply Z.mod_mul. lia.
  - intros Hrange. rewrite Z.mod_small by lia. lia.
Qed.

(** ** The policy index holds what grantAccess wrote *)

#[export] Instance addsGrants_preorder : PreOrder addsGrants.
Proof.
  split.
  - intros w k doc Hk _. left. exact Hk.
  - intros w1 w2 w3 H12 H23 k doc Hk Hlen.
    destruct (H23 k doc Hk Hlen) as [H2 | Hg]; [exact (H12 k doc H2 Hlen) | right; exact Hg].
Qed.

Lemma addsGrants_putState_record key doc :
  length key.2 <> 3%nat -> changes addsGrants (putState key doc).
Proof.
  intros Hkey st r st' Heq k doc' Hk Hlen. unfold putState in Heq. simplify_eq. cbn in Hk.
  destruct (decide (key = k)) as [<-|Hne]; [contradiction|].
  rewrite lookup_insert_ne in Hk by exact Hne. left. exact Hk.
Qed.

Lemma addsGrants_putState_policy key doc :
  writtenByGrant key doc -> changes addsGrants (putState key doc).
Proof.
  intros Hdoc st r st' Heq k doc' Hk Hlen. unfold putState in Heq. simplify_eq. cbn in Hk.
  destruct (decide (key = k)) as [<-|Hne].
  - rewrite lookup_insert_eq in Hk. simplify_eq. right. exact Hdoc.
  - rewrite lookup_insert_ne in Hk by exact Hne. left. exact Hk.
Qed.

Lemma addsGrants_deleteState key : changes addsGrants (deleteState key).
Proof.
  intros st r st' Heq k doc' Hk Hlen. unfold deleteState in Heq. simplify_eq. cbn in Hk.
  destruct (decide (key = k)) as [<-|Hne].
  - rewrite lookup_delete_eq in Hk. discriminate.
  - rewrite lookup_delete_ne in Hk by exact Hne. left. exact Hk.
Qed.

Lemma grant_document_written patientId role dataType permissions expiry :
  Forall (fun p => p = "read" \/ p = "write") (permissionArray permissions) ->
  writtenByGrant (createCompositeKey "policy" [patientId; role; dataType])
    (grantedPolicy patientId role dataType permissions expiry).
Proof.
  intros Hall. exists patientId, role, dataType, (permissionArray permissions).
  repeat match goal with |- _ /\ _ => split end; try reflexivity; [exact Hall|].
  unfold grantedPolicy, PatientContract.expiryField.
  destruct expiry as [e|]; [|left; reflexivity].
  destruct (e =? "")%string; [left; reflexivity|].
  destruct (Str.parseInt e) as [n|]; [right; exists n; reflexivity | left; reflexivity].
Qed.

Lemma run_addsGrants c ctx : changes addsGrants (run c ctx).
Proof.
  destruct c; cbn; unfold_methods;
    walk ltac:(first
      [ apply addsGrants_deleteState
      | apply addsGrants_putState_record; cbn; lia
      | match goal with
        | |- changes _ (if negb (forallb ?f ?l) then _ else _) =>
            destruct (forallb f l) eqn:?; cbn [negb]
        end
      | apply addsGrants_putState_policy;
        apply (grant_document_written _ _ _ _ _);
        apply validPermissions_Forall; eassumption ]).
Qed.

Lemma reachable_policies w k doc :
  reachable w -> w !! k = Some doc -> length k.2 = 3%nat -> writtenByGrant k doc.
Proof.
  intros Hreach. revert k doc. induction Hreach as [|w ctx c _ IH]; intros k doc.
  - rewrite lookup_empty. discriminate.
  - unfold invoke. destruct (run c ctx _) as [[a|e] s] eqn:Hrun; cbn; [|apply IH].
    intros Hk Hlen. destruct (run_addsGrants c ctx _ _ _ Hrun k doc Hk Hlen) as [Hold | Hg].
    + exact (IH k doc Hold Hlen).
    + exact Hg.
Qed.

(** X27.  On a ledger the contract builds by invocations whose identifiers
    and transaction ids are non-empty and free of U+0000, every document
    stored under a key of object type [policy] has the shape grantAccess
    writes for that key: its patientId, role and dataType are the attributes
    of the key, its permissions are an array of texts each of which is
    ["read"] or ["write"], and its expiry is a number or [null]. *)
Theorem stored_policies_were_written_by_grantAccess w k doc :
  builtPlainly w -> w !! k = Some doc -> k.1 = "policy" -> writtenByGrant k doc.
Proof.
  intros Hbuilt Hk Htag. pose proof (builtPlainly_reachable w Hbuilt) as Hreach.
  apply (reachable_policies w k doc Hreach Hk).
  pose proof (reachable_keyShape w k Hreach (mk_is_Some _ _ Hk)) as Hshape.
  unfold keyShape in Hshape. rewrite Htag in Hshape.
  destruct k.2 as [|a [|b [|c [|d rest]]]]; try discriminate. reflexivity.
Qed.

Lemma stored_policies_were_written_by_grantAccess_witness :
  writtenByGrant (createCompositeKey "policy" ["p1"; "doctor"; "ehr"]) policyDoctorsReadP1.
Proof.
  apply (stored_policies_were_written_by_grantAccess wardGranted).
  - exact wardGranted_builtPlainly.
  - vm_compute. reflexivity.
  - reflexivity.
Defined.

(** ** Creating a lab report or a prescription twice *)

(** X28.  createLabReport raises when a lab report is stored under the
    patient and lab id, and createPrescription raises when a prescription is
    stored under the patient and prescription id; for a doctor whom the
    delegated check lets write the ehr record the error is the already-exists
    one, raised after the check, and the ledger is as it was. *)
Theorem doctor_cannot_create_twice ctx patientId id payload st old :
  (world st !! createCompositeKey "lab" [patientId; id] = Some old ->
   failed (DoctorContract.createLabReport ctx patientId id payload st)
   /\ forall record s,
        getAttributeValue ctx "role" = Some "doctor" ->
        _checkAccessPolicy ctx patientId "ehr" "write" st = (Ok record, s) ->
        DoctorContract.createLabReport ctx patientId id payload st
        = (Err (AlreadyExists "Lab report" [id; patientId]), s)
        /\ world s = world st)
  /\ (world st !! createCompositeKey "prescription" [patientId; id] = Some old ->
      failed (DoctorContract.createPrescription ctx patientId id payload st)
      /\ forall record s,
           getAttributeValue ctx "role" = Some "doctor" ->
           _checkAccessPolicy ctx patientId "ehr" "write" st = (Ok record, s) ->
           DoctorContract.createPrescription ctx patientId id payload st
           = (Err (AlreadyExists "Prescription" [id; patientId]), s)
           /\ world s = world st).
Proof.
  split; intros Hold; split.
  - destruct (DoctorContract.createLabReport ctx patientId id payload st)
      as [[r|e] st'] eqn:Hrun; [|exists e, st'; reflexivity].
    revert Hrun. ok_steps.
    match goal with H : _checkAccessPolicy _ _ _ _ _ = _ |- _ =>
                      apply checkAccessPolicy_Ok in H as (_ & Hw & _) end.
    match goal with H : world _ !! _ = None |- _ => rewrite Hw in H; congruence end.
  - intros record s Hr Hcheck. unfold DoctorContract.createLabReport.
    rewrite run_bind, run_lift,
      (requireRole_of_attribute ctx ["doctor"] "doctor" Hr ltac:(discriminate) eq_refl).
    cbv beta iota. rewrite run_bind, Hcheck. cbv beta iota.
    apply checkAccessPolicy_sound in Hcheck
      as (role & h & k & policy & _ & Hh & _ & _ & _ & _ & _ & _ & _ & Hw).
    rewrite run_bind, run_lift. unfold getAttr. rewrite Hh. cbv beta iota zeta.
    rewrite run_bind, run_getState, Hw, Hold. split; reflexivity.
  - destruct (DoctorContract.createPrescription ctx patientId id payload st)
      as [[r|e] st'] eqn:Hrun; [|exists e, st'; reflexivity].
    revert Hrun. ok_steps.
    match goal with H : _checkAccessPolicy _ _ _ _ _ = _ |- _ =>
                      apply checkAccessPolicy_Ok in H as (_ & Hw & _) end.
    match goal with H : world _ !! _ = None |- _ => rewrite Hw in H; congruence end.
  - intros record s Hr Hcheck. unfold DoctorContract.createPrescription.
    rewrite run_bind, run_lift,
      (requireRole_of_attribute ctx ["doctor"] "doctor" Hr ltac:(discriminate) eq_refl).
    cbv beta iota. rewrite run_bind, Hcheck. cbv beta iota.
    apply checkAccessPolicy_sound in Hcheck
      as (role & h & k & policy & _ & Hh & _ & _ & _ & _ & _ & _ & _ & Hw).
    rewrite run_bind, run_lift. unfold getAttr. rewrite Hh. cbv beta iota zeta.
    rewrite run_bind, run_getState, Hw, Hold. split; reflexivity.
Qed.

Lemma doctor_cannot_create_twice_witness :
  let st := atStart (<[createCompositeKey "lab" ["p10"; "l1"] := labStored]> wardWritable) in
  DoctorContract.createLabReport doctorH1 "p10" "l1" (Some labPayload) st
  = (Err (AlreadyExists "Lab report" ["l1"; "p10"]), opened st)
  /\ world (opened st) = world st.
Proof.
  intros st.
  assert (Hold : world st !! createCompositeKey "lab" ["p10"; "l1"] = Some labStored)
    by (vm_compute; reflexivity).
  apply (proj2 (proj1 (doctor_cannot_create_twice doctorH1 "p10" "l1" (Some labPayload)
                         st labStored) Hold) ehrP10).
  - vm_compute. reflexivity.
  - vm_compute. reflexivity.
Defined.

(** ** The audit channel without a timestamp *)

(** X29.  On the audit channel, when the transaction carries no timestamp,
    no audited method commits anything: every such invocation raises and the
    ledger is as it was. *)
Theorem no_timestamp_no_commit ctx c w :
  channelID ctx = "audit-channel" -> txSeconds ctx = None -> audited c = true ->
  exists e, invoke (run c ctx) w = (Err e, w).
Proof.
  intros Hch Hts Hc. unfold invoke.
  destruct (run c ctx _) as [[r|e] s] eqn:Hrun; [|exists e; reflexivity].
  destruct (audited_call_files_entry c ctx Hc _ _ _ Hrun Hch) as (seconds & _ & _ & Hsome & _).
  congruence.
Qed.

Lemma no_timestamp_no_commit_witness :
  exists e, invoke (run (CreatePatient "p2" "H1" (Some (JObj []))) auditorNoClock) ward
            = (Err e, ward).
Proof.
  apply (no_timestamp_no_commit auditorNoClock (CreatePatient "p2" "H1" (Some (JObj []))) ward).
  - reflexivity.
  - reflexivity.
  - reflexivity.
Defined.

(** ** The clearance gate and the hospital test of the reads *)

(** C1, as the code has it.  When the stored record is of high sensitivity and
    the caller's clearance attribute is not [high], the delegated check, the
    doctor's and the nurse's readPatientRecord and the insurer's
    readInsuranceData all raise and return no record, on any ledger.  The
    nurse's error is an access-denied one when the caller carries a hospital
    attribute; the error of the delegated paths is an access-denied one when
    the caller carries a role and a hospital attribute and every document the
    policy scan meets, read by the strings of the keys as the stub serves it,
    is a policy document.  (The patient's readMyRecord makes
    no clearance test.) *)
Theorem high_sensitivity_needs_clearance ctx patientId dataType permission st record :
  world st !! createCompositeKey dataType [patientId] = Some record ->
  prop "sensitivity" record = Some (JStr "high") ->
  getAttributeValue ctx "clearance" <> Some "high" ->
  (failed (_checkAccessPolicy ctx patientId dataType permission st)
   /\ failed (DoctorContract.readPatientRecord ctx patientId dataType st)
   /\ failed (NurseContract.readPatientRecord ctx patientId dataType st)
   /\ (dataType = "insurance" ->
       failed (InsuranceContract.readInsuranceData ctx patientId st)))
  /\ (is_Some (getAttributeValue ctx "hospitalID") ->
      denied (NurseContract.readPatientRecord ctx patientId dataType st))
  /\ (scanWellFormed ctx patientId dataType (world st) ->
      is_Some (getAttributeValue ctx "role") ->
      is_Some (getAttributeValue ctx "hospitalID") ->
      denied (_checkAccessPolicy ctx patientId dataType permission st)
      /\ denied (DoctorContract.readPatientRecord ctx patientId dataType st)
      /\ (dataType = "insurance" ->
          denied (InsuranceContract.readInsuranceData ctx patientId st))).
Proof.
  intros Hrec Hs Hc.
  assert (Hblock : gateClosed ctx record
                   \/ forall h, getAttributeValue ctx "hospitalID" = Some h ->
                                otherHospital h record)
    by (left; split; assumption).
  pose proof (checkAccessPolicy_refuses ctx patientId dataType st record Hrec Hblock permission)
    as [Hc1 Hc2].
  pose proof (doctor_read_refused ctx patientId dataType st record Hrec Hblock) as [Hd1 Hd2].
  pose proof (nurse_read_refused ctx patientId dataType st record Hrec Hblock) as [Hn1 Hn2].
  pose proof (insurance_read_refused ctx patientId dataType st record Hrec Hblock) as Hi.
  split; [|split].
  - repeat split; try assumption. intros Hdt. exact (proj1 (Hi Hdt)).
  - exact Hn2.
  - intros Hscan Hrole Hhosp.
    repeat split; auto. intros Hdt. exact (proj2 (Hi Hdt) Hhosp Hscan).
Qed.

Lemma high_sensitivity_needs_clearance_witness :
  denied (DoctorContract.readPatientRecord doctorH1 "p1" "ehr" (atStart wardGranted))
  /\ denied (InsuranceContract.readInsuranceData insurerOnInsurance "p1" (atStart insured)).
Proof.
  split.
  - refine (proj1 (proj2 (proj2 (proj2 (high_sensitivity_needs_clearance
              doctorH1 "p1" "ehr" "read" (atStart wardGranted) ehrP1 _ _ _)) _ _ _))).
    + vm_compute. reflexivity.
    + reflexivity.
    + vm_compute. discriminate.
    + apply scanWellFormed_by_entries. intros role Hrole.
      vm_compute in Hrole. injection Hrole as <-. vm_compute. reflexivity.
    + vm_compute. eauto.
    + vm_compute. eauto.
  - refine (proj2 (proj2 (proj2 (proj2 (high_sensitivity_needs_clearance
              insurerOnInsurance "p1" "insurance" "read" (atStart insured) insuranceP1 _ _ _))
              _ _ _)) eq_refl).
    + vm_compute. reflexivity.
    + reflexivity.
    + vm_compute. discriminate.
    + apply scanWellFormed_by_entries. intros role Hrole.
      vm_compute in Hrole. injection Hrole as <-. vm_compute. reflexivity.
    + vm_compute. eauto.
    + vm_compute. eauto.
Defined.

(** The claim as written, which lists the patient's readMyRecord among the
    operations: patient p1, who carries no clearance, reads the own record of
    high sensitivity. *)
Lemma high_sensitivity_needs_clearance_counterexample :
  ~ (forall ctx patientId dataType st record,
       world st !! createCompositeKey dataType [patientId] = Some record ->
       prop "sensitivity" record = Some (JStr "high") ->
       getAttributeValue ctx "clearance" <> Some "high" ->
       denied (PatientContract.readMyRecord ctx patientId dataType st)).
Proof.
  intros H.
  destruct (H patientP1 "p1" "ehr" (atStart ward) ehrP1) as [why [s Hs]].
  - vm_compute. reflexivity.
  - reflexivity.
  - vm_compute. discriminate.
  - vm_compute in Hs. discriminate Hs.
Qed.

(** C2, as the code has it.  When the caller's hospital attribute differs from
    the hospital stored in the record, the delegated check, the doctor's and
    the nurse's readPatientRecord and the insurer's readInsuranceData all raise
    and return no record, whatever policies are stored, on any ledger.  The
    nurse's error is an access-denied one; the error of the delegated paths is
    an access-denied one when the caller carries a role and every document
    the policy scan meets, read by the strings of the keys as the stub serves
    it, is a policy document.  (The patient's readMyRecord
    makes no hospital test.) *)
Theorem other_hospital_is_refused ctx patientId dataType permission st record H1 H2 :
  getAttributeValue ctx "hospitalID" = Some H1 ->
  world st !! createCompositeKey dataType [patientId] = Some record ->
  prop "hospitalID" record = Some (JStr H2) ->
  H1 <> H2 ->
  (failed (_checkAccessPolicy ctx patientId dataType permission st)
   /\ failed (DoctorContract.readPatientRecord ctx patientId dataType st)
   /\ (dataType = "insurance" ->
       failed (InsuranceContract.readInsuranceData ctx patientId st)))
  /\ denied (NurseContract.readPatientRecord ctx patientId dataType st)
  /\ (scanWellFormed ctx patientId dataType (world st) ->
      is_Some (getAttributeValue ctx "role") ->
      denied (_checkAccessPolicy ctx patientId dataType permission st)
      /\ denied (DoctorContract.readPatientRecord ctx patientId dataType st)
      /\ (dataType = "insurance" ->
          denied (InsuranceContract.readInsuranceData ctx patientId st))).
Proof.
  intros Hh Hrec Hstored Hne.
  assert (Hblock : gateClosed ctx record
                   \/ forall h, getAttributeValue ctx "hospitalID" = Some h ->
                                otherHospital h record).
  { right. intros h Hh'. exists H2. split; [assumption | congruence]. }
  pose proof (checkAccessPolicy_refuses ctx patientId dataType st record Hrec Hblock permission)
    as [Hc1 Hc2].
  pose proof (doctor_read_refused ctx patientId dataType st record Hrec Hblock) as [Hd1 Hd2].
  pose proof (nurse_read_refused ctx patientId dataType st record Hrec Hblock) as [Hn1 Hn2].
  pose proof (insurance_read_refused ctx patientId dataType st record Hrec Hblock) as Hi.
  assert (Hsome : is_Some (getAttributeValue ctx "hospitalID")) by (rewrite Hh; eauto).
  split; [|split].
  - repeat split; auto. intros Hdt. exact (proj1 (Hi Hdt)).
  - auto.
  - intros Hscan Hrole.
    repeat split; auto. intros Hdt. exact (proj2 (Hi Hdt) Hsome Hscan).
Qed.

Lemma other_hospital_is_refused_witness :
  denied (DoctorContract.readPatientRecord doctorH2cleared "p1" "ehr" (atStart wardGranted))
  /\ denied (InsuranceContract.readInsuranceData insurerH2cleared "p1" (atStart insured))
  /\ denied (NurseContract.readPatientRecord nurseH2 "p1" "ehr" (atStart wardGranted)).
Proof.
  split; [|split].
  - refine (proj1 (proj2 (proj2 (proj2 (other_hospital_is_refused
              doctorH2cleared "p1" "ehr" "read" (atStart wardGranted) ehrP1 "H2" "H1" _ _ _ _))
              _ _))).
    + vm_compute. reflexivity.
    + vm_compute. reflexivity.
    + reflexivity.
    + discriminate.
    + apply scanWellFormed_by_entries. intros role Hrole.
      vm_compute in Hrole. injection Hrole as <-. vm_compute. reflexivity.
    + vm_compute. eauto.
  - refine (proj2 (proj2 (proj2 (proj2 (other_hospital_is_refused
              insurerH2cleared "p1" "insurance" "read" (atStart insured) insuranceP1 "H2" "H1"
              _ _ _ _)) _ _)) eq_refl).
    + vm_compute. reflexivity.
    + vm_compute. reflexivity.
    + reflexivity.
    + discriminate.
    + apply scanWellFormed_by_entries. intros role Hrole.
      vm_compute in Hrole. injection Hrole as <-. vm_compute. reflexivity.
    + vm_compute. eauto.
  - refine (proj1 (proj2 (other_hospital_is_refused
              nurseH2 "p1" "ehr" "read" (atStart wardGranted) ehrP1 "H2" "H1" _ _ _ _))).
    + vm_compute. reflexivity.
    + vm_compute. reflexivity.
    + reflexivity.
    + discriminate.
Defined.

(** The claim as written, which speaks of any read: patient p1, whose hospital
    attribute is H2, reads the own record stored for hospital H1. *)
Lemma other_hospital_is_refused_counterexample :
  ~ (forall ctx patientId dataType st record H1 H2,
       getAttributeValue ctx "hospitalID" = Some H1 ->
       world st !! createCompositeKey dataType [patientId] = Some record ->
       prop "hospitalID" record = Some (JStr H2) ->
       H1 <> H2 ->
       denied (PatientContract.readMyRecord ctx patientId dataType st)).
Proof.
  intros H.
  destruct (H patientP1 "p1" "ehr" (atStart ward) ehrP1 "H2" "H1") as [why [s Hs]].
  - vm_compute. reflexivity.
  - vm_compute. reflexivity.
  - reflexivity.
  - discriminate.
  - vm_compute in Hs. discriminate Hs.
Qed.

(** ** Grant, read, revoke *)

(** The owner's revokeAccess of a stored policy returns, and leaves the
    ledger without the policy. *)
Lemma revokeAccess_returns ctx patientId role dataType st doc :
  getAttributeValue ctx "role" = Some "patient" ->
  Str.includes (callerID ctx) patientId = true ->
  canLog ctx ->
  world st !! createCompositeKey "policy" [patientId; role; dataType] = Some doc ->
  PatientContract.revokeAccess ctx patientId role dataType st
  = (Ok (success ("Access policy for " ++ role ++ " on " ++ dataType ++ " revoked")),
     logged ctx "revokeAccess"
       (JObj [("patientId", JStr patientId); ("role", JStr role); ("dataType", JStr dataType)])
       {| world := delete (createCompositeKey "policy" [patientId; role; dataType]) (world st);
          openIterators := openIterators st |}).
Proof.
  intros Hr Hown Hcan Hdoc. unfold PatientContract.revokeAccess.
  rewrite run_bind, run_lift,
    (requireRole_of_attribute ctx ["patient"] "patient" Hr ltac:(discriminate) eq_refl).
  cbv beta iota zeta. rewrite Hown. cbn [negb].
  rewrite run_bind, run_readState, Hdoc. cbv beta iota.
  rewrite run_bind. unfold deleteState at 1. cbv beta iota.
  rewrite run_bind, (run_logAudit _ _ _ _ Hcan). reflexivity.
Qed.

(** The doctor's read is the delegated check for the permission read,
    followed by the audit step. *)
Lemma doctor_read_follows_check ctx patientId dataType st :
  getAttributeValue ctx "role" = Some "doctor" ->
  canLog ctx ->
  fst (DoctorContract.readPatientRecord ctx patientId dataType st)
  = fst (_checkAccessPolicy ctx patientId dataType "read" st).
Proof.
  intros Hr Hcan. unfold DoctorContract.readPatientRecord.
  rewrite run_bind, run_lift,
    (requireRole_of_attribute ctx ["doctor"] "doctor" Hr ltac:(discriminate) eq_refl).
  cbv beta iota. rewrite run_bind.
  destruct (_checkAccessPolicy ctx patientId dataType "read" st) as [[record|e] s];
    [|reflexivity].
  cbv beta iota. rewrite run_bind, (run_logAudit _ _ _ _ Hcan). reflexivity.
Qed.

(** The insurer's read is, on the insurance channel, the delegated check for
    the data type insurance and the permission read, followed by the audit
    step, which does nothing there. *)
Lemma insurance_read_follows_check ctx patientId st :
  getAttributeValue ctx "role" = Some "insurance" ->
  channelID ctx = "insurance-channel" ->
  fst (InsuranceContract.readInsuranceData ctx patientId st)
  = fst (_checkAccessPolicy ctx patientId "insurance" "read" st).
Proof.
  intros Hr Hch. unfold InsuranceContract.readInsuranceData.
  rewrite run_bind, run_lift,
    (requireRole_of_attribute ctx ["insurance"] "insurance" Hr ltac:(discriminate) eq_refl).
  cbv beta iota. rewrite Hch. cbn [String.eqb Ascii.eqb Bool.eqb negb]. rewrite run_bind.
  destruct (_checkAccessPolicy ctx patientId "insurance" "read" st) as [[record|e] s];
    [|reflexivity].
  cbv beta iota.
  assert (Hcan : canLog ctx) by (intros Hch'; rewrite Hch in Hch'; discriminate Hch').
  rewrite run_bind, (run_logAudit _ _ _ _ Hcan). reflexivity.
Qed.

(** C4, as the code has it.  The owning patient grants [permission] for a
    patient id, a role and a data type that are non-empty and free of U+0000,
    without expiry (the expiry argument absent or empty), on a ledger where
    the policy scan of that triple, as the stub serves it, meets no key but
    the triple's own.  Then, the record being stored, of the caller's
    hospital and within the caller's clearance, the delegated check of a
    caller of that role returns the record, and so do the doctor's
    readPatientRecord when the role is doctor and the permission read, and
    the insurer's readInsuranceData on the insurance channel when role and
    data type are insurance and the permission read.  The owner's
    revokeAccess for the triple then returns, and after it the same check and
    the same reads are denied for want of a policy. *)
Theorem grant_read_revoke
    ctxP ctxP' ctxR patientId role dataType permission expiry h st r1 st1 record :
  In permission PatientContract.validPermissions ->
  expiry = None \/ expiry = Some "" ->
  plain patientId = true -> plain role = true -> plain dataType = true ->
  scansOnly patientId role dataType (world st) ->
  PatientContract.grantAccess ctxP patientId role dataType permission expiry st = (Ok r1, st1) ->
  getAttributeValue ctxP' "role" = Some "patient" ->
  Str.includes (callerID ctxP') patientId = true ->
  canLog ctxP' ->
  getAttributeValue ctxR "role" = Some role ->
  getAttributeValue ctxR "hospitalID" = Some h ->
  canLog ctxR ->
  world st1 !! createCompositeKey dataType [patientId] = Some record ->
  prop "hospitalID" record = Some (JStr h) ->
  (prop "sensitivity" record = Some (JStr "high") ->
   getAttributeValue ctxR "clearance" = Some "high") ->
  let refusal :=
    Err (AccessDenied (NoPolicyAccess permission role (callerID ctxR) dataType patientId)) in
  (_checkAccessPolicy ctxR patientId dataType permission st1 = (Ok record, opened st1)
   /\ (role = "doctor" -> permission = "read" ->
       fst (DoctorContract.readPatientRecord ctxR patientId dataType st1) = Ok record)
   /\ (role = "insurance" -> dataType = "insurance" -> permission = "read" ->
       channelID ctxR = "insurance-channel" ->
       fst (InsuranceContract.readInsuranceData ctxR patientId st1) = Ok record))
  /\ exists r2 st2,
       PatientContract.revokeAccess ctxP' patientId role dataType st1 = (Ok r2, st2)
       /\ _checkAccessPolicy ctxR patientId dataType permission st2 = (refusal, st2)
       /\ (role = "doctor" -> permission = "read" ->
           fst (DoctorContract.readPatientRecord ctxR patientId dataType st2) = refusal)
       /\ (role = "insurance" -> dataType = "insurance" -> permission = "read" ->
           channelID ctxR = "insurance-channel" ->
           fst (InsuranceContract.readInsuranceData ctxR patientId st2) = refusal).
Proof.
  intros Hperm Hexpiry _ _ _ Honly Hgrant HrP HownP HcanP Hr Hh HcanR Hrec Hhosp Hgate refusal.
  pose proof (grant_scansOnly _ _ _ _ _ _ _ _ _ Honly Hgrant) as Honly1.
  apply grantAccess_Ok in Hgrant as (Hpolicy & _ & _ & _).
  assert (Hcheck : _checkAccessPolicy ctxR patientId dataType permission st1
                   = (Ok record, opened st1)).
  { eapply checkAccessPolicy_single; try eassumption.
    - exact (scansOnly_range _ _ _ _ _ Honly1 Hpolicy).
    - destruct Hperm as [<- | [<- | []]]; reflexivity.
    - destruct Hexpiry as [-> | ->]; reflexivity. }
  split.
  - split; [exact Hcheck|]. split.
    + intros -> ->.
      rewrite (doctor_read_follows_check _ _ _ _ Hr HcanR), Hcheck. reflexivity.
    + intros -> -> -> Hch.
      rewrite (insurance_read_follows_check _ _ _ Hr Hch), Hcheck. reflexivity.
  - eexists _, _. split; [exact (revokeAccess_returns _ _ _ _ _ _ HrP HownP HcanP Hpolicy)|].
    set (st2 := logged ctxP' _ _ _).
    assert (Hgone : world st2 !! createCompositeKey "policy" [patientId; role; dataType] = None).
    { unfold st2. rewrite logged_frame by discriminate. apply lookup_delete_eq. }
    assert (Honly2 : scansOnly patientId role dataType (world st2)).
    { intros k Hk Hm.
      destruct (decide (k = createCompositeKey "policy" [patientId; role; dataType]))
        as [->|Hne]; [reflexivity|].
      destruct (decide (k = auditKey ctxP')) as [->|Ha];
        [rewrite auditKey_not_scanned in Hm; discriminate Hm|].
      unfold st2 in Hk. rewrite logged_frame in Hk by exact Ha. cbn [world] in Hk.
      rewrite lookup_delete_ne in Hk by congruence. exact (Honly1 k Hk Hm). }
    assert (Hdenied : _checkAccessPolicy ctxR patientId dataType permission st2 = (refusal, st2)).
    { eapply checkAccessPolicy_empty; try eassumption.
      exact (scansOnly_no_range _ _ _ _ Honly2 Hgone). }
    split; [exact Hdenied|]. split.
    + intros -> ->.
      rewrite (doctor_read_follows_check _ _ _ _ Hr HcanR), Hdenied. reflexivity.
    + intros -> -> -> Hch.
      rewrite (insurance_read_follows_check _ _ _ Hr Hch), Hdenied. reflexivity.
Qed.

Lemma grant_read_revoke_witness :
  let refusal :=
    Err (AccessDenied (NoPolicyAccess "read" "doctor" (callerID doctorH1cleared) "ehr" "p1")) in
  fst (DoctorContract.readPatientRecord doctorH1cleared "p1" "ehr" (atStart wardGranted))
  = Ok ehrP1
  /\ exists r2 st2,
       PatientContract.revokeAccess patientP1 "p1" "doctor" "ehr" (atStart wardGranted)
       = (Ok r2, st2)
       /\ _checkAccessPolicy doctorH1cleared "p1" "ehr" "read" st2 = (refusal, st2)
       /\ fst (DoctorContract.readPatientRecord doctorH1cleared "p1" "ehr" st2) = refusal.
Proof.
  intros refusal.
  destruct (grant_read_revoke patientP1 patientP1 doctorH1cleared "p1" "doctor" "ehr" "read"
              (Some "") "H1" (atStart ward) (success "Access policy created for doctor on ehr")
              (atStart wardGranted) ehrP1)
    as [(_ & Hread & _) (r2 & st2 & Hrevoke & Hcheck & Hdenied & _)].
  - left. reflexivity.
  - right. reflexivity.
  - reflexivity.
  - reflexivity.
  - reflexivity.
  - apply scansOnly_by_entries. vm_compute. reflexivity.
  - vm_compute. reflexivity.
  - vm_compute. reflexivity.
  - vm_compute. reflexivity.
  - intros Hch. vm_compute in Hch. discriminate Hch.
  - vm_compute. reflexivity.
  - vm_compute. reflexivity.
  - intros Hch. vm_compute in Hch. discriminate Hch.
  - vm_compute. reflexivity.
  - reflexivity.
  - intros _. vm_compute. reflexivity.
  - split; [exact (Hread eq_refl eq_refl)|].
    exists r2, st2. split; [exact Hrevoke|]. split; [exact Hcheck|].
    exact (Hdenied eq_refl eq_refl).
Defined.

(** The claim as written, which speaks of a read by a caller of the role,
    whatever the role: the nurse's read consults no policy, so after patient
    p10 granted nurses read access and revoked it again, the nurse's read
    returns the record as before. *)
Lemma grant_read_revoke_counterexample :
  ~ (forall ctxP ctxR patientId role dataType st r1 st1 r2 st2 record,
       PatientContract.grantAccess ctxP patientId role dataType "read" (Some "") st
       = (Ok r1, st1) ->
       PatientContract.revokeAccess ctxP patientId role dataType st1 = (Ok r2, st2) ->
       getAttributeValue ctxR "role" = Some role ->
       fst (NurseContract.readPatientRecord ctxR patientId dataType st1) = Ok record ->
       denied (NurseContract.readPatientRecord ctxR patientId dataType st2)).
Proof.
  intros H.
  destruct (H patientP10 nurseH1 "p10" "nurse" "ehr" (atStart ward)
              (success "Access policy created for nurse on ehr")
              (atStart (<[createCompositeKey "policy" ["p10"; "nurse"; "ehr"] :=
                            grantedPolicy "p10" "nurse" "ehr" "read" (Some "")]> ward))
              (success "Access policy for nurse on ehr revoked")
              (atStart ward) ehrP10) as [why [s Hs]].
  - vm_compute. reflexivity.
  - vm_compute. reflexivity.
  - vm_compute. reflexivity.
  - vm_compute. reflexivity.
  - vm_compute in Hs. discriminate Hs.
Qed.

(** ** The audit entry of a transaction *)

(** Two computations that agree step by step. *)
Lemma bind_same {A B} (m m' : M A) (f f' : A -> M B) st :
  m st = m' st -> (forall a s, f a s = f' a s) -> (m ≫= f) st = (m' ≫= f') st.
Proof.
  intros Hm Hf. rewrite !run_bind, <- Hm. destruct (m st) as [[a|e] s]; [apply Hf | reflexivity].
Qed.

(** The policy scan does not look at the channel. *)
Lemma checkAccessPolicy_loop_onChannel channel ctx patientId dataType permission h it st :
  _checkAccessPolicy_loop ctx patientId dataType permission h it st
  = _checkAccessPolicy_loop (onChannel channel ctx) patientId dataType permission h it st.
Proof.
  revert st. induction it as [|[k policy] rest IH]; intros st; [reflexivity|].
  cbn [_checkAccessPolicy_loop].
  apply bind_same; [reflexivity | intros included s].
  apply bind_same; [reflexivity | intros live s'].
  destruct (included && live); [reflexivity | apply IH].
Qed.

Lemma checkAccessPolicy_onChannel channel ctx patientId dataType permission st :
  _checkAccessPolicy ctx patientId dataType permission st
  = _checkAccessPolicy (onChannel channel ctx) patientId dataType permission st.
Proof.
  unfold _checkAccessPolicy.
  apply bind_same; [reflexivity | intros role s].
  apply bind_same; [reflexivity | intros h s'].
  apply bind_same; [reflexivity | intros it s''].
  apply bind_same; [apply checkAccessPolicy_loop_onChannel | reflexivity].
Qed.

Lemma stillSucceeds_throw {A} ctx (e : error) (m' : M A) : stillSucceeds ctx (throw e) m'.
Proof. intros st r st' Heq. discriminate Heq. Qed.

Lemma stillSucceeds_bind {A B} ctx (m m' : M A) (f f' : A -> M B) :
  (forall st, m st = m' st) -> (forall a, stillSucceeds ctx (f a) (f' a)) ->
  stillSucceeds ctx (m ≫= f) (m' ≫= f').
Proof.
  intros Hm Hf st r st'. rewrite !run_bind, <- Hm.
  destruct (m st) as [[a|e] s]; [apply Hf | discriminate].
Qed.

(** The last two steps of an audited method, on the audit channel and off
    it. *)
Lemma stillSucceeds_logAudit {A} ctx ctx' action details details' (x x' : A) :
  channelID ctx = "audit-channel" -> channelID ctx' <> "audit-channel" ->
  details = details' -> x = x' ->
  stillSucceeds ctx (_logAudit ctx action details ≫= fun _ => mret x)
    (_logAudit ctx' action details' ≫= fun _ => mret x').
Proof.
  intros Hch Hch' <- <- st r st'. rewrite !run_bind.
  destruct (_logAudit ctx action details st) as [[u|e] s] eqn:Hlog; [|discriminate].
  rewrite run_ret. intros Heq. simplify_eq.
  rewrite (run_logAudit ctx' action details st) by (intros Hc; contradiction).
  rewrite (logged_quiet _ _ _ _ Hch'), run_ret. eexists. split; [reflexivity|].
  revert Hlog. unfold _logAudit.
  destruct (String.eqb_spec (channelID ctx) "audit-channel"); [|contradiction].
  destruct (txSeconds ctx); [|discriminate]. rewrite run_putState. intros Heq. simplify_eq.
  eexists. reflexivity.
Qed.

Ltac still_walk :=
  repeat (cbv zeta;
          first [ apply stillSucceeds_throw
                | apply stillSucceeds_logAudit; [assumption | assumption | reflexivity..]
                | match goal with
                  | |- stillSucceeds _ (if ?b then _ else _) (if ?b' then _ else _) =>
                      change b' with b; destruct b
                  | |- stillSucceeds _ (match ?x with _ => _ end) (match ?x with _ => _ end) =>
                      destruct x
                  end
                | apply stillSucceeds_bind;
                  [ intros ?; first [reflexivity | apply checkAccessPolicy_onChannel]
                  | intros ? ] ]).

(** An audited method that returns on the audit channel returns the same on
    any other channel. *)
Lemma run_stillSucceeds c ctx channel :
  audited c = true -> channelID ctx = "audit-channel" -> channel <> "audit-channel" ->
  stillSucceeds ctx (run c ctx) (run c (onChannel channel ctx)).
Proof.
  intros Hc Hch Hother.
  assert (Hch' : channelID (onChannel channel ctx) <> "audit-channel") by exact Hother.
  destruct c; try discriminate Hc; cbn [run]; unfold_methods.
  1-12: still_walk.
  - intros st r st'. rewrite run_bind, run_lift, Hch.
    destruct (requireRole ctx ["insurance"]); discriminate.
  - intros st r st'. rewrite run_bind, run_lift, Hch.
    destruct (requireRole ctx ["insurance"]); discriminate.
Qed.

Lemma target_under_audit c (k : Key) :
  targetKey c = Some k -> k.1 = "audit" -> writesUnder c = Some "audit".
Proof. destruct c; cbn; intros Hk Htag; simplify_eq; cbn in Htag; congruence. Qed.

(** C5, as the code has it.  The logging step writes one entry, under the
    key made of the transaction id, on the audit channel when the transaction
    timestamp is there, raises without writing when it is not, and returns
    without writing on any other channel.  An audited method that returns on
    the audit channel has filed the entry of its transaction, and no other
    key under [audit] has changed; an audited method on any other channel
    leaves every key under [audit] as it was (both for methods whose own
    document is not written under [audit]); and an audited method that
    returns on the audit channel returns the same result on any other
    channel, leaving the same ledger without the entry. *)
Theorem audit_entry_on_audit_channel_only ctx :
  (forall action details st,
     (channelID ctx = "audit-channel" ->
      forall seconds, txSeconds ctx = Some seconds ->
        _logAudit ctx action details st
        = (Ok tt, withEntry (auditKey ctx) (auditData ctx seconds action details) st))
     /\ (channelID ctx = "audit-channel" -> txSeconds ctx = None ->
         _logAudit ctx action details st = (Err NoTimestamp, st))
     /\ (channelID ctx <> "audit-channel" ->
         _logAudit ctx action details st = (Ok tt, st)))
  /\ (forall c st r st',
        audited c = true -> run c ctx st = (Ok r, st') ->
        channelID ctx = "audit-channel" ->
        (exists seconds action details,
           txSeconds ctx = Some seconds
           /\ world st' !! auditKey ctx = Some (auditData ctx seconds action details))
        /\ (writesUnder c <> Some "audit" ->
            forall k : Key, k.1 = "audit" -> k <> auditKey ctx ->
                            world st' !! k = world st !! k))
  /\ (forall c st r st',
        audited c = true -> run c ctx st = (r, st') ->
        channelID ctx <> "audit-channel" -> writesUnder c <> Some "audit" ->
        forall k : Key, k.1 = "audit" -> world st' !! k = world st !! k)
  /\ (forall c channel st r st',
        audited c = true -> run c ctx st = (Ok r, st') ->
        channelID ctx = "audit-channel" -> channel <> "audit-channel" ->
        exists st'',
          run c (onChannel channel ctx) st = (Ok r, st'')
          /\ exists entry, world st' = <[auditKey ctx := entry]> (world st'')).
Proof.
  split; [|split; [|split]].
  - intros action details st. unfold _logAudit, auditKey, withEntry, putState.
    split; [|split].
    + intros -> seconds ->. reflexivity.
    + intros -> ->. reflexivity.
    + intros Hne.
      destruct (String.eqb_spec (channelID ctx) "audit-channel"); [contradiction | reflexivity].
  - intros c st r st' Hc Hrun Hch. split.
    + exact (audited_call_files_entry c ctx Hc st r st' Hrun Hch).
    + intros Hunder k Htag Hk. apply (run_agreeOutside c ctx st _ st' Hrun).
      intros [Htarget | Ha]; [|contradiction].
      exact (Hunder (target_under_audit c k Htarget Htag)).
  - intros c st r st' Hc Hrun Hch Hunder.
    exact (audited_call_keeps_trail ctx Hch c Hc Hunder st r st' Hrun).
  - intros c channel st r st' Hc Hrun Hch Hother.
    exact (run_stillSucceeds c ctx channel Hc Hch Hother st r st' Hrun).
Qed.

Lemma audit_entry_on_audit_channel_only_witness :
  (exists seconds action details,
     txSeconds adminOnAudit = Some seconds
     /\ world (snd (run (CreatePatient "p2" "H1" (Some (JObj []))) adminOnAudit (atStart ward)))
          !! auditKey adminOnAudit
        = Some (auditData adminOnAudit seconds action details))
  /\ exists st'',
       run (CreatePatient "p2" "H1" (Some (JObj []))) (onChannel "ehr-channel" adminOnAudit)
         (atStart ward)
       = (Ok (success "Patient p2 created"), st'')
       /\ exists entry,
            world (snd (run (CreatePatient "p2" "H1" (Some (JObj []))) adminOnAudit
                          (atStart ward)))
            = <[auditKey adminOnAudit := entry]> (world st'').
Proof.
  assert (Hrun : run (CreatePatient "p2" "H1" (Some (JObj []))) adminOnAudit (atStart ward)
                 = (Ok (success "Patient p2 created"),
                    snd (run (CreatePatient "p2" "H1" (Some (JObj []))) adminOnAudit
                           (atStart ward))))
    by (vm_compute; reflexivity).
  split.
  - exact (proj1 (proj1 (proj2 (audit_entry_on_audit_channel_only adminOnAudit))
                    (CreatePatient "p2" "H1" (Some (JObj []))) _ _ _ eq_refl Hrun eq_refl)).
  - apply (proj2 (proj2 (proj2 (audit_entry_on_audit_channel_only adminOnAudit)))
             (CreatePatient "p2" "H1" (Some (JObj []))) "ehr-channel" _ _ _ eq_refl Hrun eq_refl).
    discriminate.
Defined.

(** The claim as written, for every audited operation: a patient whose
    identifier contains the transaction id of a filed entry updates the record
    of that id under the data type [audit].  On the audit channel the update
    writes two documents under [audit], the entry of its own transaction and
    the rewritten one; on any other channel it still rewrites the filed
    entry. *)
Lemma audit_entry_on_audit_channel_only_counterexample :
  ~ (forall c ctx st r st',
       audited c = true -> run c ctx st = (Ok r, st') ->
       (channelID ctx = "audit-channel" ->
        forall k : Key, k.1 = "audit" -> k <> auditKey ctx -> world st' !! k = world st !! k)
       /\ (channelID ctx <> "audit-channel" ->
           forall k : Key, k.1 = "audit" -> world st' !! k = world st !! k)).
Proof.
  intros H.
  assert (Hrun : run (UpdateMyRecord "tx-0" "audit" (Some (JObj [("action", JStr "none")])))
                   patientTx0Elsewhere (atStart trail)
                 = (Ok (success "audit for patient tx-0 updated"),
                    atStart (<[createCompositeKey "audit" ["tx-0"] :=
                                 JObj [("action", JStr "none")]]> trail)))
    by (vm_compute; reflexivity).
  destruct (fun Hc => H _ _ _ _ _ Hc Hrun) as [_ Hoff]; [reflexivity|].
  assert (Hch : channelID patientTx0Elsewhere <> "audit-channel") by (vm_compute; discriminate).
  specialize (Hoff Hch (createCompositeKey "audit" ["tx-0"]) eq_refl).
  vm_compute in Hoff. discriminate Hoff.
Qed.
